(** * ISS spotter: the callback pipeline (iss.js) and the promise pipeline
    (iss_promised.js), embedded with the JavaScript values they handle.

    The two files chain three HTTP lookups: the caller's public IP address,
    the coordinates of that address, and the next passes of the ISS over
    those coordinates.  The network is the only input of the program; it is
    a function from the requested URL to the reply the transport hands back.
    The observable behaviour of one run is the outcome (the arguments the
    caller's callback receives, the value a promise settles with, or the
    exception that escapes) together with the trace of stage invocations and
    requests issued. *)

From Stdlib Require Import String Ascii List ZArith NArith Bool Lia.
From Stdlib Require Import DecimalString.
Import ListNotations.
Local Open Scope string_scope.
#[local] Set Warnings "-register-all".

(** ** JavaScript values *)

(** A number is kept as the exact decimal its text denotes,
    [unscaled * 10 ^ (- scale)], with [scale] as small as possible (so an
    integer has [scale = 0]).  The rounding to binary64 that the engine
    performs is outside the model. *)
Record Number : Set := mkNumber { unscaled : Z; scale : nat }.

Inductive Value : Set :=
| Undefined
| Null
| Bool (b : bool)
| Num (n : Number)
| Str (s : string)
| Arr (items : list Value)
| Obj (fields : list (string * Value)).

(** The integer [z] as a JavaScript number. *)
Definition Int (z : Z) : Value := Num (mkNumber z 0).

(** What can be thrown, handed to a callback as its error, or reject a
    promise. *)
Inductive Exception : Set :=
| TransportError (cause : string)
| Error (message : string)
| SyntaxError (message : string)
| TypeError (message : string)
| ReferenceError (message : string)
| RequestError (cause : Exception)
| StatusCodeError (statusCode : N) (body : string).

Inductive Completion (A : Type) : Type :=
| Normal (a : A)
| Throw (e : Exception).
Arguments Normal {A} a.
Arguments Throw {A} e.

(** ** Strings *)

Definition dquote : ascii := "034"%char.

(** [quoted s] is [s] between two double quotes. *)
Definition quoted (s : string) : string :=
  String dquote (s ++ String dquote EmptyString).

Fixpoint zeros (n : nat) : string :=
  match n with
  | O => EmptyString
  | S n' => String "0" (zeros n')
  end.

Fixpoint join (sep : string) (l : list string) : string :=
  match l with
  | [] => EmptyString
  | [x] => x
  | x :: rest => x ++ sep ++ join sep rest
  end.

(** [includes s sub]: [sub] occurs in [s]. *)
Definition includes (s sub : string) : Prop :=
  exists before after, s = before ++ sub ++ after.

Definition decimal_of_N (n : N) : string :=
  NilZero.string_of_uint (N.to_uint n).

(** Drops the zeros at the end of a digit string (all but the first
    character). *)
Fixpoint strip_zeros_rev (r : list ascii) : list ascii :=
  match r with
  | "0"%char :: ((_ :: _) as rest) => strip_zeros_rev rest
  | _ => r
  end.

Definition strip_trailing_zeros (s : string) : string :=
  string_of_list_ascii (rev (strip_zeros_rev (rev (list_ascii_of_string s)))).

(** Number::toString, radix 10, on an exact decimal: with [s] the [k]
    significant digits and [n] the position of the decimal point, plain
    digits for [k <= n <= 21], a decimal point inside for [0 < n <= 21],
    leading zeros for [-6 < n <= 0], and the exponent form otherwise. *)
Definition number_to_string (x : Number) : string :=
  let m := Z.abs (unscaled x) in
  if (m =? 0)%Z then "0" else
  let sign := if (unscaled x <? 0)%Z then "-" else EmptyString in
  let d := decimal_of_N (Z.to_N m) in
  let s := strip_trailing_zeros d in
  let k := String.length s in
  let n := (Z.of_nat (String.length d) - Z.of_nat (scale x))%Z in
  sign ++
  (if ((Z.of_nat k <=? n) && (n <=? 21))%Z then
     s ++ zeros (Z.to_nat n - k)
   else if ((0 <? n) && (n <=? 21))%Z then
     substring 0 (Z.to_nat n) s ++ "." ++ substring (Z.to_nat n) (k - Z.to_nat n) s
   else if ((-6 <? n) && (n <=? 0))%Z then
     "0." ++ zeros (Z.to_nat (- n)) ++ s
   else
     let e := (n - 1)%Z in
     let esign := if (e <? 0)%Z then "-" else "+" in
     let mantissa :=
       if (k =? 1)%nat then s
       else substring 0 1 s ++ "." ++ substring 1 (k - 1) s in
     mantissa ++ "e" ++ esign ++ decimal_of_N (Z.to_N (Z.abs e))).

(** ToString, as a template literal applies it to the value it
    interpolates.  An object is printed as the text [[object Object]]: the
    engine does so unless the object has a property [toString] of its own,
    where it throws a TypeError; that case is outside the model. *)
Fixpoint to_string (v : Value) : string :=
  match v with
  | Undefined => "undefined"
  | Null => "null"
  | Bool true => "true"
  | Bool false => "false"
  | Num n => number_to_string n
  | Str s => s
  | Arr items =>
      join ","
        ((fix each (l : list Value) : list string :=
            match l with
            | [] => []
            | Undefined :: rest => EmptyString :: each rest
            | Null :: rest => EmptyString :: each rest
            | x :: rest => to_string x :: each rest
            end) items)
  | Obj _ => "[object Object]"
  end.

(** ** Property access *)

Fixpoint lookup (key : string) (fields : list (string * Value)) : option Value :=
  match fields with
  | [] => None
  | (k, v) :: rest => if String.eqb k key then Some v else lookup key rest
  end.

(** [v.key] for the keys this program reads (ip, status, lat, lon, message,
    response): none of them is on a prototype, so the result is the own
    property or undefined; reading a property of null or undefined throws. *)
Definition get (v : Value) (key : string) : Completion Value :=
  match v with
  | Undefined =>
      Throw (TypeError ("Cannot read properties of undefined (reading '" ++ key ++ "')"))
  | Null =>
      Throw (TypeError ("Cannot read properties of null (reading '" ++ key ++ "')"))
  | Obj fields =>
      Normal (match lookup key fields with Some x => x | None => Undefined end)
  | _ => Normal Undefined
  end.

(** [v === s] for a string literal [s]. *)
Definition strict_equals_string (v : Value) (s : string) : bool :=
  match v with
  | Str s' => String.eqb s' s
  | _ => false
  end.

(** ** JSON.parse *)

(** The text is read as bytes; a [\uXXXX] escape is stored as the UTF-8
    bytes of its code unit.  The message of the SyntaxError an engine
    reports depends on the engine and is not modelled. *)

Definition is_whitespace (c : ascii) : bool :=
  (c =? " ")%char || (c =? "009")%char || (c =? "010")%char || (c =? "013")%char.

Fixpoint skip_whitespace (s : string) : string :=
  match s with
  | String c rest => if is_whitespace c then skip_whitespace rest else s
  | EmptyString => s
  end.

Definition is_digit (c : ascii) : bool :=
  (48 <=? nat_of_ascii c)%nat && (nat_of_ascii c <=? 57)%nat.

Definition digit_value (c : ascii) : Z := Z.of_nat (nat_of_ascii c - 48).

(** The longest prefix of digits, and what follows it. *)
Fixpoint take_digits (s : string) : string * string :=
  match s with
  | String c rest =>
      if is_digit c then
        let (ds, after) := take_digits rest in (String c ds, after)
      else (EmptyString, s)
  | EmptyString => (EmptyString, s)
  end.

Fixpoint digits_value (acc : Z) (ds : string) : Z :=
  match ds with
  | String c rest => digits_value (10 * acc + digit_value c) rest
  | EmptyString => acc
  end.

(** Divides by ten while the scale allows it and the last digit is zero. *)
Fixpoint normalize (m : Z) (sc : nat) : Number :=
  match sc with
  | O => mkNumber m 0
  | S sc' => if (m mod 10 =? 0)%Z then normalize (m / 10) sc' else mkNumber m sc
  end.

(** The number [(-1)^neg * m * 10 ^ e]. *)
Definition make_number (neg : bool) (m e : Z) : Number :=
  let m := if neg then (- m)%Z else m in
  if (0 <=? e)%Z then mkNumber (m * 10 ^ e) 0
  else normalize m (Z.to_nat (- e)).

(** One or more digits, and what follows them. *)
Definition some_digits (s : string) : option (string * string) :=
  match take_digits s with
  | (EmptyString, _) => None
  | (ds, after) => Some (ds, after)
  end.

Definition parse_fraction (s : string) : option (string * string) :=
  match s with
  | String c rest => if (c =? ".")%char then some_digits rest else Some (EmptyString, s)
  | EmptyString => Some (EmptyString, s)
  end.

(** The digits of an exponent, with the sign read before them. *)
Definition signed_digits (neg : bool) (s : string) : option (Z * string) :=
  match some_digits s with
  | Some (ds, after) =>
      Some (if neg then (- digits_value 0 ds)%Z else digits_value 0 ds, after)
  | None => None
  end.

Definition parse_exponent (s : string) : option (Z * string) :=
  match s with
  | String c rest =>
      if ((c =? "e") || (c =? "E"))%char then
        match rest with
        | String sign rest' =>
            if (sign =? "+")%char then signed_digits false rest'
            else if (sign =? "-")%char then signed_digits true rest'
            else signed_digits false rest
        | EmptyString => None
        end
      else Some (0%Z, s)
  | EmptyString => Some (0%Z, s)
  end.

(** A number: an optional minus sign; then a single zero, or a non-zero
    digit and any digits; then optionally a point and one or more digits;
    then optionally e or E, an optional sign and one or more digits. *)
Definition parse_number (s : string) : option (Number * string) :=
  let (neg, s1) :=
    match s with
    | String c rest => if (c =? "-")%char then (true, rest) else (false, s)
    | EmptyString => (false, s)
    end in
  match s1 with
  | String c rest =>
      if is_digit c then
        let (ints, s2) :=
          if (c =? "0")%char then (String c EmptyString, rest) else take_digits s1 in
        match parse_fraction s2 with
        | None => None
        | Some (fracs, s3) =>
            match parse_exponent s3 with
            | None => None
            | Some (e, s4) =>
                Some (make_number neg (digits_value 0 (ints ++ fracs))
                        (e - Z.of_nat (String.length fracs)), s4)
            end
        end
      else None
  | EmptyString => None
  end.

Definition hex_value (c : ascii) : option N :=
  let n := N_of_ascii c in
  if ((48 <=? n) && (n <=? 57))%N then Some (n - 48)%N
  else if ((65 <=? n) && (n <=? 70))%N then Some (n - 55)%N
  else if ((97 <=? n) && (n <=? 102))%N then Some (n - 87)%N
  else None.

Definition hex4 (h1 h2 h3 h4 : ascii) : option N :=
  match hex_value h1, hex_value h2, hex_value h3, hex_value h4 with
  | Some a, Some b, Some c, Some d => Some (((a * 16 + b) * 16 + c) * 16 + d)%N
  | _, _, _, _ => None
  end.

Definition utf8 (code : N) : string :=
  if (code <? 128)%N then String (ascii_of_N code) EmptyString
  else if (code <? 2048)%N then
    String (ascii_of_N (192 + code / 64))
      (String (ascii_of_N (128 + code mod 64)) EmptyString)
  else
    String (ascii_of_N (224 + code / 4096))
      (String (ascii_of_N (128 + (code / 64) mod 64))
         (String (ascii_of_N (128 + code mod 64)) EmptyString)).

(** The character a one-letter escape stands for. *)
Definition unescape (e : ascii) : option ascii :=
  if (e =? dquote)%char then Some dquote
  else if (e =? "\")%char then Some "\"%char
  else if (e =? "/")%char then Some "/"%char
  else if (e =? "b")%char then Some "008"%char
  else if (e =? "f")%char then Some "012"%char
  else if (e =? "n")%char then Some "010"%char
  else if (e =? "r")%char then Some "013"%char
  else if (e =? "t")%char then Some "009"%char
  else None.

(** The characters of a string literal after its opening quote, up to the
    closing quote. *)
Fixpoint parse_chars (s : string) : option (string * string) :=
  match s with
  | EmptyString => None
  | String c rest =>
      if (c =? dquote)%char then Some (EmptyString, rest)
      else if (c =? "\")%char then
        match rest with
        | String e rest' =>
            if (e =? "u")%char then
              match rest' with
              | String h1 (String h2 (String h3 (String h4 rest''))) =>
                  match hex4 h1 h2 h3 h4, parse_chars rest'' with
                  | Some code, Some (cs, after) => Some (utf8 code ++ cs, after)
                  | _, _ => None
                  end
              | _ => None
              end
            else
              match unescape e, parse_chars rest' with
              | Some x, Some (cs, after) => Some (String x cs, after)
              | _, _ => None
              end
        | EmptyString => None
        end
      else if (nat_of_ascii c <? 32)%nat then None
      else
        match parse_chars rest with
        | Some (cs, after) => Some (String c cs, after)
        | None => None
        end
  end.

(** [strip_prefix p s] is what follows [p] in [s], when [s] starts with [p]. *)
Fixpoint strip_prefix (p s : string) : option string :=
  match p, s with
  | EmptyString, _ => Some s
  | String a p', String b s' => if (a =? b)%char then strip_prefix p' s' else None
  | String _ _, EmptyString => None
  end.

Definition literal (word : string) (v : Value) (s : string) : option (Value * string) :=
  match strip_prefix word s with
  | Some after => Some (v, after)
  | None => None
  end.

(** Sets an own property: a repeated key keeps its place and takes the
    later value. *)
Fixpoint define (key : string) (v : Value) (fields : list (string * Value))
  : list (string * Value) :=
  match fields with
  | [] => [(key, v)]
  | (k, old) :: rest =>
      if String.eqb k key then (k, v) :: rest else (k, old) :: define key v rest
  end.

Definition own_properties (members : list (string * Value)) : list (string * Value) :=
  fold_left (fun fields kv => define (fst kv) (snd kv) fields) members [].

(** The first character after white space, and what follows it. *)
Definition next (s : string) : option (ascii * string) :=
  match skip_whitespace s with
  | String c rest => Some (c, rest)
  | EmptyString => None
  end.

(** The productions of the JSON grammar, each over the parsers of the
    productions it refers to. *)
Section Productions.
Variable value : string -> option (Value * string).
Variable elements : string -> option (list Value * string).
Variable members : string -> option (list (string * Value) * string).

(** An object, an array, a string, a literal or a number. *)
Definition value_step (s : string) : option (Value * string) :=
  match next s with
  | None => None
  | Some (c, rest) =>
      if (c =? "{")%char then
        match next rest with
        | None => None
        | Some (c', after) =>
            if (c' =? "}")%char then Some (Obj [], after)
            else
              match members rest with
              | Some (ms, after') => Some (Obj (own_properties ms), after')
              | None => None
              end
        end
      else if (c =? "[")%char then
        match next rest with
        | None => None
        | Some (c', after) =>
            if (c' =? "]")%char then Some (Arr [], after)
            else
              match elements rest with
              | Some (items, after') => Some (Arr items, after')
              | None => None
              end
        end
      else if (c =? dquote)%char then
        match parse_chars rest with
        | Some (cs, after) => Some (Str cs, after)
        | None => None
        end
      else if (c =? "t")%char then literal "true" (Bool true) (String c rest)
      else if (c =? "f")%char then literal "false" (Bool false) (String c rest)
      else if (c =? "n")%char then literal "null" Null (String c rest)
      else
        match parse_number (String c rest) with
        | Some (n, after) => Some (Num n, after)
        | None => None
        end
  end.

(** One or more values between commas, up to the closing bracket. *)
Definition elements_step (s : string) : option (list Value * string) :=
  match value s with
  | None => None
  | Some (v, rest) =>
      match next rest with
      | None => None
      | Some (c, rest') =>
          if (c =? ",")%char then
            match elements rest' with
            | Some (vs, after) => Some (v :: vs, after)
            | None => None
            end
          else if (c =? "]")%char then Some ([v], rest')
          else None
      end
  end.

(** One or more [key : value] between commas, up to the closing brace. *)
Definition members_step (s : string) : option (list (string * Value) * string) :=
  match next s with
  | None => None
  | Some (c, rest) =>
      if (c =? dquote)%char then
        match parse_chars rest with
        | None => None
        | Some (key, rest1) =>
            match next rest1 with
            | None => None
            | Some (c1, rest2) =>
                if (c1 =? ":")%char then
                  match value rest2 with
                  | None => None
                  | Some (v, rest3) =>
                      match next rest3 with
                      | None => None
                      | Some (c3, rest4) =>
                          if (c3 =? ",")%char then
                            match members rest4 with
                            | Some (more, after) => Some ((key, v) :: more, after)
                            | None => None
                            end
                          else if (c3 =? "}")%char then Some ([(key, v)], rest4)
                          else None
                      end
                  end
                else None
            end
        end
      else None
  end.
End Productions.

(** Recursive descent.  Every call passes one unit of fuel less and, between
    two calls on the same text, at least one character is read, so a fuel of
    twice the length of the text and two is never used up
    ([parse_value_fuel]). *)
Fixpoint parse_value (fuel : nat) (s : string) {struct fuel} : option (Value * string) :=
  match fuel with
  | O => None
  | S fuel' => value_step (parse_elements fuel') (parse_members fuel') s
  end

with parse_elements (fuel : nat) (s : string) {struct fuel} : option (list Value * string) :=
  match fuel with
  | O => None
  | S fuel' => elements_step (parse_value fuel') (parse_elements fuel') s
  end

with parse_members (fuel : nat) (s : string) {struct fuel}
  : option (list (string * Value) * string) :=
  match fuel with
  | O => None
  | S fuel' => members_step (parse_value fuel') (parse_members fuel') s
  end.

(** [JSON.parse(text)]: one value, with nothing but white space after it, or
    a SyntaxError. *)
Definition JSON_parse (text : string) : Completion Value :=
  match parse_value (2 * String.length text + 2) text with
  | Some (v, rest) =>
      match next rest with
      | None => Normal v
      | Some _ => Throw (SyntaxError "Unexpected token in JSON")
      end
  | None => Throw (SyntaxError "Unexpected token in JSON")
  end.

(** A parser consumes when what it leaves is shorter than what it was
    given. *)
Definition consumes {A : Type} (parser : string -> option (A * string)) : Prop :=
  forall s a after, parser s = Some (a, after) -> String.length after < String.length s.

(** Two parsers agree on the texts shorter than [n]. *)
Definition agree {A : Type} (n : nat) (p q : string -> option (A * string)) : Prop :=
  forall s, String.length s < n -> p s = q s.

(** [{"k1":v1,...}] as text, for writing response bodies. *)
Definition member (key value : string) : string := quoted key ++ ":" ++ value.
Definition object (members : list string) : string := "{" ++ join "," members ++ "}".
Definition array (items : list string) : string := "[" ++ join "," items ++ "]".

(** ** Runs: outcome and trace *)

Inductive Stage : Set := FetchMyIP | FetchCoordsByIP | FetchISSFlyOverTimes.

(** What one run leaves behind: the stages it entered and the requests it
    issued, in order. *)
Inductive Event : Set :=
| Invoked (stage : Stage)
| Requested (url : string).

Definition Trace : Set := list Event.

(** What the transport hands back for one request: [err] alone when the
    request failed, else the status code and the body. *)
Inductive Reply : Set :=
| Failed (err : Exception)
| Answered (statusCode : N) (body : string).

(** A computation continues from the trace so far and ends normally or by
    throwing; the trace survives a throw. *)
Definition M (A : Type) : Type := Trace -> Completion A * Trace.

Definition ret {A : Type} (a : A) : M A := fun t => (Normal a, t).

Definition throw {A : Type} (e : Exception) : M A := fun t => (Throw e, t).

Definition bind {A B : Type} (m : M A) (f : A -> M B) : M B :=
  fun t =>
    match m t with
    | (Normal a, t') => f a t'
    | (Throw e, t') => (Throw e, t')
    end.

Definition lift {A : Type} (c : Completion A) : M A := fun t => (c, t).

Definition emit (ev : Event) : M unit := fun t => (Normal tt, (t ++ [ev])%list).

Declare Scope js_scope.
Delimit Scope js_scope with js.
Notation "x <- m ;; k" := (bind m (fun x => k))
  (at level 61, m at next level, right associativity) : js_scope.
Notation "m ;; k" := (bind m (fun _ => k))
  (at level 61, right associativity) : js_scope.
Local Open Scope js_scope.

Definition outcome {A : Type} (r : Completion A * Trace) : Completion A := fst r.
Definition trace {A : Type} (r : Completion A * Trace) : Trace := snd r.

Definition stage_eqb (a b : Stage) : bool :=
  match a, b with
  | FetchMyIP, FetchMyIP
  | FetchCoordsByIP, FetchCoordsByIP
  | FetchISSFlyOverTimes, FetchISSFlyOverTimes => true
  | _, _ => false
  end.

(** How many times [stage] was entered in [t]. *)
Fixpoint call_count (stage : Stage) (t : Trace) : nat :=
  match t with
  | [] => 0
  | Invoked s :: rest =>
      if stage_eqb s stage then S (call_count stage rest) else call_count stage rest
  | Requested _ :: rest => call_count stage rest
  end.

(** ** iss.js *)

Module Iss.
Section Pipeline.

(** The network the [request] library talks to. *)
Variable network : string -> Reply.

(** The type of what the caller's callback computes. *)
Context {R : Type}.

(** [(error, value) => ...]: [None] is a null error. *)
Definition Callback : Type := option Exception -> Value -> M R.

(** [request(url, (err, res, body) => ...)] *)
Definition request (url : string) (k : Reply -> M R) : M R :=
  emit (Requested url) ;; k (network url).

Definition fetchMyIP (callback : Callback) : M R :=
  emit (Invoked FetchMyIP) ;;
  request "https://api64.ipify.org/?format=json" (fun reply =>
    match reply with
    | Failed err => callback (Some err) Null
    | Answered statusCode body =>
        if negb (statusCode =? 200)%N then
          let msg := "Status Code " ++ decimal_of_N statusCode
                     ++ " when fetching IP. Response: " ++ body in
          callback (Some (Error msg)) Null
        else
          data <- lift (JSON_parse body) ;;
          ip <- lift (get data "ip") ;;
          callback None ip
    end).

Definition fetchCoordsByIP (ip : Value) (callback : Callback) : M R :=
  emit (Invoked FetchCoordsByIP) ;;
  request ("http://ip-api.com/json/" ++ to_string ip) (fun reply =>
    match reply with
    | Failed err => callback (Some err) Null
    | Answered statusCode body =>
        if negb (statusCode =? 200)%N then
          let msg := "Status Code " ++ decimal_of_N statusCode
                     ++ " when fetching coordinates. Response: " ++ body in
          callback (Some (Error msg)) Null
        else
          data <- lift (JSON_parse body) ;;
          status <- lift (get data "status") ;;
          if strict_equals_string status "fail" then
            callback
              (Some (Error ("Coordinates api returned status fail. Response: " ++ body)))
              Null
          else
            lat <- lift (get data "lat") ;;
            lon <- lift (get data "lon") ;;
            callback None (Obj [("lat", lat); ("lon", lon)])
    end).

Definition fetchISSFlyOverTimes (coords : Value) (callback : Callback) : M R :=
  emit (Invoked FetchISSFlyOverTimes) ;;
  lat <- lift (get coords "lat") ;;
  lon <- lift (get coords "lon") ;;
  let URL := "http://api.open-notify.org/iss-pass.json?lat=" ++ to_string lat
             ++ "&lon=" ++ to_string lon ++ "&n=5" in
  request URL (fun reply =>
    match reply with
    | Failed err => callback (Some err) Null
    | Answered statusCode body =>
        if negb (statusCode =? 200)%N then
          let msg := "Status Code " ++ decimal_of_N statusCode
                     ++ " when fetching iss data. Response: " ++ body in
          callback (Some (Error msg)) Null
        else
          data <- lift (JSON_parse body) ;;
          message <- lift (get data "message") ;;
          if strict_equals_string message "failure" then
            callback (Some (Error ("ISS api returned status fail. Response: " ++ body)))
              Null
          else
            response <- lift (get data "response") ;;
            callback None response
    end).

(** The three failure branches read [err], a name no scope declares (the
    parameter is [error]): evaluating the arguments of [callback(err, null)]
    throws before [callback] is applied. *)
Definition nextISSTimesForMyLocation (callback : Callback) : M R :=
  fetchMyIP (fun error ip =>
    match error with
    | Some _ => throw (ReferenceError "err is not defined")
    | None =>
        fetchCoordsByIP ip (fun error coords =>
          match error with
          | Some _ => throw (ReferenceError "err is not defined")
          | None =>
              fetchISSFlyOverTimes coords (fun error issTimes =>
                match error with
                | Some _ => throw (ReferenceError "err is not defined")
                | None => callback None issTimes
                end)
          end)
    end).

End Pipeline.
End Iss.

(** ** iss_promised.js *)

Module IssPromised.
Section Pipeline.

Variable network : string -> Reply.

(** The test request-promise applies to a status code: its decimal text
    starts with 2. *)
Definition is2xx (statusCode : N) : bool :=
  match decimal_of_N statusCode with
  | String c _ => (c =? "2")%char
  | EmptyString => false
  end.

(** [request(url)] of request-promise-native with its default options: the
    promise is fulfilled with the body of a 2xx response, rejected with a
    StatusCodeError for any other status and with a RequestError when the
    transport fails.  A promise is the computation that settles it: a
    rejection is a throw. *)
Definition request (url : string) : M string :=
  emit (Requested url) ;;
  match network url with
  | Failed err => throw (RequestError err)
  | Answered statusCode body =>
      if is2xx statusCode then ret body
      else throw (StatusCodeError statusCode body)
  end.

(** [p.then(f)]: [f] runs on the value [p] is fulfilled with; a rejection
    of [p], or a throw of [f], rejects the result. *)
Definition then_ {A B : Type} (p : M A) (f : A -> M B) : M B := bind p f.

Definition fetchMyIP : M string :=
  emit (Invoked FetchMyIP) ;;
  request "https://api64.ipify.org/?format=json".

Definition fetchCoordsByIP (body : string) : M string :=
  emit (Invoked FetchCoordsByIP) ;;
  data <- lift (JSON_parse body) ;;
  ip <- lift (get data "ip") ;;
  request ("http://ip-api.com/json/" ++ to_string ip).

Definition fetchISSFlyOverTimes (body : string) : M string :=
  emit (Invoked FetchISSFlyOverTimes) ;;
  data <- lift (JSON_parse body) ;;
  lat <- lift (get data "lat") ;;
  lon <- lift (get data "lon") ;;
  let URL := "http://api.open-notify.org/iss-pass.json?lat=" ++ to_string lat
             ++ "&lon=" ++ to_string lon ++ "&n=5" in
  request URL.

Definition nextISSTimesForMyLocation : M Value :=
  then_ (then_ (then_ fetchMyIP fetchCoordsByIP) fetchISSFlyOverTimes)
    (fun data =>
       parsed <- lift (JSON_parse data) ;;
       response <- lift (get parsed "response") ;;
       ret response).

End Pipeline.
End IssPromised.

(** ** Observing a run *)

(** The callback that hands back the pair it was applied to. *)
Definition observe : Iss.Callback (R := option Exception * Value) :=
  fun error value => ret (error, value).

(** Three replies served by host: what each service answers, whatever the
    path and the query. *)
Definition serve (ipReply geoReply passReply : Reply) (url : string) : Reply :=
  match strip_prefix "https://api64.ipify.org/" url with
  | Some _ => ipReply
  | None =>
      match strip_prefix "http://ip-api.com/" url with
      | Some _ => geoReply
      | None =>
          match strip_prefix "http://api.open-notify.org/" url with
          | Some _ => passReply
          | None => Failed (TransportError "ENOTFOUND")
          end
      end
  end.

Definition ip_body : string := object [member "ip" (quoted "1.2.3.4")].
Definition geo_body : string :=
  object [member "status" (quoted "success"); member "lat" "37.0"; member "lon" "-122.0"].
Definition pass_body : string :=
  object
    [member "message" (quoted "success");
     member "response"
       (array [object [member "risetime" "1000"; member "duration" "600"];
               object [member "risetime" "2000"; member "duration" "500"]])].

(** The three URLs the stages request. *)
Definition ip_url : string := "https://api64.ipify.org/?format=json".
Definition geo_url (ip : Value) : string := "http://ip-api.com/json/" ++ to_string ip.
Definition pass_url (lat lon : Value) : string :=
  "http://api.open-notify.org/iss-pass.json?lat=" ++ to_string lat
  ++ "&lon=" ++ to_string lon ++ "&n=5".

(** A stage of iss.js failed when it threw or handed its callback an error;
    a promise failed when it was rejected. *)
Definition failed {A : Type} (r : Completion (option Exception * A) * Trace) : Prop :=
  match outcome r with
  | Normal (None, _) => False
  | _ => True
  end.

Definition rejected {A : Type} (r : Completion A * Trace) : Prop :=
  match outcome r with
  | Normal _ => False
  | Throw _ => True
  end.

Definition has_own_property (v : Value) (key : string) : bool :=
  match v with
  | Obj fields => match lookup key fields with Some _ => true | None => false end
  | _ => false
  end.

(** A computation is framed when the trace it starts from only prefixes the
    trace it leaves: the outcome and the events added are those of a run
    from the empty trace. *)
Definition framed {A : Type} (m : M A) : Prop :=
  forall t, m t = (outcome (m []), (t ++ trace (m []))%list).

(** ** Sample networks and bodies *)

(** The network of the end-to-end scenario. *)
Definition sample_network : string -> Reply :=
  serve (Answered 200 ip_body) (Answered 200 geo_body) (Answered 200 pass_body).

Definition geo_body_without_coordinates : string :=
  object [member "status" (quoted "success")].

Definition geo_fail_body : string :=
  object [member "status" (quoted "fail"); member "message" (quoted "invalid query")].

Definition pass_fail_body : string :=
  object [member "message" (quoted "failure"); member "reason" (quoted "bad coordinates")].

Definition sample_passes : Value :=
  Arr [Obj [("risetime", Int 1000); ("duration", Int 600)];
       Obj [("risetime", Int 2000); ("duration", Int 500)]].

Definition sample_events : Trace :=
  [Invoked FetchMyIP; Requested "https://api64.ipify.org/?format=json";
   Invoked FetchCoordsByIP; Requested "http://ip-api.com/json/1.2.3.4";
   Invoked FetchISSFlyOverTimes;
   Requested "http://api.open-notify.org/iss-pass.json?lat=37&lon=-122&n=5"].

(** A stage of iss.js applied to any callback is the stage applied to
    [observe], followed by the callback on what was observed. *)
Definition resume {R : Type} (callback : Iss.Callback (R := R))
  (r : Completion (option Exception * Value) * Trace) : Completion R * Trace :=
  match r with
  | (Normal (error, value), t) => callback error value t
  | (Throw e, t) => (Throw e, t)
  end.

(** ** Invocations on the event loop *)

(** The embedding above runs one invocation from its call to its end.  In
    the engine an invocation is cut into turns: the call runs until the
    first request is sent, and a later turn starts when the reply to the
    pending request arrives (or when a handler of a promise is taken from
    the queue) and runs to the next request or to the end.  A turn is never
    interrupted; between two turns of one invocation, turns of other
    invocations may run; and all of them see the same global object.  An
    invocation is therefore kept as the tree of the steps at which it can be
    suspended or at which it touches what it shares with the others. *)

(** What a variable of the running program can hold: a value read from JSON
    or an error object. *)
Inductive Any : Set :=
| Val (v : Value)
| Err (e : Exception).

(** The properties of the global object: a name no scope declares is looked
    up there, and is not defined when the global object has no such
    property. *)
Definition Globals : Type := string -> option Any.

Definition assign (name : string) (v : Any) (g : Globals) : Globals :=
  fun x => if String.eqb x name then Some v else g x.

(** The steps of an invocation.  It ends, normally or with an exception; it
    enters a stage; it sends a request and leaves a callback for the reply,
    which ends the turn; it leaves the rest to the queue of handlers, which
    ends the turn as well; it reads a global; it assigns to a global. *)
Inductive Task (R : Type) : Type :=
| Done (c : Completion R)
| Enter (stage : Stage) (next : Task R)
| Send (url : string) (callback : Reply -> Task R)
| Yield (next : Task R)
| Load (name : string) (next : option Any -> Task R)
| Store (name : string) (v : Any) (next : Task R).
Arguments Done {R} c.
Arguments Enter {R} stage next.
Arguments Send {R} url callback.
Arguments Yield {R} next.
Arguments Load {R} name next.
Arguments Store {R} name v next.

(** [task], then [f] on its value; an exception of [task] ends both. *)
Fixpoint and_then {A B : Type} (task : Task A) (f : A -> Task B) : Task B :=
  match task with
  | Done (Normal a) => f a
  | Done (Throw e) => Done (Throw e)
  | Enter stage next => Enter stage (and_then next f)
  | Send url callback => Send url (fun reply => and_then (callback reply) f)
  | Yield next => Yield (and_then next f)
  | Load name next => Load name (fun v => and_then (next v) f)
  | Store name v next => Store name v (and_then next f)
  end.

Declare Scope task_scope.
Delimit Scope task_scope with task.
Notation "x <- m ;; k" := (and_then m (fun x => k))
  (at level 61, m at next level, right associativity) : task_scope.

Module Loop.

(** iss.js, turn by turn: [request(url, callback)] registers the callback
    and returns, so the turn ends where the embedding above goes on with
    the reply. *)
Module Iss.
Section Pipeline.
Local Open Scope task_scope.

Context {R : Type}.

(** The callback a stage is given: [None] is a null error. *)
Definition Callback : Type := option Exception -> Value -> Task R.

Definition request (url : string) (callback : Reply -> Task R) : Task R :=
  Send url callback.

Definition fetchMyIP (callback : Callback) : Task R :=
  Enter FetchMyIP
    (request "https://api64.ipify.org/?format=json" (fun reply =>
       match reply with
       | Failed err => callback (Some err) Null
       | Answered statusCode body =>
           if negb (statusCode =? 200)%N then
             let msg := "Status Code " ++ decimal_of_N statusCode
                        ++ " when fetching IP. Response: " ++ body in
             callback (Some (Error msg)) Null
           else
             data <- Done (JSON_parse body) ;;
             ip <- Done (get data "ip") ;;
             callback None ip
       end)).

Definition fetchCoordsByIP (ip : Value) (callback : Callback) : Task R :=
  Enter FetchCoordsByIP
    (request ("http://ip-api.com/json/" ++ to_string ip) (fun reply =>
       match reply with
       | Failed err => callback (Some err) Null
       | Answered statusCode body =>
           if negb (statusCode =? 200)%N then
             let msg := "Status Code " ++ decimal_of_N statusCode
                        ++ " when fetching coordinates. Response: " ++ body in
             callback (Some (Error msg)) Null
           else
             data <- Done (JSON_parse body) ;;
             status <- Done (get data "status") ;;
             if strict_equals_string status "fail" then
               callback
                 (Some (Error ("Coordinates api returned status fail. Response: " ++ body)))
                 Null
             else
               lat <- Done (get data "lat") ;;
               lon <- Done (get data "lon") ;;
               callback None (Obj [("lat", lat); ("lon", lon)])
       end)).

Definition fetchISSFlyOverTimes (coords : Value) (callback : Callback) : Task R :=
  Enter FetchISSFlyOverTimes
    (lat <- Done (get coords "lat") ;;
     lon <- Done (get coords "lon") ;;
     let URL := "http://api.open-notify.org/iss-pass.json?lat=" ++ to_string lat
                ++ "&lon=" ++ to_string lon ++ "&n=5" in
     request URL (fun reply =>
       match reply with
       | Failed err => callback (Some err) Null
       | Answered statusCode body =>
           if negb (statusCode =? 200)%N then
             let msg := "Status Code " ++ decimal_of_N statusCode
                        ++ " when fetching iss data. Response: " ++ body in
             callback (Some (Error msg)) Null
           else
             data <- Done (JSON_parse body) ;;
             message <- Done (get data "message") ;;
             if strict_equals_string message "failure" then
               callback (Some (Error ("ISS api returned status fail. Response: " ++ body)))
                 Null
             else
               response <- Done (get data "response") ;;
               callback None response
       end)).

(** [callback(err, null)] in a failure branch: [err] is declared in no scope
    of the file, so it is looked up on the global object.  Without such a
    property the lookup throws and [callback] is not applied; with one,
    [callback] is applied to whatever the property holds. *)
Definition report (callback : Any -> Value -> Task R) : Task R :=
  Load "err" (fun err =>
    match err with
    | Some v => callback v Null
    | None => Done (Throw (ReferenceError "err is not defined"))
    end).

Definition nextISSTimesForMyLocation (callback : Any -> Value -> Task R) : Task R :=
  fetchMyIP (fun error ip =>
    match error with
    | Some _ => report callback
    | None =>
        fetchCoordsByIP ip (fun error coords =>
          match error with
          | Some _ => report callback
          | None =>
              fetchISSFlyOverTimes coords (fun error issTimes =>
                match error with
                | Some _ => report callback
                | None => callback (Val Null) issTimes
                end)
          end)
    end).

End Pipeline.
End Iss.

(** iss_promised.js, turn by turn: a promise is the task that settles it. *)
Module IssPromised.
Local Open Scope task_scope.

Definition request (url : string) : Task string :=
  Send url (fun reply =>
    match reply with
    | Failed err => Done (Throw (RequestError err))
    | Answered statusCode body =>
        if IssPromised.is2xx statusCode then Done (Normal body)
        else Done (Throw (StatusCodeError statusCode body))
    end).

(** [p.then(f)]: once [p] is fulfilled, [f] is put on the queue, and runs in
    a turn of its own; a rejection of [p] passes on without running any
    code of the program. *)
Definition then_ {A B : Type} (p : Task A) (f : A -> Task B) : Task B :=
  a <- p ;; Yield (f a).

Definition fetchMyIP : Task string :=
  Enter FetchMyIP (request "https://api64.ipify.org/?format=json").

Definition fetchCoordsByIP (body : string) : Task string :=
  Enter FetchCoordsByIP
    (data <- Done (JSON_parse body) ;;
     ip <- Done (get data "ip") ;;
     request ("http://ip-api.com/json/" ++ to_string ip)).

Definition fetchISSFlyOverTimes (body : string) : Task string :=
  Enter FetchISSFlyOverTimes
    (data <- Done (JSON_parse body) ;;
     lat <- Done (get data "lat") ;;
     lon <- Done (get data "lon") ;;
     let URL := "http://api.open-notify.org/iss-pass.json?lat=" ++ to_string lat
                ++ "&lon=" ++ to_string lon ++ "&n=5" in
     request URL).

Definition nextISSTimesForMyLocation : Task Value :=
  then_ (then_ (then_ fetchMyIP fetchCoordsByIP) fetchISSFlyOverTimes)
    (fun data =>
       parsed <- Done (JSON_parse data) ;;
       response <- Done (get parsed "response") ;;
       Done (Normal response)).

End IssPromised.
End Loop.

(** The callback that hands back the pair it was applied to. *)
Definition watch : Any -> Value -> Task (Any * Value) :=
  fun error value => Done (Normal (error, value)).

(** A task is quiet when it assigns to no global, whatever it is answered
    and whatever it reads. *)
Fixpoint quiet {R : Type} (task : Task R) : Prop :=
  match task with
  | Done _ => True
  | Enter _ next => quiet next
  | Send _ callback => forall reply, quiet (callback reply)
  | Yield next => quiet next
  | Load _ next => forall v, quiet (next v)
  | Store _ _ _ => False
  end.

(** Where an invocation stands between two turns. *)
Inductive Status (R : Type) : Type :=
| Finished (c : Completion R)
| Waiting (url : string) (callback : Reply -> Task R)
| Queued (next : Task R).
Arguments Finished {R} c.
Arguments Waiting {R} url callback.
Arguments Queued {R} next.

(** The outcome of an invocation that has finished. *)
Definition settled {R : Type} (st : Status R) : option (Completion R) :=
  match st with
  | Finished c => Some c
  | Waiting _ _ | Queued _ => None
  end.

Definition quiet_status {R : Type} (st : Status R) : Prop :=
  match st with
  | Finished _ => True
  | Waiting _ callback => forall reply, quiet (callback reply)
  | Queued next => quiet next
  end.

(** What the scheduler does next: a new invocation is called, or the
    invocation numbered [i] (in the order of the calls, from 0) takes its
    next turn. *)
Inductive Action : Set :=
| Call
| Resume (i : nat).

(** The events of all invocations as they happened, each with the number of
    its invocation. *)
Definition Log : Set := list (nat * Event).

(** The events of invocation [i] in the log. *)
Fixpoint events (i : nat) (log : Log) : Trace :=
  match log with
  | [] => []
  | (j, ev) :: rest => if (j =? i)%nat then ev :: events i rest else events i rest
  end.

Fixpoint replace {A : Type} (i : nat) (x : A) (l : list A) : list A :=
  match l, i with
  | [], _ => []
  | _ :: rest, O => x :: rest
  | y :: rest, S i' => y :: replace i' x rest
  end.

Section EventLoop.
Context {R : Type}.

(** The reply each request gets, fixed for the whole run. *)
Variable network : string -> Reply.

(** Whether the host ends the program when a turn ends with an exception
    (node does when nothing was registered for uncaught exceptions and, for
    a promise, when nothing handles the rejection). *)
Variable halts : bool.

(** What a call of the scheduler starts. *)
Variable invoke : Task R.

(** One turn of invocation [id]: the task runs until it sends a request,
    leaves the rest to the queue, or ends. *)
Fixpoint turn (id : nat) (task : Task R) (g : Globals) (log : Log)
  : Status R * Globals * Log :=
  match task with
  | Done c => (Finished c, g, log)
  | Enter stage next => turn id next g (log ++ [(id, Invoked stage)])%list
  | Send url callback => (Waiting url callback, g, (log ++ [(id, Requested url)])%list)
  | Yield next => (Queued next, g, log)
  | Load name next => turn id (next (g name)) g log
  | Store name v next => turn id next (assign name v g) log
  end.

Record State : Type := mkState {
  globals : Globals;
  log : Log;
  invocations : list (Status R);
  stopped : bool
}.

Definition boot (g : Globals) : State := mkState g [] [] false.

Definition ends_in_exception (st : Status R) : bool :=
  match st with
  | Finished (Throw _) => true
  | _ => false
  end.

(** The state after a turn that left its invocation at [st]; [place] puts
    [st] among the invocations. *)
Definition after_turn (place : Status R -> list (Status R))
  (r : Status R * Globals * Log) : State :=
  let '(st, g, l) := r in
  mkState g l (place st) (halts && ends_in_exception st).

Definition step (s : State) (a : Action) : State :=
  if stopped s then s
  else
    match a with
    | Call =>
        after_turn (fun st => invocations s ++ [st])%list
          (turn (length (invocations s)) invoke (globals s) (log s))
    | Resume i =>
        let place := fun st => replace i st (invocations s) in
        match nth_error (invocations s) i with
        | Some (Waiting url callback) =>
            after_turn place (turn i (callback (network url)) (globals s) (log s))
        | Some (Queued next) => after_turn place (turn i next (globals s) (log s))
        | Some (Finished _) | None => s
        end
    end.

Definition run (schedule : list Action) (s : State) : State :=
  fold_left step schedule s.

(** The invocation on its own: every request is answered at once and every
    queued handler runs at once. *)
Fixpoint finish (task : Task R) (g : Globals) (t : Trace) : Completion R * Trace :=
  match task with
  | Done c => (c, t)
  | Enter stage next => finish next g (t ++ [Invoked stage])%list
  | Send url callback => finish (callback (network url)) g (t ++ [Requested url])%list
  | Yield next => finish next g t
  | Load name next => finish (next (g name)) g t
  | Store name v next => finish next (assign name v g) t
  end.

Definition alone (g : Globals) : Completion R * Trace := finish invoke g [].

(** What is left of an invocation that stands at [st], on its own. *)
Definition complete (st : Status R) (g : Globals) (t : Trace) : Completion R * Trace :=
  match st with
  | Finished c => (c, t)
  | Waiting url callback => finish (callback (network url)) g t
  | Queued next => finish next g t
  end.

(** How many turns are left. *)
Fixpoint suspensions (task : Task R) (g : Globals) : nat :=
  match task with
  | Done _ => 0
  | Enter _ next => suspensions next g
  | Send url callback => S (suspensions (callback (network url)) g)
  | Yield next => S (suspensions next g)
  | Load name next => suspensions (next (g name)) g
  | Store name v next => suspensions next (assign name v g)
  end.

Definition turns_left (st : Status R) (g : Globals) : nat :=
  match st with
  | Finished _ => 0
  | Waiting url callback => S (suspensions (callback (network url)) g)
  | Queued next => S (suspensions next g)
  end.

(** What every turn keeps, [g] being the globals the run started with: the
    globals have not changed; every invocation stands, quiet, at a point
    from which it ends, on its own, as from its call; no event is logged for
    an invocation that was not called; and the program is stopped only by
    an exception the invocation throws on its own. *)
Definition on_course (g : Globals) (s : State) : Prop :=
  globals s = g
  /\ (forall i st, nth_error (invocations s) i = Some st ->
        quiet_status st /\ complete st g (events i (log s)) = alone g)
  /\ (forall i, length (invocations s) <= i -> events i (log s) = [])
  /\ (stopped s = true -> exists e, outcome (alone g) = Throw e).

(** The invocations of a run do not interfere: whatever the schedule, the
    globals are those the run started with; an invocation that has finished
    ended as it does on its own, with the same outcome after the same
    events, so any two that have finished ended alike; the events of one
    that has not are the first events of that run on its own and, unless
    the program was stopped, its remaining turns bring it to that end.  And
    the program is stopped only by an exception that the invocation throws
    on its own as well. *)
Definition undisturbed (g : Globals) (schedule : list Action) : Prop :=
  let s := run schedule (boot g) in
  globals s = g
  /\ (forall i c, nth_error (invocations s) i = Some (Finished c) ->
        c = outcome (alone g) /\ events i (log s) = trace (alone g))
  /\ (forall i j c c', nth_error (invocations s) i = Some (Finished c) ->
        nth_error (invocations s) j = Some (Finished c') -> c = c')
  /\ (forall i, i < length (invocations s) ->
        exists rest, trace (alone g) = (events i (log s) ++ rest)%list)
  /\ (forall i, i < length (invocations s) -> stopped s = false ->
        exists n,
          nth_error (invocations (run (repeat (Resume i) n) s)) i
          = Some (Finished (outcome (alone g))))
  /\ (stopped s = true -> exists e, outcome (alone g) = Throw e).

End EventLoop.

(** Two invocations that start together, with replies that arrive out of
    order. *)
Definition sample_schedule : list Action :=
  [Call; Call; Resume 1; Resume 0; Resume 0; Resume 1; Resume 1; Resume 0].

Definition no_globals : Globals := fun _ => None.

(** A network without the IP-echo service. *)
Definition offline_network : string -> Reply :=
  serve (Failed (TransportError "ENOTFOUND")) (Answered 200 geo_body)
    (Answered 200 pass_body).

(** A callback of a caller that counts in the global [err]. *)
Definition counting : Any -> Value -> Task (Any * Value) :=
  fun error value =>
    Store "err"
      (match error with
       | Val (Num n) => Val (Int (unscaled n + 1))
       | _ => Val (Int 0)
       end)
      (Done (Normal (error, value))).

(** ** Counting requests, and the shape of a stage's events *)

(** How many requests were issued in [t]. *)
Fixpoint request_count (t : Trace) : nat :=
  match t with
  | [] => 0
  | Requested _ :: rest => S (request_count rest)
  | Invoked _ :: rest => request_count rest
  end.

(** The URL a stage requests: the fixed address of the IP-echo service, the
    geolocation address of some value, the pass-time address of some pair of
    values (always with [n=5]). *)
Definition stage_url (stage : Stage) (url : string) : Prop :=
  match stage with
  | FetchMyIP => url = ip_url
  | FetchCoordsByIP => exists ip, url = geo_url ip
  | FetchISSFlyOverTimes => exists lat lon, url = pass_url lat lon
  end.

(** The URLs the program can request. *)
Definition endpoint (url : string) : Prop := exists stage, stage_url stage url.

Definition only_endpoints (evs : Trace) : Prop :=
  forall url, In (Requested url) evs -> endpoint url.

(** What one entry of a stage adds to the trace: the entry, then at most one
    request, to the URL of that stage. *)
Definition stage_events (stage : Stage) (evs : Trace) : Prop :=
  evs = [Invoked stage]
  \/ exists url, stage_url stage url /\ evs = [Invoked stage; Requested url].

(** The events of one run, in their order: fetchMyIP and its request; then,
    if the run went on, those of fetchCoordsByIP; then, if it went on again,
    those of fetchISSFlyOverTimes.  Nothing comes before, between or after
    them. *)
Definition pipeline_events (evs : Trace) : Prop :=
  let first := [Invoked FetchMyIP; Requested ip_url] in
  evs = first
  \/ exists e2, stage_events FetchCoordsByIP e2
       /\ (evs = (first ++ e2)%list
           \/ exists e3, stage_events FetchISSFlyOverTimes e3
                /\ evs = (first ++ e2 ++ e3)%list).

(** One run of a pipeline never enters a stage twice, enters a stage only
    after the one before it, and issues at most one request for each stage
    it entered. *)
Definition no_retry (evs : Trace) : Prop :=
  call_count FetchMyIP evs = 1
  /\ call_count FetchCoordsByIP evs <= 1
  /\ call_count FetchISSFlyOverTimes evs <= call_count FetchCoordsByIP evs
  /\ request_count evs
     <= call_count FetchMyIP evs + call_count FetchCoordsByIP evs
        + call_count FetchISSFlyOverTimes evs.

(** The ways a resolver of iss.js ends, [t] being the trace it leaves: it
    throws, or it applies its callback once, to an error and null or to a
    null error and a value. *)
Definition error_first {R : Type} (callback : Iss.Callback (R := R)) (t : Trace)
  (r : Completion R * Trace) : Prop :=
  (exists e, r = (Throw e, t))
  \/ (exists e, r = callback (Some e) Null t)
  \/ (exists v, r = callback None v t).

(** ** Values the engine holds and prints as the model does *)

(** The model keeps the decimal a number was written as, prints it digit for
    digit and turns any object into the text [[object Object]]; the engine
    rounds the decimal to binary64, prints the shortest decimal that rounds
    to the same binary64 number, and fails with a TypeError on an object
    that has a property [toString] of its own (a value read from JSON is
    never a function).  The two predicates below single out the values on
    which model and engine agree. *)

(** How many digits [n] has from its first to its last non-zero digit. *)
Definition significant_digits (n : Number) : nat :=
  String.length (strip_trailing_zeros (decimal_of_N (Z.to_N (Z.abs (unscaled n))))).

(** The numbers ToString shows as they were written: the integers up to
    [2 ^ 53] (each is a binary64 number, and no shorter decimal rounds to
    it), and the decimals of at most 15 significant digits in the range of
    the normal binary64 numbers (two of them never round to the same
    binary64 number, so the shortest decimal of the rounded number is the
    decimal itself). *)
Definition prints_as_written (n : Number) : bool :=
  ((scale n =? 0)%nat && (Z.abs (unscaled n) <=? 2 ^ 53)%Z)
  || ((significant_digits n <=? 15)%nat && (scale n <=? 300)%nat
      && (Z.abs (unscaled n) <? 10 ^ 300)%Z).

(** The values on which [to_string] is the engine's ToString: no number
    that would print differently, and no object with a [toString] of its
    own, neither at the top nor among the elements of an array. *)
Fixpoint printable (v : Value) : bool :=
  match v with
  | Undefined | Null | Bool _ | Str _ => true
  | Num n => prints_as_written n
  | Arr items =>
      (fix each (l : list Value) : bool :=
         match l with
         | [] => true
         | x :: rest => printable x && each rest
         end) items
  | Obj fields =>
      match lookup "toString" fields with
      | Some _ => false
      | None => true
      end
  end.

(** The numbers binary64 holds without rounding: [q / 2 ^ scale] for an
    integer [q] of at most 53 bits. *)
Definition binary64_exact (n : Number) : bool :=
  (unscaled n mod 5 ^ Z.of_nat (scale n) =? 0)%Z
  && (Z.abs (unscaled n / 5 ^ Z.of_nat (scale n)) <=? 2 ^ 53)%Z
  && (scale n <=? 1000)%nat.

(** The values whose numbers, at any depth, are all held without rounding:
    the engine's value is the model's. *)
Fixpoint exact (v : Value) : bool :=
  match v with
  | Undefined | Null | Bool _ | Str _ => true
  | Num n => binary64_exact n
  | Arr items =>
      (fix each (l : list Value) : bool :=
         match l with
         | [] => true
         | x :: rest => exact x && each rest
         end) items
  | Obj fields =>
      (fix each (l : list (string * Value)) : bool :=
         match l with
         | [] => true
         | (_, x) :: rest => exact x && each rest
         end) fields
  end.

(** ** index2.js *)

Module Index2.
Section Main.

Variable network : string -> Reply.

(** What the program has done so far: the trace of the pipeline, and the
    calls of [console.log], each with the list of its arguments. *)
Record World : Type := mkWorld { requests : Trace; console : list (list Value) }.

Definition IO (A : Type) : Type := World -> Completion A * World.

(** A promise of iss_promised.js, settled in the world of the program. *)
Definition promise {A : Type} (m : M A) : IO A :=
  fun w => let (c, t) := m (requests w) in (c, mkWorld t (console w)).

(** [p.then(f)] *)
Definition then_ {A B : Type} (p : IO A) (f : A -> IO B) : IO B :=
  fun w =>
    match p w with
    | (Normal a, w') => f a w'
    | (Throw e, w') => (Throw e, w')
    end.

(** [p.catch(h)]: [h] runs on the reason [p] is rejected with. *)
Definition catch_ {A : Type} (p : IO A) (h : Exception -> IO A) : IO A :=
  fun w =>
    match p w with
    | (Normal a, w') => (Normal a, w')
    | (Throw e, w') => h e w'
    end.

Definition console_log (args : list Value) : IO unit :=
  fun w => (Normal tt, mkWorld (requests w) (console w ++ [args])%list).

(** [printPassTimes] of ./printTimes, a module that is not among the files:
    any program on the world. *)
Variable printPassTimes : Value -> IO unit.

(** [error.message], as the class of the error sets it. *)
Variable message : Exception -> Value.

(** The program: both handlers return undefined. *)
Definition main : IO unit :=
  catch_
    (then_ (promise (IssPromised.nextISSTimesForMyLocation network))
       (fun passTimes => printPassTimes passTimes))
    (fun error => console_log [Str "It didn't work: "; message error]).

End Main.
End Index2.

(** * Properties *)

Example number_to_string_samples :
  map number_to_string
    [mkNumber 37 0; mkNumber (-122) 0; mkNumber 1000 0; mkNumber 377749 4;
     mkNumber 1 3; mkNumber 0 0; mkNumber 1000000000000000000000 0;
     mkNumber 15 8; mkNumber (-5) 1]
  = ["37"; "-122"; "1000"; "37.7749"; "0.001"; "0"; "1e+21"; "1.5e-7"; "-0.5"].
Proof. vm_compute. reflexivity. Qed.

Example JSON_parse_samples :
  map JSON_parse
    ["null"; " [1, 2.50 ,true,[],{}] "; "1e2"; "-0"; "1.5e-3"; "[[1],[false,null]]";
     quoted "aA\n"; quoted "\u0041\u00e9";
     object [member "a" "1"; member "b" "2"; member "a" "3"]]
  = [Normal Null;
     Normal (Arr [Int 1; Num (mkNumber 25 1); Bool true; Arr []; Obj []]);
     Normal (Int 100);
     Normal (Int 0);
     Normal (Num (mkNumber 15 4));
     Normal (Arr [Arr [Int 1]; Arr [Bool false; Null]]);
     Normal (Str (String "a" (String "A" (String "010" EmptyString))));
     Normal (Str (String "A" (String "195" (String "169" EmptyString))));
     Normal (Obj [("a", Int 3); ("b", Int 2)])].
Proof. vm_compute. reflexivity. Qed.

Example JSON_parse_rejects :
  Forall (fun text => JSON_parse text = Throw (SyntaxError "Unexpected token in JSON"))
    [EmptyString; "01"; "1."; "1e"; "-"; "{} x"; "[1,]"; "[1 2]"; "tru"; "123abc";
     "{a:1}"; object [member "a" "1"] ++ ","; quoted "a\x"; "'a'"; "<html>"; "undefined"].
Proof. repeat constructor. Qed.

Example bodies_parse :
  JSON_parse ip_body = Normal (Obj [("ip", Str "1.2.3.4")])
  /\ JSON_parse geo_body
     = Normal (Obj [("status", Str "success"); ("lat", Int 37); ("lon", Int (-122))])
  /\ JSON_parse pass_body
     = Normal (Obj [("message", Str "success");
                    ("response",
                     Arr [Obj [("risetime", Int 1000); ("duration", Int 600)];
                          Obj [("risetime", Int 2000); ("duration", Int 500)]])]).
Proof. vm_compute. repeat split. Qed.

(** ** The parser: what it reads, and its fuel *)

Lemma skip_whitespace_length (s : string) :
  String.length (skip_whitespace s) <= String.length s.
Proof.
  induction s as [|c s IH]; simpl; [lia|].
  destruct (is_whitespace c); simpl; lia.
Qed.

Lemma next_length (s : string) (c : ascii) (rest : string) :
  next s = Some (c, rest) -> String.length rest < String.length s.
Proof.
  unfold next. pose proof (skip_whitespace_length s) as H.
  destruct (skip_whitespace s) as [|c' r]; [discriminate|].
  intro E. injection E as <- <-. simpl in H. lia.
Qed.

Lemma take_digits_length (s ds after : string) :
  take_digits s = (ds, after) -> String.length after <= String.length s.
Proof.
  revert ds after. induction s as [|c s IH]; simpl; intros ds after E.
  - injection E as <- <-. simpl. lia.
  - destruct (is_digit c).
    + destruct (take_digits s) as [ds' after'] eqn:Es.
      injection E as <- <-. specialize (IH _ _ eq_refl). lia.
    + injection E as <- <-. simpl. lia.
Qed.

Lemma some_digits_length (s ds after : string) :
  some_digits s = Some (ds, after) -> String.length after <= String.length s.
Proof.
  unfold some_digits. destruct (take_digits s) as [ds' after'] eqn:E.
  apply take_digits_length in E.
  destruct ds'; [discriminate|]. intro H. injection H as <- <-. exact E.
Qed.

Lemma parse_fraction_length (s ds after : string) :
  parse_fraction s = Some (ds, after) -> String.length after <= String.length s.
Proof.
  unfold parse_fraction. destruct s as [|c rest]; [intro E; injection E as <- <-; lia|].
  destruct (c =? ".")%char.
  - intro E. apply some_digits_length in E. simpl. lia.
  - intro E. injection E as <- <-. lia.
Qed.

Lemma signed_digits_length (neg : bool) (s : string) (e : Z) (after : string) :
  signed_digits neg s = Some (e, after) -> String.length after <= String.length s.
Proof.
  unfold signed_digits. destruct (some_digits s) as [[ds after0]|] eqn:E; [|discriminate].
  apply some_digits_length in E. intro H. injection H as <- <-. exact E.
Qed.

Lemma parse_exponent_length (s : string) (e : Z) (after : string) :
  parse_exponent s = Some (e, after) -> String.length after <= String.length s.
Proof.
  unfold parse_exponent. destruct s as [|c rest]; [intro E; injection E as <- <-; lia|].
  destruct ((c =? "e") || (c =? "E"))%char.
  - destruct rest as [|sign rest']; [discriminate|].
    destruct (sign =? "+")%char; [|destruct (sign =? "-")%char];
      intro E; apply signed_digits_length in E; simpl in *; lia.
  - intro E. injection E as <- <-. lia.
Qed.

Lemma parse_number_length (s : string) (n : Number) (after : string) :
  parse_number s = Some (n, after) -> String.length after < String.length s.
Proof.
  unfold parse_number.
  set (signed := match s with
                 | String c rest => if (c =? "-")%char then (true, rest) else (false, s)
                 | EmptyString => (false, s)
                 end).
  assert (Hs : String.length (snd signed) <= String.length s).
  { subst signed. destruct s as [|c rest]; simpl; [lia|].
    destruct (c =? "-")%char; simpl; lia. }
  destruct signed as [neg s1]. simpl in Hs.
  destruct s1 as [|c rest]; [discriminate|].
  destruct (is_digit c) eqn:Hd; [|discriminate].
  set (ints := if (c =? "0")%char then (String c EmptyString, rest)
               else take_digits (String c rest)).
  assert (Hi : String.length (snd ints) <= String.length rest).
  { subst ints. destruct (c =? "0")%char; simpl; [lia|].
    rewrite Hd. destruct (take_digits rest) as [ds a] eqn:E.
    apply take_digits_length in E. simpl. exact E. }
  destruct ints as [ds0 s2]. simpl in Hi.
  destruct (parse_fraction s2) as [[fracs s3]|] eqn:Ef; [|discriminate].
  apply parse_fraction_length in Ef.
  destruct (parse_exponent s3) as [[e s4]|] eqn:Ee; [|discriminate].
  apply parse_exponent_length in Ee.
  intro E. injection E as <- <-. simpl in Hs. lia.
Qed.

Lemma parse_chars_length (s cs after : string) :
  parse_chars s = Some (cs, after) -> String.length after < String.length s.
Proof.
  remember (String.length s) as n eqn:Hn.
  assert (Hle : String.length s <= n) by lia. clear Hn.
  revert s cs after Hle. induction n as [|n IH]; intros s cs after Hle.
  - destruct s; [discriminate|simpl in Hle; lia].
  - destruct s as [|c rest]; [discriminate|]. simpl in Hle. cbn [parse_chars].
    destruct (c =? dquote)%char.
    { intro E. injection E as <- <-. simpl. lia. }
    destruct (c =? "\")%char.
    + destruct rest as [|e rest']; [discriminate|]. simpl in Hle.
      destruct (e =? "u")%char.
      * destruct rest' as [|h1 [|h2 [|h3 [|h4 rest'']]]]; try discriminate.
        destruct (hex4 h1 h2 h3 h4); [|discriminate].
        destruct (parse_chars rest'') as [[cs' after']|] eqn:E; [|discriminate].
        apply IH in E; [|simpl in Hle; lia].
        intro H. injection H as <- <-. simpl. lia.
      * destruct (unescape e); [|discriminate].
        destruct (parse_chars rest') as [[cs' after']|] eqn:E; [|discriminate].
        apply IH in E; [|lia].
        intro H. injection H as <- <-. simpl. lia.
    + destruct (nat_of_ascii c <? 32)%nat; [discriminate|].
      destruct (parse_chars rest) as [[cs' after']|] eqn:E; [|discriminate].
      apply IH in E; [|lia].
      intro H. injection H as <- <-. simpl. lia.
Qed.

Lemma strip_prefix_length (p s after : string) :
  strip_prefix p s = Some after -> String.length after <= String.length s.
Proof.
  revert s. induction p as [|a p IH]; intros s; simpl.
  - intro E. injection E as <-. lia.
  - destruct s as [|b s]; [discriminate|].
    destruct (a =? b)%char; [|discriminate].
    intro E. apply IH in E. simpl. lia.
Qed.

Lemma literal_length (word : string) (v v' : Value) (s after : string) :
  word <> EmptyString ->
  literal word v s = Some (v', after) -> String.length after < String.length s.
Proof.
  unfold literal. destruct word as [|a word]; [congruence|]. intros _.
  destruct s as [|b s]; [discriminate|]. simpl.
  destruct (a =? b)%char; [|discriminate].
  destruct (strip_prefix word s) as [after'|] eqn:E; [|discriminate].
  apply strip_prefix_length in E. intro H. injection H as _ <-. lia.
Qed.

(** A production consumes when the productions it refers to do. *)
Section Consumes.
Variable value : string -> option (Value * string).
Variable elements : string -> option (list Value * string).
Variable members : string -> option (list (string * Value) * string).

Lemma value_step_consumes :
  consumes elements -> consumes members -> consumes (value_step elements members).
Proof.
  intros He Hm s v after. unfold value_step.
  destruct (next s) as [[c rest]|] eqn:En; [|discriminate].
  pose proof (next_length _ _ _ En) as Hn.
  destruct (c =? "{")%char.
  { destruct (next rest) as [[c' after']|] eqn:En'; [|discriminate].
    pose proof (next_length _ _ _ En') as Hn'.
    destruct (c' =? "}")%char.
    - intro E. injection E as _ <-. lia.
    - destruct (members rest) as [[ms after'']|] eqn:E; [|discriminate].
      apply Hm in E. intro H. injection H as _ <-. lia. }
  destruct (c =? "[")%char.
  { destruct (next rest) as [[c' after']|] eqn:En'; [|discriminate].
    pose proof (next_length _ _ _ En') as Hn'.
    destruct (c' =? "]")%char.
    - intro E. injection E as _ <-. lia.
    - destruct (elements rest) as [[items after'']|] eqn:E; [|discriminate].
      apply He in E. intro H. injection H as _ <-. lia. }
  assert (Hs : String.length (String c rest) <= String.length s) by (simpl; lia).
  destruct (c =? dquote)%char.
  { destruct (parse_chars rest) as [[cs after']|] eqn:E; [|discriminate].
    apply parse_chars_length in E. intro H. injection H as _ <-. lia. }
  destruct (c =? "t")%char.
  { intro E. apply literal_length in E; [lia|discriminate]. }
  destruct (c =? "f")%char.
  { intro E. apply literal_length in E; [lia|discriminate]. }
  destruct (c =? "n")%char.
  { intro E. apply literal_length in E; [lia|discriminate]. }
  destruct (parse_number (String c rest)) as [[n after']|] eqn:E; [|discriminate].
  apply parse_number_length in E. intro H. injection H as _ <-. lia.
Qed.

Lemma elements_step_consumes :
  consumes value -> consumes elements -> consumes (elements_step value elements).
Proof.
  intros Hv He s vs after. unfold elements_step.
  destruct (value s) as [[v rest]|] eqn:Ev; [|discriminate]. apply Hv in Ev.
  destruct (next rest) as [[c rest']|] eqn:En; [|discriminate].
  apply next_length in En.
  destruct (c =? ",")%char.
  - destruct (elements rest') as [[vs' after']|] eqn:E; [|discriminate].
    apply He in E. intro H. injection H as _ <-. lia.
  - destruct (c =? "]")%char; [|discriminate].
    intro H. injection H as _ <-. lia.
Qed.

Lemma members_step_consumes :
  consumes value -> consumes members -> consumes (members_step value members).
Proof.
  intros Hv Hm s ms after. unfold members_step.
  destruct (next s) as [[c rest]|] eqn:En; [|discriminate]. apply next_length in En.
  destruct (c =? dquote)%char; [|discriminate].
  destruct (parse_chars rest) as [[key rest1]|] eqn:Ec; [|discriminate].
  apply parse_chars_length in Ec.
  destruct (next rest1) as [[c1 rest2]|] eqn:En1; [|discriminate].
  apply next_length in En1.
  destruct (c1 =? ":")%char; [|discriminate].
  destruct (value rest2) as [[v rest3]|] eqn:Ev; [|discriminate]. apply Hv in Ev.
  destruct (next rest3) as [[c3 rest4]|] eqn:En3; [|discriminate].
  apply next_length in En3.
  destruct (c3 =? ",")%char.
  - destruct (members rest4) as [[more after']|] eqn:E; [|discriminate].
    apply Hm in E. intro H. injection H as _ <-. lia.
  - destruct (c3 =? "}")%char; [|discriminate].
    intro H. injection H as _ <-. lia.
Qed.
End Consumes.

Lemma parse_consumes (fuel : nat) :
  consumes (parse_value fuel) /\ consumes (parse_elements fuel)
  /\ consumes (parse_members fuel).
Proof.
  induction fuel as [|fuel (Hv & He & Hm)].
  - repeat split; intros s a after; discriminate.
  - repeat split; cbn [parse_value parse_elements parse_members].
    + now apply value_step_consumes.
    + now apply elements_step_consumes.
    + now apply members_step_consumes.
Qed.

Section Agreement.
Variables value value' : string -> option (Value * string).
Variables elements elements' : string -> option (list Value * string).
Variables members members' : string -> option (list (string * Value) * string).

Lemma value_step_agree (n : nat) :
  agree (n - 1) elements elements' -> agree (n - 1) members members' ->
  agree n (value_step elements members) (value_step elements' members').
Proof.
  intros He Hm s Hs. unfold value_step.
  destruct (next s) as [[c rest]|] eqn:En; [|reflexivity].
  apply next_length in En.
  rewrite (He rest), (Hm rest) by lia. reflexivity.
Qed.

Lemma elements_step_agree (n : nat) :
  consumes value ->
  agree n value value' -> agree (n - 2) elements elements' ->
  agree n (elements_step value elements) (elements_step value' elements').
Proof.
  intros Hc Hv He s Hs. unfold elements_step.
  rewrite <- (Hv s Hs).
  destruct (value s) as [[v rest]|] eqn:Ev; [|reflexivity]. apply Hc in Ev.
  destruct (next rest) as [[c rest']|] eqn:En; [|reflexivity].
  apply next_length in En.
  rewrite (He rest') by lia. reflexivity.
Qed.

Lemma members_step_agree (n : nat) :
  consumes value ->
  agree (n - 1) value value' -> agree (n - 2) members members' ->
  agree n (members_step value members) (members_step value' members').
Proof.
  intros Hc Hv Hm s Hs. unfold members_step.
  destruct (next s) as [[c rest]|] eqn:En; [|reflexivity]. apply next_length in En.
  destruct (c =? dquote)%char; [|reflexivity].
  destruct (parse_chars rest) as [[key rest1]|] eqn:Ec; [|reflexivity].
  apply parse_chars_length in Ec.
  destruct (next rest1) as [[c1 rest2]|] eqn:En1; [|reflexivity].
  apply next_length in En1.
  destruct (c1 =? ":")%char; [|reflexivity].
  rewrite <- (Hv rest2) by lia.
  destruct (value rest2) as [[v rest3]|] eqn:Ev; [|reflexivity]. apply Hc in Ev.
  destruct (next rest3) as [[c3 rest4]|] eqn:En3; [|reflexivity].
  apply next_length in En3.
  rewrite (Hm rest4) by lia. reflexivity.
Qed.
End Agreement.

(** With fuel for the length of the text, one more unit changes nothing. *)
Lemma parse_fuel_stable (fuel : nat) :
  (forall n, 2 * n <= fuel + 1 -> agree n (parse_value fuel) (parse_value (S fuel)))
  /\ (forall n, 2 * n <= fuel -> agree n (parse_elements fuel) (parse_elements (S fuel)))
  /\ (forall n, 2 * n <= fuel -> agree n (parse_members fuel) (parse_members (S fuel))).
Proof.
  induction fuel as [|fuel (Hv & He & Hm)].
  - repeat split; intros n Hn s Hs; lia.
  - destruct (parse_consumes fuel) as (Cv & _ & _).
    repeat split; intros n Hn.
    + change (agree n (value_step (parse_elements fuel) (parse_members fuel))
                (value_step (parse_elements (S fuel)) (parse_members (S fuel)))).
      apply value_step_agree; [apply He | apply Hm]; lia.
    + change (agree n (elements_step (parse_value fuel) (parse_elements fuel))
                (elements_step (parse_value (S fuel)) (parse_elements (S fuel)))).
      apply elements_step_agree; [exact Cv | apply Hv | apply He]; lia.
    + change (agree n (members_step (parse_value fuel) (parse_members fuel))
                (members_step (parse_value (S fuel)) (parse_members (S fuel)))).
      apply members_step_agree; [exact Cv | apply Hv | apply Hm]; lia.
Qed.

(** The fuel [JSON_parse] gives is enough: more fuel parses the same. *)
Lemma parse_value_fuel (text : string) (fuel : nat) :
  2 * String.length text + 2 <= fuel ->
  parse_value fuel text = parse_value (2 * String.length text + 2) text.
Proof.
  intro Hle. induction Hle as [|fuel Hle IH]; [reflexivity|].
  rewrite <- IH. symmetry.
  apply (proj1 (parse_fuel_stable fuel) (S (String.length text))); lia.
Qed.

(** ** Strings and traces *)

Lemma string_app_assoc (a b c : string) : (a ++ b) ++ c = a ++ (b ++ c).
Proof. induction a as [|x a IH]; simpl; [reflexivity | now rewrite IH]. Qed.

Lemma includes_middle (a sub c : string) : includes (a ++ sub ++ c) sub.
Proof. now exists a, c. Qed.

Lemma includes_end (a sub : string) : includes (a ++ sub) sub.
Proof.
  exists a, EmptyString. f_equal.
  induction sub as [|x sub IH]; simpl; [reflexivity | now rewrite <- IH].
Qed.

Lemma includes_app_r (a s sub : string) : includes s sub -> includes (a ++ s) sub.
Proof.
  intros (before & after & ->). exists (a ++ before), after.
  now rewrite string_app_assoc.
Qed.

Lemma call_count_app (s : Stage) (t u : Trace) :
  call_count s (t ++ u)%list = call_count s t + call_count s u.
Proof.
  induction t as [|[s'|url] t IH]; simpl; try assumption; try reflexivity.
  destruct (stage_eqb s' s); simpl; now rewrite IH.
Qed.

(** ** Framing *)

Lemma framed_ret {A : Type} (a : A) : framed (ret a).
Proof. intro t. unfold ret; simpl. now rewrite app_nil_r. Qed.

Lemma framed_throw {A : Type} (e : Exception) : framed (@throw A e).
Proof. intro t. unfold throw; simpl. now rewrite app_nil_r. Qed.

Lemma framed_lift {A : Type} (c : Completion A) : framed (lift c).
Proof. intro t. unfold lift; simpl. now rewrite app_nil_r. Qed.

Lemma framed_emit (ev : Event) : framed (emit ev).
Proof. intro t. reflexivity. Qed.

Lemma framed_bind {A B : Type} (m : M A) (f : A -> M B) :
  framed m -> (forall a, framed (f a)) -> framed (bind m f).
Proof.
  intros Hm Hf t. unfold bind.
  rewrite (Hm t). destruct (m []) as [[a|e] t1] eqn:E; simpl.
  - rewrite (Hf a (t ++ t1)%list), (Hf a t1). simpl.
    now rewrite app_assoc.
  - reflexivity.
Qed.

Lemma framed_observe (error : option Exception) (value : Value) :
  framed (observe error value).
Proof. apply framed_ret. Qed.

Ltac framed_step :=
  first
    [ apply framed_bind; [ | intro ]
    | apply framed_ret | apply framed_throw | apply framed_lift | apply framed_emit
    | match goal with |- framed (match ?x with _ => _ end) => destruct x end
    | match goal with |- framed (if ?b then _ else _) => destruct b end
    | match goal with |- framed (let _ := _ in _) => cbv zeta end
    | match goal with H : forall e v, framed (_ e v) |- _ => apply H end ].

Section Framing.
Variable network : string -> Reply.

Lemma framed_request_cb {R : Type} (url : string) (k : Reply -> M R) :
  (forall reply, framed (k reply)) -> framed (Iss.request network url k).
Proof. intro Hk. unfold Iss.request. repeat framed_step. apply Hk. Qed.

Lemma framed_fetchMyIP {R : Type} (callback : Iss.Callback (R := R)) :
  (forall e v, framed (callback e v)) -> framed (Iss.fetchMyIP network callback).
Proof.
  intro Hk. unfold Iss.fetchMyIP. framed_step; [framed_step|].
  apply framed_request_cb. intro reply. repeat framed_step.
Qed.

Lemma framed_fetchCoordsByIP {R : Type} (ip : Value) (callback : Iss.Callback (R := R)) :
  (forall e v, framed (callback e v)) -> framed (Iss.fetchCoordsByIP network ip callback).
Proof.
  intro Hk. unfold Iss.fetchCoordsByIP. framed_step; [framed_step|].
  apply framed_request_cb. intro reply. repeat framed_step.
Qed.

Lemma framed_fetchISSFlyOverTimes {R : Type} (coords : Value)
  (callback : Iss.Callback (R := R)) :
  (forall e v, framed (callback e v)) ->
  framed (Iss.fetchISSFlyOverTimes network coords callback).
Proof.
  intro Hk. unfold Iss.fetchISSFlyOverTimes.
  do 3 (framed_step; [framed_step|]). cbv zeta.
  apply framed_request_cb. intro reply. repeat framed_step.
Qed.

Lemma framed_nextISSTimesForMyLocation {R : Type} (callback : Iss.Callback (R := R)) :
  (forall e v, framed (callback e v)) ->
  framed (Iss.nextISSTimesForMyLocation network callback).
Proof.
  intro Hk. unfold Iss.nextISSTimesForMyLocation.
  apply framed_fetchMyIP. intros [e|] ip; [apply framed_throw|].
  apply framed_fetchCoordsByIP. intros [e|] coords; [apply framed_throw|].
  apply framed_fetchISSFlyOverTimes. intros [e|] issTimes; [apply framed_throw|].
  apply Hk.
Qed.

Lemma framed_request_promise (url : string) : framed (IssPromised.request network url).
Proof. unfold IssPromised.request. repeat framed_step. Qed.

Lemma framed_promised_fetchMyIP : framed (IssPromised.fetchMyIP network).
Proof.
  unfold IssPromised.fetchMyIP. framed_step; [framed_step|].
  apply framed_request_promise.
Qed.

Lemma framed_promised_fetchCoordsByIP (body : string) :
  framed (IssPromised.fetchCoordsByIP network body).
Proof.
  unfold IssPromised.fetchCoordsByIP.
  do 3 (framed_step; [framed_step|]). apply framed_request_promise.
Qed.

Lemma framed_promised_fetchISSFlyOverTimes (body : string) :
  framed (IssPromised.fetchISSFlyOverTimes network body).
Proof.
  unfold IssPromised.fetchISSFlyOverTimes.
  do 4 (framed_step; [framed_step|]). apply framed_request_promise.
Qed.

Lemma framed_promised_nextISSTimesForMyLocation :
  framed (IssPromised.nextISSTimesForMyLocation network).
Proof.
  unfold IssPromised.nextISSTimesForMyLocation, IssPromised.then_.
  apply framed_bind; [apply framed_bind; [apply framed_bind|]|].
  - apply framed_promised_fetchMyIP.
  - apply framed_promised_fetchCoordsByIP.
  - apply framed_promised_fetchISSFlyOverTimes.
  - intro data. repeat framed_step.
Qed.
End Framing.

(** ** Running the stages *)

Ltac unfold_run :=
  unfold Iss.fetchMyIP, Iss.fetchCoordsByIP, Iss.fetchISSFlyOverTimes, Iss.request,
    IssPromised.fetchMyIP, IssPromised.fetchCoordsByIP,
    IssPromised.fetchISSFlyOverTimes, IssPromised.request, IssPromised.then_,
    bind, emit, lift, ret, throw, ip_url, geo_url, pass_url in *.

Ltac trace_norm := rewrite <- ?app_assoc; cbn [app].

Lemma get_defined (data : Value) (key : string) (v : Value) :
  get data key = Normal v -> forall key', exists v', get data key' = Normal v'.
Proof. destruct data; simpl; intros H key'; try discriminate; eauto. Qed.

Lemma get_absent (data : Value) (key : string) (v : Value) :
  get data key = Normal v -> has_own_property data key = false -> v = Undefined.
Proof.
  destruct data; simpl; intros H Hown; try congruence.
  destruct (lookup key fields); congruence.
Qed.

Lemma strict_equals_string_neq (v : Value) (s : string) :
  v <> Str s -> strict_equals_string v s = false.
Proof.
  destruct v; simpl; try reflexivity.
  intro H. apply String.eqb_neq. congruence.
Qed.

Section Success.
Variable network : string -> Reply.

Lemma fetchMyIP_success {R : Type} (callback : Iss.Callback (R := R)) (t : Trace)
  (body : string) (data ip : Value) :
  network ip_url = Answered 200 body ->
  JSON_parse body = Normal data ->
  get data "ip" = Normal ip ->
  Iss.fetchMyIP network callback t
  = callback None ip (t ++ [Invoked FetchMyIP; Requested ip_url])%list.
Proof.
  intros Hnet Hparse Hip. unfold_run. rewrite Hnet. cbn [N.eqb Pos.eqb negb].
  rewrite Hparse, Hip. trace_norm. reflexivity.
Qed.

Lemma fetchCoordsByIP_success {R : Type} (callback : Iss.Callback (R := R)) (t : Trace)
  (ip : Value) (body : string) (data status lat lon : Value) :
  network (geo_url ip) = Answered 200 body ->
  JSON_parse body = Normal data ->
  get data "status" = Normal status ->
  strict_equals_string status "fail" = false ->
  get data "lat" = Normal lat ->
  get data "lon" = Normal lon ->
  Iss.fetchCoordsByIP network ip callback t
  = callback None (Obj [("lat", lat); ("lon", lon)])
      (t ++ [Invoked FetchCoordsByIP; Requested (geo_url ip)])%list.
Proof.
  intros Hnet Hparse Hstatus Hne Hlat Hlon.
  unfold_run. rewrite Hnet. cbn [N.eqb Pos.eqb negb].
  rewrite Hparse, Hstatus, Hne, Hlat, Hlon. trace_norm. reflexivity.
Qed.

Lemma fetchISSFlyOverTimes_success {R : Type} (callback : Iss.Callback (R := R))
  (t : Trace) (coords lat lon : Value) (body : string) (data message response : Value) :
  get coords "lat" = Normal lat ->
  get coords "lon" = Normal lon ->
  network (pass_url lat lon) = Answered 200 body ->
  JSON_parse body = Normal data ->
  get data "message" = Normal message ->
  strict_equals_string message "failure" = false ->
  get data "response" = Normal response ->
  Iss.fetchISSFlyOverTimes network coords callback t
  = callback None response
      (t ++ [Invoked FetchISSFlyOverTimes; Requested (pass_url lat lon)])%list.
Proof.
  intros Hlat Hlon Hnet Hparse Hmessage Hne Hresponse.
  unfold_run. rewrite Hlat, Hlon. cbv zeta. rewrite Hnet. cbn [N.eqb Pos.eqb negb].
  rewrite Hparse, Hmessage, Hne, Hresponse. trace_norm. reflexivity.
Qed.

Lemma promised_fetchMyIP_success (t : Trace) (body : string) :
  network ip_url = Answered 200 body ->
  IssPromised.fetchMyIP network t
  = (Normal body, (t ++ [Invoked FetchMyIP; Requested ip_url])%list).
Proof. intro Hnet. unfold_run. rewrite Hnet. trace_norm. reflexivity. Qed.

Lemma promised_fetchCoordsByIP_success (t : Trace) (body : string) (data ip : Value)
  (reply : string) :
  JSON_parse body = Normal data ->
  get data "ip" = Normal ip ->
  network (geo_url ip) = Answered 200 reply ->
  IssPromised.fetchCoordsByIP network body t
  = (Normal reply, (t ++ [Invoked FetchCoordsByIP; Requested (geo_url ip)])%list).
Proof.
  intros Hparse Hip Hnet. unfold_run. rewrite Hparse, Hip, Hnet.
  trace_norm. reflexivity.
Qed.

Lemma promised_fetchISSFlyOverTimes_success (t : Trace) (body : string)
  (data lat lon : Value) (reply : string) :
  JSON_parse body = Normal data ->
  get data "lat" = Normal lat ->
  get data "lon" = Normal lon ->
  network (pass_url lat lon) = Answered 200 reply ->
  IssPromised.fetchISSFlyOverTimes network body t
  = (Normal reply,
     (t ++ [Invoked FetchISSFlyOverTimes; Requested (pass_url lat lon)])%list).
Proof.
  intros Hparse Hlat Hlon Hnet. unfold_run. rewrite Hparse, Hlat, Hlon. cbv zeta.
  rewrite Hnet. trace_norm. reflexivity.
Qed.
End Success.

Section Stages.
Variable network : string -> Reply.

Lemma fetchMyIP_resume {R : Type} (callback : Iss.Callback (R := R)) (t : Trace) :
  Iss.fetchMyIP network callback t = resume callback (Iss.fetchMyIP network observe t).
Proof.
  unfold_run. destruct (network _) as [err|statusCode body]; [reflexivity|].
  destruct (negb _); [reflexivity|].
  destruct (JSON_parse body) as [data|e]; [|reflexivity].
  destruct (get data "ip"); reflexivity.
Qed.

Lemma fetchCoordsByIP_resume {R : Type} (callback : Iss.Callback (R := R))
  (ip : Value) (t : Trace) :
  Iss.fetchCoordsByIP network ip callback t
  = resume callback (Iss.fetchCoordsByIP network ip observe t).
Proof.
  unfold_run. destruct (network _) as [err|statusCode body]; [reflexivity|].
  destruct (negb _); [reflexivity|].
  destruct (JSON_parse body) as [data|e]; [|reflexivity].
  destruct (get data "status") as [status|e]; [|reflexivity].
  destruct (strict_equals_string status "fail"); [reflexivity|].
  destruct (get data "lat"); [|reflexivity].
  destruct (get data "lon"); reflexivity.
Qed.

Lemma fetchISSFlyOverTimes_resume {R : Type} (callback : Iss.Callback (R := R))
  (coords : Value) (t : Trace) :
  Iss.fetchISSFlyOverTimes network coords callback t
  = resume callback (Iss.fetchISSFlyOverTimes network coords observe t).
Proof.
  unfold_run. destruct (get coords "lat"); [|reflexivity].
  destruct (get coords "lon"); [|reflexivity]. cbv zeta.
  destruct (network _) as [err|statusCode body]; [reflexivity|].
  destruct (negb _); [reflexivity|].
  destruct (JSON_parse body) as [data|e]; [|reflexivity].
  destruct (get data "message") as [message|e]; [|reflexivity].
  destruct (strict_equals_string message "failure"); [reflexivity|].
  destruct (get data "response"); reflexivity.
Qed.

(** The callback of the pipeline is only ever applied to a null error. *)
Lemma nextISSTimesForMyLocation_resume {R : Type} (callback : Iss.Callback (R := R))
  (t : Trace) :
  Iss.nextISSTimesForMyLocation network callback t
  = resume callback (Iss.nextISSTimesForMyLocation network observe t).
Proof.
  unfold Iss.nextISSTimesForMyLocation.
  match goal with
  | |- Iss.fetchMyIP _ ?k1 _ = resume _ (Iss.fetchMyIP _ ?k2 _) =>
      rewrite (fetchMyIP_resume k1 t), (fetchMyIP_resume k2 t)
  end.
  destruct (Iss.fetchMyIP network observe t) as [[[[e|] ip]|e] t1]; try reflexivity.
  cbn [resume].
  match goal with
  | |- Iss.fetchCoordsByIP _ _ ?k1 _ = resume _ (Iss.fetchCoordsByIP _ _ ?k2 _) =>
      rewrite (fetchCoordsByIP_resume k1 ip t1), (fetchCoordsByIP_resume k2 ip t1)
  end.
  destruct (Iss.fetchCoordsByIP network ip observe t1) as [[[[e|] coords]|e] t2];
    try reflexivity.
  cbn [resume].
  match goal with
  | |- Iss.fetchISSFlyOverTimes _ _ ?k1 _
       = resume _ (Iss.fetchISSFlyOverTimes _ _ ?k2 _) =>
      rewrite (fetchISSFlyOverTimes_resume k1 coords t2),
        (fetchISSFlyOverTimes_resume k2 coords t2)
  end.
  destruct (Iss.fetchISSFlyOverTimes network coords observe t2)
    as [[[[e|] issTimes]|e] t3]; reflexivity.
Qed.
End Stages.

Section Traces.
Variable network : string -> Reply.

Lemma trace_fetchMyIP (t : Trace) :
  trace (Iss.fetchMyIP network observe t)
  = (t ++ [Invoked FetchMyIP; Requested ip_url])%list.
Proof.
  unfold_run. destruct (network _) as [err|statusCode body]; [trace_norm; reflexivity|].
  destruct (negb _); [trace_norm; reflexivity|].
  destruct (JSON_parse body) as [data|e]; [|trace_norm; reflexivity].
  destruct (get data "ip"); trace_norm; reflexivity.
Qed.

Lemma trace_fetchCoordsByIP (ip : Value) (t : Trace) :
  trace (Iss.fetchCoordsByIP network ip observe t)
  = (t ++ [Invoked FetchCoordsByIP; Requested (geo_url ip)])%list.
Proof.
  unfold_run. destruct (network _) as [err|statusCode body]; [trace_norm; reflexivity|].
  destruct (negb _); [trace_norm; reflexivity|].
  destruct (JSON_parse body) as [data|e]; [|trace_norm; reflexivity].
  destruct (get data "status") as [status|e]; [|trace_norm; reflexivity].
  destruct (strict_equals_string status "fail"); [trace_norm; reflexivity|].
  destruct (get data "lat"); [|trace_norm; reflexivity].
  destruct (get data "lon"); trace_norm; reflexivity.
Qed.

Lemma trace_promised_fetchMyIP (t : Trace) :
  trace (IssPromised.fetchMyIP network t)
  = (t ++ [Invoked FetchMyIP; Requested ip_url])%list.
Proof.
  unfold_run. destruct (network _) as [err|statusCode body]; [trace_norm; reflexivity|].
  destruct (IssPromised.is2xx statusCode); trace_norm; reflexivity.
Qed.

Lemma call_count_promised_fetchCoordsByIP (body : string) (t : Trace) :
  call_count FetchISSFlyOverTimes (trace (IssPromised.fetchCoordsByIP network body t))
  = call_count FetchISSFlyOverTimes t.
Proof.
  unfold_run.
  destruct (JSON_parse body) as [data|e]; [|cbn [trace snd]; rewrite call_count_app;
                                             simpl; lia].
  destruct (get data "ip") as [ip|e]; [|cbn [trace snd]; rewrite call_count_app;
                                         simpl; lia].
  destruct (network _) as [err|statusCode reply];
    [|destruct (IssPromised.is2xx statusCode)];
    cbn [trace snd]; rewrite !call_count_app; simpl; lia.
Qed.
End Traces.

Lemma outcome_trace {A : Type} (r : Completion A * Trace) : r = (outcome r, trace r).
Proof. now destruct r. Qed.

Section Runs.
Variable network : string -> Reply.

Lemma fetchMyIP_observe_run (t : Trace) :
  Iss.fetchMyIP network observe t
  = (outcome (Iss.fetchMyIP network observe []),
     (t ++ [Invoked FetchMyIP; Requested ip_url])%list).
Proof.
  rewrite (framed_fetchMyIP network observe framed_observe t).
  now rewrite trace_fetchMyIP.
Qed.

Lemma fetchCoordsByIP_observe_run (ip : Value) (t : Trace) :
  Iss.fetchCoordsByIP network ip observe t
  = (outcome (Iss.fetchCoordsByIP network ip observe []),
     (t ++ [Invoked FetchCoordsByIP; Requested (geo_url ip)])%list).
Proof.
  rewrite (framed_fetchCoordsByIP network ip observe framed_observe t).
  now rewrite trace_fetchCoordsByIP.
Qed.

Lemma promised_fetchMyIP_run (t : Trace) :
  IssPromised.fetchMyIP network t
  = (outcome (IssPromised.fetchMyIP network []),
     (t ++ [Invoked FetchMyIP; Requested ip_url])%list).
Proof.
  rewrite (framed_promised_fetchMyIP network t).
  now rewrite trace_promised_fetchMyIP.
Qed.
End Runs.

(** ** The resolvers *)

(** C7. For a 200 reply of the IP-echo service whose body is JSON with a
    string [ip] field, fetchMyIP of iss.js hands its callback a null error and
    exactly that string; in iss_promised.js fetchMyIP is fulfilled with the
    body and fetchCoordsByIP reads the same string out of it, unchanged, as
    the address it requests the coordinates of. *)
Theorem fetchMyIP_returns_ip_field
  (network : string -> Reply) (body : string) (data : Value) (ip : string) :
  network ip_url = Answered 200 body ->
  JSON_parse body = Normal data ->
  get data "ip" = Normal (Str ip) ->
  (forall (R : Type) (callback : Iss.Callback (R := R)) (t : Trace),
      Iss.fetchMyIP network callback t
      = callback None (Str ip) (t ++ [Invoked FetchMyIP; Requested ip_url])%list)
  /\ (forall t : Trace,
         IssPromised.fetchMyIP network t
         = (Normal body, (t ++ [Invoked FetchMyIP; Requested ip_url])%list)
         /\ IssPromised.fetchCoordsByIP network body t
            = IssPromised.request network ("http://ip-api.com/json/" ++ ip)
                (t ++ [Invoked FetchCoordsByIP])%list).
Proof.
  intros Hnet Hparse Hip. split; [intros R callback t | intro t; split].
  - now apply fetchMyIP_success with body data.
  - now apply promised_fetchMyIP_success.
  - unfold IssPromised.fetchCoordsByIP, bind, emit, lift.
    rewrite Hparse, Hip. reflexivity.
Qed.

Lemma fetchMyIP_returns_ip_field_witness :
  sample_network ip_url = Answered 200 ip_body
  /\ JSON_parse ip_body = Normal (Obj [("ip", Str "1.2.3.4")])
  /\ get (Obj [("ip", Str "1.2.3.4")]) "ip" = Normal (Str "1.2.3.4")
  /\ (forall (R : Type) (callback : Iss.Callback (R := R)) (t : Trace),
         Iss.fetchMyIP sample_network callback t
         = callback None (Str "1.2.3.4") (t ++ [Invoked FetchMyIP; Requested ip_url])%list)
  /\ (forall t : Trace,
         IssPromised.fetchMyIP sample_network t
         = (Normal ip_body, (t ++ [Invoked FetchMyIP; Requested ip_url])%list)
         /\ IssPromised.fetchCoordsByIP sample_network ip_body t
            = IssPromised.request sample_network "http://ip-api.com/json/1.2.3.4"
                (t ++ [Invoked FetchCoordsByIP])%list).
Proof.
  split; [reflexivity|]. split; [vm_compute; reflexivity|]. split; [reflexivity|].
  apply (fetchMyIP_returns_ip_field sample_network ip_body
           (Obj [("ip", Str "1.2.3.4")]) "1.2.3.4");
    vm_compute; reflexivity.
Defined.

(** C8. A reply with a status other than 200 makes each of the three
    resolvers of iss.js hand its callback an Error and a null value; the
    message of the Error is the template of that resolver filled with the
    decimal status code and the body, so it includes both. *)
Theorem non_200_status_reported_with_code_and_body
  (network : string -> Reply) (statusCode : N) (body : string)
  (R : Type) (callback : Iss.Callback (R := R)) (t : Trace) :
  statusCode <> 200%N ->
  (network ip_url = Answered statusCode body ->
   exists msg,
     Iss.fetchMyIP network callback t
     = callback (Some (Error msg)) Null (t ++ [Invoked FetchMyIP; Requested ip_url])%list
     /\ msg = "Status Code " ++ decimal_of_N statusCode
              ++ " when fetching IP. Response: " ++ body
     /\ includes msg (decimal_of_N statusCode) /\ includes msg body)
  /\ (forall ip : Value,
         network (geo_url ip) = Answered statusCode body ->
         exists msg,
           Iss.fetchCoordsByIP network ip callback t
           = callback (Some (Error msg)) Null
               (t ++ [Invoked FetchCoordsByIP; Requested (geo_url ip)])%list
           /\ msg = "Status Code " ++ decimal_of_N statusCode
                    ++ " when fetching coordinates. Response: " ++ body
           /\ includes msg (decimal_of_N statusCode) /\ includes msg body)
  /\ (forall coords lat lon : Value,
         get coords "lat" = Normal lat ->
         get coords "lon" = Normal lon ->
         network (pass_url lat lon) = Answered statusCode body ->
         exists msg,
           Iss.fetchISSFlyOverTimes network coords callback t
           = callback (Some (Error msg)) Null
               (t ++ [Invoked FetchISSFlyOverTimes; Requested (pass_url lat lon)])%list
           /\ msg = "Status Code " ++ decimal_of_N statusCode
                    ++ " when fetching iss data. Response: " ++ body
           /\ includes msg (decimal_of_N statusCode) /\ includes msg body).
Proof.
  intro Hcode. apply N.eqb_neq in Hcode.
  assert (Hinc : forall what : string,
             let msg := "Status Code " ++ decimal_of_N statusCode ++ what ++ body in
             includes msg (decimal_of_N statusCode) /\ includes msg body).
  { intro what. split.
    - apply includes_middle.
    - do 2 apply includes_app_r. apply includes_end. }
  split; [|split].
  - intro Hnet. eexists. split; [|split; [reflexivity|apply Hinc]].
    unfold_run. rewrite Hnet, Hcode. trace_norm. reflexivity.
  - intros ip Hnet. eexists. split; [|split; [reflexivity|apply Hinc]].
    unfold_run. rewrite Hnet, Hcode. trace_norm. reflexivity.
  - intros coords lat lon Hlat Hlon Hnet.
    eexists. split; [|split; [reflexivity|apply Hinc]].
    unfold_run. rewrite Hlat, Hlon. cbv zeta. rewrite Hnet, Hcode. trace_norm. reflexivity.
Qed.

Lemma non_200_status_reported_with_code_and_body_witness :
  let network := serve (Answered 404 "Not Found") (Answered 404 "Not Found")
                   (Answered 404 "Not Found") in
  404%N <> 200%N
  /\ Iss.fetchMyIP network observe []
     = (Normal (Some (Error "Status Code 404 when fetching IP. Response: Not Found"), Null),
        [Invoked FetchMyIP; Requested ip_url])
  /\ Iss.fetchCoordsByIP network (Str "1.2.3.4") observe []
     = (Normal (Some (Error "Status Code 404 when fetching coordinates. Response: Not Found"),
                Null),
        [Invoked FetchCoordsByIP; Requested "http://ip-api.com/json/1.2.3.4"])
  /\ Iss.fetchISSFlyOverTimes network (Obj [("lat", Int 37); ("lon", Int (-122))]) observe []
     = (Normal (Some (Error "Status Code 404 when fetching iss data. Response: Not Found"),
                Null),
        [Invoked FetchISSFlyOverTimes;
         Requested "http://api.open-notify.org/iss-pass.json?lat=37&lon=-122&n=5"]).
Proof.
  intro network.
  assert (Hne : 404%N <> 200%N) by discriminate.
  destruct (non_200_status_reported_with_code_and_body network 404 "Not Found"
              _ observe [] Hne) as (Hip & Hgeo & Hpass).
  split; [exact Hne|]. split; [|split].
  - destruct (Hip eq_refl) as (msg & Hrun & Hmsg & _).
    rewrite Hrun, Hmsg. reflexivity.
  - destruct (Hgeo (Str "1.2.3.4") eq_refl) as (msg & Hrun & Hmsg & _).
    rewrite Hrun, Hmsg. reflexivity.
  - destruct (Hpass (Obj [("lat", Int 37); ("lon", Int (-122))]) (Int 37) (Int (-122))
                eq_refl eq_refl eq_refl) as (msg & Hrun & Hmsg & _).
    rewrite Hrun, Hmsg. reflexivity.
Defined.

(** C10. For a 200 reply of the geolocation service whose body is JSON with
    a [status] other than the string fail, fetchCoordsByIP of iss.js hands its
    callback a null error and the object of [data.lat] and [data.lon],
    whatever they are: a field the body does not have is undefined there, and
    no error is reported for it. *)
Theorem fetchCoordsByIP_succeeds_without_coordinates
  (network : string -> Reply) (ip : Value) (body : string) (data status : Value)
  (R : Type) (callback : Iss.Callback (R := R)) (t : Trace) :
  network (geo_url ip) = Answered 200 body ->
  JSON_parse body = Normal data ->
  get data "status" = Normal status ->
  status <> Str "fail" ->
  exists lat lon,
    Iss.fetchCoordsByIP network ip callback t
    = callback None (Obj [("lat", lat); ("lon", lon)])
        (t ++ [Invoked FetchCoordsByIP; Requested (geo_url ip)])%list
    /\ get data "lat" = Normal lat
    /\ get data "lon" = Normal lon
    /\ (has_own_property data "lat" = false -> lat = Undefined)
    /\ (has_own_property data "lon" = false -> lon = Undefined).
Proof.
  intros Hnet Hparse Hstatus Hne.
  destruct (get_defined _ _ _ Hstatus "lat") as [lat Hlat].
  destruct (get_defined _ _ _ Hstatus "lon") as [lon Hlon].
  exists lat, lon. split; [|split; [assumption|split; [assumption|split]]].
  - apply fetchCoordsByIP_success with body data status; try assumption.
    now apply strict_equals_string_neq.
  - now apply get_absent.
  - now apply get_absent.
Qed.

Lemma fetchCoordsByIP_succeeds_without_coordinates_witness :
  let network := serve (Answered 200 ip_body) (Answered 200 geo_body_without_coordinates)
                   (Answered 200 pass_body) in
  let data := Obj [("status", Str "success")] in
  network (geo_url (Str "1.2.3.4")) = Answered 200 geo_body_without_coordinates
  /\ JSON_parse geo_body_without_coordinates = Normal data
  /\ get data "status" = Normal (Str "success")
  /\ Str "success" <> Str "fail"
  /\ Iss.fetchCoordsByIP network (Str "1.2.3.4") observe []
     = (Normal (None, Obj [("lat", Undefined); ("lon", Undefined)]),
        [Invoked FetchCoordsByIP; Requested "http://ip-api.com/json/1.2.3.4"]).
Proof.
  intros network data.
  assert (Hnet : network (geo_url (Str "1.2.3.4"))
                 = Answered 200 geo_body_without_coordinates) by reflexivity.
  assert (Hparse : JSON_parse geo_body_without_coordinates = Normal data)
    by (vm_compute; reflexivity).
  assert (Hstatus : get data "status" = Normal (Str "success")) by reflexivity.
  assert (Hne : Str "success" <> Str "fail") by discriminate.
  repeat (split; [assumption|]).
  destruct (fetchCoordsByIP_succeeds_without_coordinates network (Str "1.2.3.4")
              geo_body_without_coordinates data (Str "success") _ observe []
              Hnet Hparse Hstatus Hne)
    as (lat & lon & Hrun & _ & _ & Hlat & Hlon).
  rewrite Hrun, (Hlat eq_refl), (Hlon eq_refl). reflexivity.
Defined.

(** ** Failure reported by the service in a 200 reply *)

(** C4, as stated, fails on iss_promised.js: with the geolocation service
    answering 200 and a body whose [status] is fail, fetchCoordsByIP is
    fulfilled with that body; it is not rejected. *)
Lemma promised_fetchCoordsByIP_fulfilled_on_status_fail :
  let network := serve (Answered 200 ip_body) (Answered 200 geo_fail_body)
                   (Answered 200 pass_body) in
  JSON_parse geo_fail_body
  = Normal (Obj [("status", Str "fail"); ("message", Str "invalid query")])
  /\ IssPromised.fetchCoordsByIP network ip_body []
     = (Normal geo_fail_body,
        [Invoked FetchCoordsByIP; Requested "http://ip-api.com/json/1.2.3.4"])
  /\ ~ rejected (IssPromised.fetchCoordsByIP network ip_body []).
Proof.
  intro network.
  assert (Hrun : IssPromised.fetchCoordsByIP network ip_body []
                 = (Normal geo_fail_body,
                    [Invoked FetchCoordsByIP; Requested "http://ip-api.com/json/1.2.3.4"]))
    by (vm_compute; reflexivity).
  split; [vm_compute; reflexivity|]. split; [exact Hrun|].
  unfold rejected. rewrite Hrun. simpl. tauto.
Qed.

(** C4, amended. For a 200 reply of the geolocation service whose body is
    JSON with [status] equal to fail, fetchCoordsByIP of iss.js hands its
    callback an Error whose message ends with the body, and a null value in
    place of the coordinates; fetchCoordsByIP of iss_promised.js does not look
    at [status] and is fulfilled with the body. *)
Theorem status_fail_is_an_error_in_iss_js_only
  (network : string -> Reply) (body : string) (data : Value) :
  JSON_parse body = Normal data ->
  get data "status" = Normal (Str "fail") ->
  (forall (ip : Value) (R : Type) (callback : Iss.Callback (R := R)) (t : Trace),
      network (geo_url ip) = Answered 200 body ->
      exists msg,
        Iss.fetchCoordsByIP network ip callback t
        = callback (Some (Error msg)) Null
            (t ++ [Invoked FetchCoordsByIP; Requested (geo_url ip)])%list
        /\ msg = "Coordinates api returned status fail. Response: " ++ body
        /\ includes msg body)
  /\ (forall (ipBody : string) (ipData ip : Value) (t : Trace),
         JSON_parse ipBody = Normal ipData ->
         get ipData "ip" = Normal ip ->
         network (geo_url ip) = Answered 200 body ->
         IssPromised.fetchCoordsByIP network ipBody t
         = (Normal body, (t ++ [Invoked FetchCoordsByIP; Requested (geo_url ip)])%list)).
Proof.
  intros Hparse Hstatus. split.
  - intros ip R callback t Hnet. eexists. split; [|split; [reflexivity|]].
    + unfold_run. rewrite Hnet. cbn [N.eqb Pos.eqb negb].
      rewrite Hparse, Hstatus. cbn [strict_equals_string].
      rewrite String.eqb_refl. trace_norm. reflexivity.
    + apply includes_end.
  - intros ipBody ipData ip t HipParse Hip Hnet.
    unfold_run. rewrite HipParse, Hip, Hnet. trace_norm. reflexivity.
Qed.

Lemma status_fail_is_an_error_in_iss_js_only_witness :
  let network := serve (Answered 200 ip_body) (Answered 200 geo_fail_body)
                   (Answered 200 pass_body) in
  let data := Obj [("status", Str "fail"); ("message", Str "invalid query")] in
  JSON_parse geo_fail_body = Normal data
  /\ get data "status" = Normal (Str "fail")
  /\ Iss.fetchCoordsByIP network (Str "1.2.3.4") observe []
     = (Normal (Some (Error ("Coordinates api returned status fail. Response: "
                             ++ geo_fail_body)), Null),
        [Invoked FetchCoordsByIP; Requested "http://ip-api.com/json/1.2.3.4"])
  /\ IssPromised.fetchCoordsByIP network ip_body []
     = (Normal geo_fail_body,
        [Invoked FetchCoordsByIP; Requested "http://ip-api.com/json/1.2.3.4"]).
Proof.
  intros network data.
  assert (Hparse : JSON_parse geo_fail_body = Normal data) by (vm_compute; reflexivity).
  assert (Hstatus : get data "status" = Normal (Str "fail")) by reflexivity.
  destruct (status_fail_is_an_error_in_iss_js_only network geo_fail_body data
              Hparse Hstatus) as (Hcb & Hpromise).
  repeat (split; [assumption|]). split.
  - destruct (Hcb (Str "1.2.3.4") _ observe [] eq_refl) as (msg & Hrun & Hmsg & _).
    rewrite Hrun, Hmsg. reflexivity.
  - apply (Hpromise ip_body (Obj [("ip", Str "1.2.3.4")]) (Str "1.2.3.4") []);
      vm_compute; reflexivity.
Defined.

(** C5, as stated, fails on iss_promised.js: with the pass-time service
    answering 200 and a body whose [message] is failure, the pipeline is
    fulfilled (with undefined, the body having no [response]); it is not
    rejected. *)
Lemma promised_pipeline_fulfilled_on_message_failure :
  let network := serve (Answered 200 ip_body) (Answered 200 geo_body)
                   (Answered 200 pass_fail_body) in
  JSON_parse pass_fail_body
  = Normal (Obj [("message", Str "failure"); ("reason", Str "bad coordinates")])
  /\ IssPromised.fetchISSFlyOverTimes network geo_body []
     = (Normal pass_fail_body,
        [Invoked FetchISSFlyOverTimes;
         Requested "http://api.open-notify.org/iss-pass.json?lat=37&lon=-122&n=5"])
  /\ outcome (IssPromised.nextISSTimesForMyLocation network []) = Normal Undefined
  /\ ~ rejected (IssPromised.nextISSTimesForMyLocation network []).
Proof.
  intro network.
  assert (Hrun : outcome (IssPromised.nextISSTimesForMyLocation network [])
                 = Normal Undefined) by (vm_compute; reflexivity).
  split; [vm_compute; reflexivity|]. split; [vm_compute; reflexivity|].
  split; [exact Hrun|].
  unfold rejected. rewrite Hrun. tauto.
Qed.

(** C5, amended. For a 200 reply of the pass-time service whose body is JSON
    with [message] equal to failure, fetchISSFlyOverTimes of iss.js hands its
    callback an Error whose message ends with the body, and a null value in
    place of the passes; iss_promised.js does not look at [message]: once the
    three requests are fulfilled, the last with that body, the pipeline is
    fulfilled with [data.response]. *)
Theorem message_failure_is_an_error_in_iss_js_only
  (network : string -> Reply) (body : string) (data : Value) :
  JSON_parse body = Normal data ->
  get data "message" = Normal (Str "failure") ->
  (forall (coords lat lon : Value) (R : Type) (callback : Iss.Callback (R := R))
          (t : Trace),
      get coords "lat" = Normal lat ->
      get coords "lon" = Normal lon ->
      network (pass_url lat lon) = Answered 200 body ->
      exists msg,
        Iss.fetchISSFlyOverTimes network coords callback t
        = callback (Some (Error msg)) Null
            (t ++ [Invoked FetchISSFlyOverTimes; Requested (pass_url lat lon)])%list
        /\ msg = "ISS api returned status fail. Response: " ++ body
        /\ includes msg body)
  /\ (forall t t' : Trace,
         IssPromised.then_
           (IssPromised.then_ (IssPromised.fetchMyIP network)
              (IssPromised.fetchCoordsByIP network))
           (IssPromised.fetchISSFlyOverTimes network) t
         = (Normal body, t') ->
         exists response,
           get data "response" = Normal response
           /\ IssPromised.nextISSTimesForMyLocation network t = (Normal response, t')).
Proof.
  intros Hparse Hmessage. split.
  - intros coords lat lon R callback t Hlat Hlon Hnet.
    eexists. split; [|split; [reflexivity|]].
    + unfold_run. rewrite Hlat, Hlon. cbv zeta. rewrite Hnet.
      cbn [N.eqb Pos.eqb negb]. rewrite Hparse, Hmessage.
      cbn [strict_equals_string]. rewrite String.eqb_refl. trace_norm. reflexivity.
    + apply includes_end.
  - intros t t' Hchain.
    destruct (get_defined _ _ _ Hmessage "response") as [response Hresponse].
    exists response. split; [assumption|].
    unfold IssPromised.nextISSTimesForMyLocation.
    unfold IssPromised.then_ at 1. unfold bind at 1. rewrite Hchain.
    unfold bind, lift, ret. rewrite Hparse, Hresponse. reflexivity.
Qed.

Lemma message_failure_is_an_error_in_iss_js_only_witness :
  let network := serve (Answered 200 ip_body) (Answered 200 geo_body)
                   (Answered 200 pass_fail_body) in
  let data := Obj [("message", Str "failure"); ("reason", Str "bad coordinates")] in
  JSON_parse pass_fail_body = Normal data
  /\ get data "message" = Normal (Str "failure")
  /\ Iss.fetchISSFlyOverTimes network (Obj [("lat", Int 37); ("lon", Int (-122))]) observe []
     = (Normal (Some (Error ("ISS api returned status fail. Response: " ++ pass_fail_body)),
                Null),
        [Invoked FetchISSFlyOverTimes;
         Requested "http://api.open-notify.org/iss-pass.json?lat=37&lon=-122&n=5"])
  /\ outcome (IssPromised.nextISSTimesForMyLocation network []) = Normal Undefined.
Proof.
  intros network data.
  assert (Hparse : JSON_parse pass_fail_body = Normal data) by (vm_compute; reflexivity).
  assert (Hmessage : get data "message" = Normal (Str "failure")) by reflexivity.
  destruct (message_failure_is_an_error_in_iss_js_only network pass_fail_body data
              Hparse Hmessage) as (Hcb & Hpromise).
  repeat (split; [assumption|]). split.
  - destruct (Hcb (Obj [("lat", Int 37); ("lon", Int (-122))]) (Int 37) (Int (-122))
                _ observe [] eq_refl eq_refl eq_refl) as (msg & Hrun & Hmsg & _).
    rewrite Hrun, Hmsg. reflexivity.
  - destruct (Hpromise []
                [Invoked FetchMyIP; Requested ip_url;
                 Invoked FetchCoordsByIP; Requested "http://ip-api.com/json/1.2.3.4";
                 Invoked FetchISSFlyOverTimes;
                 Requested "http://api.open-notify.org/iss-pass.json?lat=37&lon=-122&n=5"])
      as (response & Hresponse & Hrun).
    + vm_compute. reflexivity.
    + rewrite Hrun. simpl. simpl in Hresponse. congruence.
Defined.

(** ** Bodies that do not have the expected shape *)

(** C6, as stated, fails on iss.js.  A 200 reply whose body is the object
    without members makes fetchMyIP apply its callback to a null error and
    undefined: it succeeds.  A 200 reply whose body is not JSON makes it
    throw the SyntaxError of JSON.parse, whatever the callback: the callback
    is not applied, and the error does not come through it. *)
Lemma fetchMyIP_parse_failures_not_reported :
  let no_ip := serve (Answered 200 "{}") (Answered 200 geo_body) (Answered 200 pass_body) in
  let not_json :=
    serve (Answered 200 "<html>") (Answered 200 geo_body) (Answered 200 pass_body) in
  Iss.fetchMyIP no_ip observe []
  = (Normal (None, Undefined), [Invoked FetchMyIP; Requested ip_url])
  /\ ~ failed (Iss.fetchMyIP no_ip observe [])
  /\ (forall (R : Type) (callback : Iss.Callback (R := R)),
         Iss.fetchMyIP not_json callback []
         = (Throw (SyntaxError "Unexpected token in JSON"),
            [Invoked FetchMyIP; Requested ip_url])).
Proof.
  intros no_ip not_json.
  assert (Hrun : Iss.fetchMyIP no_ip observe []
                 = (Normal (None, Undefined), [Invoked FetchMyIP; Requested ip_url]))
    by (vm_compute; reflexivity).
  split; [exact Hrun|]. split.
  - unfold failed. rewrite Hrun. simpl. tauto.
  - intros R callback. reflexivity.
Qed.

(** C6, amended. For a 200 reply of the IP-echo service, fetchMyIP of iss.js
    checks nothing about the body: when JSON.parse throws, or the parsed
    value is null so that reading [ip] throws, that exception leaves
    fetchMyIP and the callback is not applied; otherwise the callback gets a
    null error and [data.ip], which is undefined when the body has no [ip]. *)
Theorem fetchMyIP_does_not_validate_the_body
  (network : string -> Reply) (body : string)
  (R : Type) (callback : Iss.Callback (R := R)) (t : Trace) :
  network ip_url = Answered 200 body ->
  let t' := (t ++ [Invoked FetchMyIP; Requested ip_url])%list in
  (forall e, JSON_parse body = Throw e ->
             Iss.fetchMyIP network callback t = (Throw e, t'))
  /\ (forall data e, JSON_parse body = Normal data -> get data "ip" = Throw e ->
                     Iss.fetchMyIP network callback t = (Throw e, t'))
  /\ (forall data ip, JSON_parse body = Normal data -> get data "ip" = Normal ip ->
                      Iss.fetchMyIP network callback t = callback None ip t'
                      /\ (has_own_property data "ip" = false -> ip = Undefined)).
Proof.
  intros Hnet t'. subst t'. split; [|split].
  - intros e Hparse. unfold_run. rewrite Hnet. cbn [N.eqb Pos.eqb negb].
    rewrite Hparse. trace_norm. reflexivity.
  - intros data e Hparse Hip. unfold_run. rewrite Hnet. cbn [N.eqb Pos.eqb negb].
    rewrite Hparse, Hip. trace_norm. reflexivity.
  - intros data ip Hparse Hip. split.
    + now apply fetchMyIP_success with body data.
    + now apply get_absent.
Qed.

Lemma fetchMyIP_does_not_validate_the_body_witness :
  let not_json :=
    serve (Answered 200 "<html>") (Answered 200 geo_body) (Answered 200 pass_body) in
  let no_ip := serve (Answered 200 "{}") (Answered 200 geo_body) (Answered 200 pass_body) in
  let null := serve (Answered 200 "null") (Answered 200 geo_body) (Answered 200 pass_body) in
  not_json ip_url = Answered 200 "<html>"
  /\ Iss.fetchMyIP not_json observe []
     = (Throw (SyntaxError "Unexpected token in JSON"), [Invoked FetchMyIP; Requested ip_url])
  /\ Iss.fetchMyIP null observe []
     = (Throw (TypeError "Cannot read properties of null (reading 'ip')"),
        [Invoked FetchMyIP; Requested ip_url])
  /\ Iss.fetchMyIP no_ip observe []
     = (Normal (None, Undefined), [Invoked FetchMyIP; Requested ip_url]).
Proof.
  intros not_json no_ip null.
  split; [reflexivity|]. split; [|split].
  - apply (fetchMyIP_does_not_validate_the_body not_json "<html>" _ observe [] eq_refl).
    vm_compute. reflexivity.
  - apply (fetchMyIP_does_not_validate_the_body null "null" _ observe [] eq_refl) with Null;
      vm_compute; reflexivity.
  - apply (fetchMyIP_does_not_validate_the_body no_ip "{}" _ observe [] eq_refl) with (Obj []);
      vm_compute; reflexivity.
Defined.

(** ** The pipelines *)

(** C3. When the IP-echo service answers 200 with the body [ip_body], the
    geolocation service (asked for 1.2.3.4) answers 200 with [geo_body] and
    the pass-time service (asked for latitude 37, longitude -122) answers 200
    with [pass_body], nextISSTimesForMyLocation of iss.js applies its callback
    to a null error and the two passes of [pass_body], and that of
    iss_promised.js is fulfilled with the same list: the result of the last
    stage, unchanged. *)
Theorem end_to_end_scenario (network : string -> Reply) :
  network "https://api64.ipify.org/?format=json" = Answered 200 ip_body ->
  network "http://ip-api.com/json/1.2.3.4" = Answered 200 geo_body ->
  network "http://api.open-notify.org/iss-pass.json?lat=37&lon=-122&n=5"
  = Answered 200 pass_body ->
  (forall (R : Type) (callback : Iss.Callback (R := R)) (t : Trace),
      Iss.nextISSTimesForMyLocation network callback t
      = callback None sample_passes (t ++ sample_events)%list)
  /\ (forall t : Trace,
         IssPromised.nextISSTimesForMyLocation network t
         = (Normal sample_passes, (t ++ sample_events)%list)).
Proof.
  intros Hip Hgeo Hpass.
  destruct bodies_parse as (Pip & Pgeo & Ppass).
  split.
  - intros R callback t. unfold Iss.nextISSTimesForMyLocation.
    rewrite (fetchMyIP_success network _ t ip_body _ (Str "1.2.3.4") Hip Pip eq_refl).
    rewrite (fetchCoordsByIP_success network _ _ (Str "1.2.3.4") geo_body _
               (Str "success") (Int 37) (Int (-122)) Hgeo Pgeo eq_refl eq_refl eq_refl
               eq_refl).
    rewrite (fetchISSFlyOverTimes_success network _ _
               (Obj [("lat", Int 37); ("lon", Int (-122))]) (Int 37) (Int (-122)) pass_body _
               (Str "success") sample_passes eq_refl eq_refl Hpass Ppass eq_refl eq_refl
               eq_refl).
    trace_norm. reflexivity.
  - intro t.
    unfold IssPromised.nextISSTimesForMyLocation, IssPromised.then_, bind.
    rewrite (promised_fetchMyIP_success network t ip_body Hip).
    rewrite (promised_fetchCoordsByIP_success network _ ip_body _ (Str "1.2.3.4") geo_body
               Pip eq_refl Hgeo).
    rewrite (promised_fetchISSFlyOverTimes_success network _ geo_body _ (Int 37)
               (Int (-122)) pass_body Pgeo eq_refl eq_refl Hpass).
    unfold lift, ret. rewrite Ppass. trace_norm. reflexivity.
Qed.

Lemma end_to_end_scenario_witness :
  sample_network "https://api64.ipify.org/?format=json" = Answered 200 ip_body
  /\ sample_network "http://ip-api.com/json/1.2.3.4" = Answered 200 geo_body
  /\ sample_network "http://api.open-notify.org/iss-pass.json?lat=37&lon=-122&n=5"
     = Answered 200 pass_body
  /\ Iss.nextISSTimesForMyLocation sample_network observe []
     = (Normal (None, sample_passes), sample_events)
  /\ IssPromised.nextISSTimesForMyLocation sample_network []
     = (Normal sample_passes, sample_events).
Proof.
  assert (Hip : sample_network "https://api64.ipify.org/?format=json"
                = Answered 200 ip_body) by reflexivity.
  assert (Hgeo : sample_network "http://ip-api.com/json/1.2.3.4" = Answered 200 geo_body)
    by reflexivity.
  assert (Hpass : sample_network
                    "http://api.open-notify.org/iss-pass.json?lat=37&lon=-122&n=5"
                  = Answered 200 pass_body) by reflexivity.
  destruct (end_to_end_scenario sample_network Hip Hgeo Hpass) as (Hcb & Hpromise).
  repeat (split; [assumption|]). split.
  - exact (Hcb _ observe []).
  - exact (Hpromise []).
Defined.

(** C2. In both pipelines the first failure aborts the remaining stages.
    When fetchMyIP fails (it throws or reports an error; its promise is
    rejected), a run of nextISSTimesForMyLocation enters neither
    fetchCoordsByIP nor fetchISSFlyOverTimes; when fetchMyIP succeeds and
    fetchCoordsByIP fails on its result, the run does not enter
    fetchISSFlyOverTimes.  Entering a stage is counted on the trace. *)
Theorem first_failure_aborts_remaining_stages (network : string -> Reply) :
  (forall (R : Type) (callback : Iss.Callback (R := R)) (t : Trace),
      failed (Iss.fetchMyIP network observe []) ->
      let t' := trace (Iss.nextISSTimesForMyLocation network callback t) in
      call_count FetchCoordsByIP t' = call_count FetchCoordsByIP t
      /\ call_count FetchISSFlyOverTimes t' = call_count FetchISSFlyOverTimes t)
  /\ (forall (R : Type) (callback : Iss.Callback (R := R)) (t : Trace) (ip : Value),
         outcome (Iss.fetchMyIP network observe []) = Normal (None, ip) ->
         failed (Iss.fetchCoordsByIP network ip observe []) ->
         let t' := trace (Iss.nextISSTimesForMyLocation network callback t) in
         call_count FetchISSFlyOverTimes t' = call_count FetchISSFlyOverTimes t)
  /\ (forall t : Trace,
         rejected (IssPromised.fetchMyIP network []) ->
         let t' := trace (IssPromised.nextISSTimesForMyLocation network t) in
         call_count FetchCoordsByIP t' = call_count FetchCoordsByIP t
         /\ call_count FetchISSFlyOverTimes t' = call_count FetchISSFlyOverTimes t)
  /\ (forall (t : Trace) (body : string),
         outcome (IssPromised.fetchMyIP network []) = Normal body ->
         rejected (IssPromised.fetchCoordsByIP network body []) ->
         let t' := trace (IssPromised.nextISSTimesForMyLocation network t) in
         call_count FetchISSFlyOverTimes t' = call_count FetchISSFlyOverTimes t).
Proof.
  split; [|split; [|split]].
  - intros R callback t Hfail t'. subst t'.
    unfold Iss.nextISSTimesForMyLocation.
    rewrite fetchMyIP_resume, fetchMyIP_observe_run.
    unfold failed in Hfail.
    destruct (outcome (Iss.fetchMyIP network observe [])) as [[[e|] v]|e];
      try contradiction; cbn [resume trace snd throw];
      rewrite !call_count_app; simpl; lia.
  - intros R callback t ip Hip Hfail t'. subst t'.
    unfold Iss.nextISSTimesForMyLocation.
    rewrite fetchMyIP_resume, fetchMyIP_observe_run, Hip. cbn [resume].
    rewrite fetchCoordsByIP_resume, fetchCoordsByIP_observe_run.
    unfold failed in Hfail.
    destruct (outcome (Iss.fetchCoordsByIP network ip observe [])) as [[[e|] v]|e];
      try contradiction; cbn [resume trace snd throw];
      rewrite !call_count_app; simpl; lia.
  - intros t Hrej t'. subst t'.
    unfold IssPromised.nextISSTimesForMyLocation, IssPromised.then_.
    unfold bind. rewrite promised_fetchMyIP_run.
    unfold rejected in Hrej.
    destruct (outcome (IssPromised.fetchMyIP network [])) as [body|e];
      [contradiction|].
    cbn [trace snd]. rewrite !call_count_app. simpl. lia.
  - intros t body Hip Hrej t'. subst t'.
    unfold IssPromised.nextISSTimesForMyLocation, IssPromised.then_.
    unfold bind. rewrite promised_fetchMyIP_run, Hip.
    rewrite (outcome_trace (IssPromised.fetchCoordsByIP network body _)).
    rewrite (framed_promised_fetchCoordsByIP network body _) at 1.
    cbn [outcome fst].
    unfold rejected in Hrej.
    destruct (outcome (IssPromised.fetchCoordsByIP network body [])) as [geo|e];
      [contradiction|].
    cbn [trace snd]. rewrite call_count_promised_fetchCoordsByIP.
    rewrite call_count_app. simpl. lia.
Qed.

Lemma first_failure_aborts_remaining_stages_witness :
  let ip_down :=
    serve (Answered 500 "Internal Server Error") (Answered 200 geo_body)
      (Answered 200 pass_body) in
  let geo_fail :=
    serve (Answered 200 ip_body) (Answered 200 geo_fail_body) (Answered 200 pass_body) in
  let geo_down :=
    serve (Answered 200 ip_body) (Failed (TransportError "ETIMEDOUT"))
      (Answered 200 pass_body) in
  (failed (Iss.fetchMyIP ip_down observe [])
   /\ call_count FetchCoordsByIP
        (trace (Iss.nextISSTimesForMyLocation ip_down observe [])) = 0
   /\ call_count FetchISSFlyOverTimes
        (trace (Iss.nextISSTimesForMyLocation ip_down observe [])) = 0)
  /\ (outcome (Iss.fetchMyIP geo_fail observe []) = Normal (None, Str "1.2.3.4")
      /\ failed (Iss.fetchCoordsByIP geo_fail (Str "1.2.3.4") observe [])
      /\ call_count FetchISSFlyOverTimes
           (trace (Iss.nextISSTimesForMyLocation geo_fail observe [])) = 0)
  /\ (rejected (IssPromised.fetchMyIP ip_down [])
      /\ call_count FetchCoordsByIP
           (trace (IssPromised.nextISSTimesForMyLocation ip_down [])) = 0
      /\ call_count FetchISSFlyOverTimes
           (trace (IssPromised.nextISSTimesForMyLocation ip_down [])) = 0)
  /\ (outcome (IssPromised.fetchMyIP geo_down []) = Normal ip_body
      /\ rejected (IssPromised.fetchCoordsByIP geo_down ip_body [])
      /\ call_count FetchISSFlyOverTimes
           (trace (IssPromised.nextISSTimesForMyLocation geo_down [])) = 0).
Proof.
  intros ip_down geo_fail geo_down.
  assert (H1 : failed (Iss.fetchMyIP ip_down observe [])) by exact I.
  assert (H2 : outcome (Iss.fetchMyIP geo_fail observe []) = Normal (None, Str "1.2.3.4"))
    by (vm_compute; reflexivity).
  assert (H3 : failed (Iss.fetchCoordsByIP geo_fail (Str "1.2.3.4") observe []))
    by (vm_compute; exact I).
  assert (H4 : rejected (IssPromised.fetchMyIP ip_down [])) by exact I.
  assert (H5 : outcome (IssPromised.fetchMyIP geo_down []) = Normal ip_body)
    by reflexivity.
  assert (H6 : rejected (IssPromised.fetchCoordsByIP geo_down ip_body []))
    by (vm_compute; exact I).
  destruct (first_failure_aborts_remaining_stages ip_down) as (Ha & _ & Hc & _).
  destruct (first_failure_aborts_remaining_stages geo_fail) as (_ & Hb & _ & _).
  destruct (first_failure_aborts_remaining_stages geo_down) as (_ & _ & _ & Hd).
  split; [split; [exact H1 | exact (Ha _ observe [] H1)]|].
  split; [split; [exact H2 | split; [exact H3|]]|].
  { exact (Hb _ observe [] (Str "1.2.3.4") H2 H3). }
  split; [split; [exact H4 | exact (Hc [] H4)]|].
  split; [exact H5 | split; [exact H6|]].
  exact (Hd [] ip_body H5 H6).
Defined.

(** C1 fails on iss.js: each failure branch of nextISSTimesForMyLocation
    evaluates [err], which nothing declares, so the run throws a
    ReferenceError before the callback is applied.  The three runs below have
    the first, the second and the third stage report an Error for a 500
    reply; whatever the callback, it is not applied, and the stage's Error is
    lost. *)
Theorem nextISSTimesForMyLocation_loses_stage_error :
  let reply := Answered 500 "Internal Server Error" in
  let ip_down := serve reply (Answered 200 geo_body) (Answered 200 pass_body) in
  let geo_down := serve (Answered 200 ip_body) reply (Answered 200 pass_body) in
  let pass_down := serve (Answered 200 ip_body) (Answered 200 geo_body) reply in
  outcome (Iss.fetchMyIP ip_down observe [])
  = Normal (Some (Error "Status Code 500 when fetching IP. Response: Internal Server Error"),
            Null)
  /\ outcome (Iss.fetchCoordsByIP geo_down (Str "1.2.3.4") observe [])
     = Normal (Some (Error
         "Status Code 500 when fetching coordinates. Response: Internal Server Error"),
               Null)
  /\ outcome (Iss.fetchISSFlyOverTimes pass_down
                (Obj [("lat", Int 37); ("lon", Int (-122))]) observe [])
     = Normal (Some (Error
         "Status Code 500 when fetching iss data. Response: Internal Server Error"),
               Null)
  /\ forall (R : Type) (callback : Iss.Callback (R := R)) (t : Trace),
       Iss.nextISSTimesForMyLocation ip_down callback t
       = (Throw (ReferenceError "err is not defined"),
          (t ++ [Invoked FetchMyIP; Requested ip_url])%list)
       /\ Iss.nextISSTimesForMyLocation geo_down callback t
          = (Throw (ReferenceError "err is not defined"),
             (t ++ [Invoked FetchMyIP; Requested ip_url;
                    Invoked FetchCoordsByIP; Requested "http://ip-api.com/json/1.2.3.4"])%list)
       /\ Iss.nextISSTimesForMyLocation pass_down callback t
          = (Throw (ReferenceError "err is not defined"),
             (t ++ [Invoked FetchMyIP; Requested ip_url;
                    Invoked FetchCoordsByIP; Requested "http://ip-api.com/json/1.2.3.4";
                    Invoked FetchISSFlyOverTimes;
                    Requested
                      "http://api.open-notify.org/iss-pass.json?lat=37&lon=-122&n=5"])%list).
Proof.
  intros reply ip_down geo_down pass_down.
  do 3 (split; [vm_compute; reflexivity|]).
  intros R callback t.
  rewrite (nextISSTimesForMyLocation_resume ip_down callback t).
  rewrite (nextISSTimesForMyLocation_resume geo_down callback t).
  rewrite (nextISSTimesForMyLocation_resume pass_down callback t).
  rewrite (framed_nextISSTimesForMyLocation ip_down observe framed_observe t).
  rewrite (framed_nextISSTimesForMyLocation geo_down observe framed_observe t).
  rewrite (framed_nextISSTimesForMyLocation pass_down observe framed_observe t).
  assert (E1 : Iss.nextISSTimesForMyLocation ip_down observe []
               = (Throw (ReferenceError "err is not defined"),
                  [Invoked FetchMyIP; Requested ip_url]))
    by (vm_compute; reflexivity).
  assert (E2 : Iss.nextISSTimesForMyLocation geo_down observe []
               = (Throw (ReferenceError "err is not defined"),
                  [Invoked FetchMyIP; Requested ip_url;
                   Invoked FetchCoordsByIP; Requested "http://ip-api.com/json/1.2.3.4"]))
    by (vm_compute; reflexivity).
  assert (E3 : Iss.nextISSTimesForMyLocation pass_down observe []
               = (Throw (ReferenceError "err is not defined"),
                  [Invoked FetchMyIP; Requested ip_url;
                   Invoked FetchCoordsByIP; Requested "http://ip-api.com/json/1.2.3.4";
                   Invoked FetchISSFlyOverTimes;
                   Requested
                     "http://api.open-notify.org/iss-pass.json?lat=37&lon=-122&n=5"]))
    by (vm_compute; reflexivity).
  rewrite E1, E2, E3. repeat split.
Qed.

(** ** Independence of invocations *)

Lemma events_app (i : nat) (l1 l2 : Log) :
  events i (l1 ++ l2)%list = (events i l1 ++ events i l2)%list.
Proof.
  induction l1 as [|[j ev] l1 IH]; simpl; [reflexivity|].
  destruct (j =? i)%nat; simpl; now rewrite IH.
Qed.

Lemma events_tagged (i id : nat) (evs : Trace) :
  events i (map (pair id) evs) = if (id =? i)%nat then evs else [].
Proof.
  induction evs as [|ev evs IH]; simpl.
  - now destruct (id =? i)%nat.
  - rewrite IH. now destruct (id =? i)%nat.
Qed.

Lemma nth_error_replace {A : Type} (i j : nat) (x : A) (l : list A) :
  nth_error (replace i x l) j
  = if (j =? i)%nat then (if (i <? length l)%nat then Some x else None)
    else nth_error l j.
Proof.
  revert i j. induction l as [|y l IH]; intros i j.
  - cbn [replace length]. destruct i, j; simpl; try reflexivity.
    now destruct (j =? i)%nat.
  - destruct i as [|i], j as [|j]; simpl; try reflexivity.
    rewrite IH. reflexivity.
Qed.

Lemma length_replace {A : Type} (i : nat) (x : A) (l : list A) :
  length (replace i x l) = length l.
Proof.
  revert i. induction l as [|y l IH]; intros [|i]; simpl; try reflexivity.
  now rewrite IH.
Qed.

Lemma quiet_and_then {A B : Type} (task : Task A) (f : A -> Task B) :
  quiet task -> (forall a, quiet (f a)) -> quiet (and_then task f).
Proof.
  intros Htask Hf.
  induction task as [[a|e]|stage next IH|url k IH|next IH|name k IH|name v next IH];
    simpl in *; auto.
Qed.

Section Turns.
Context {R : Type}.
Variable network : string -> Reply.

Lemma finish_frame (task : Task R) (g : Globals) (t : Trace) :
  finish network task g t
  = (outcome (finish network task g []), (t ++ trace (finish network task g []))%list).
Proof.
  revert g t.
  induction task as [c|stage next IH|url k IH|next IH|name k IH|name v next IH];
    intros g t; cbn [finish].
  - cbn. now rewrite app_nil_r.
  - rewrite (IH g (t ++ _)%list), (IH g ([] ++ _)%list). cbn. now rewrite <- app_assoc.
  - rewrite (IH _ g (t ++ _)%list), (IH _ g ([] ++ _)%list). cbn.
    now rewrite <- app_assoc.
  - apply IH.
  - apply IH.
  - apply IH.
Qed.

Lemma finish_and_then {A : Type} (task : Task A) (f : A -> Task R) (g : Globals)
  (t : Trace) :
  quiet task ->
  finish network (and_then task f) g t
  = match finish network task g t with
    | (Normal a, t') => finish network (f a) g t'
    | (Throw e, t') => (Throw e, t')
    end.
Proof.
  revert t.
  induction task as [[a|e]|stage next IH|url k IH|next IH|name k IH|name v next IH];
    intros t Hquiet; cbn [and_then finish] in *; auto.
  contradiction.
Qed.

Lemma turn_spec (id : nat) (task : Task R) (g : Globals) (l : Log) :
  quiet task ->
  exists st evs,
    turn id task g l = (st, g, (l ++ map (pair id) evs)%list)
    /\ quiet_status st
    /\ (forall t, complete network st g (t ++ evs)%list = finish network task g t)
    /\ turns_left network st g = suspensions network task g.
Proof.
  revert l.
  induction task as [c|stage next IH|url k IH|next IH|name k IH|name v next IH];
    intros l Hquiet; cbn [turn quiet] in *.
  - exists (Finished c), []. cbn. rewrite app_nil_r.
    repeat split. intro t. now rewrite app_nil_r.
  - destruct (IH (l ++ [(id, Invoked stage)])%list Hquiet)
      as (st & evs & Hturn & Hst & Hrest & Hleft).
    exists st, (Invoked stage :: evs). rewrite Hturn. cbn [map].
    rewrite <- app_assoc. repeat split; try assumption.
    intro t. cbn [finish]. rewrite <- (Hrest (t ++ [Invoked stage])%list).
    now rewrite <- app_assoc.
  - exists (Waiting url k), [Requested url]. cbn. repeat split. exact Hquiet.
  - exists (Queued next), []. cbn. rewrite app_nil_r. repeat split; [exact Hquiet|].
    intro t. now rewrite app_nil_r.
  - apply IH, Hquiet.
  - contradiction.
Qed.
End Turns.

Section Schedules.
Context {R : Type}.
Variable network : string -> Reply.
Variable halts : bool.
Variable invoke : Task R.
Variable g : Globals.
Hypothesis invoke_quiet : quiet invoke.

Lemma on_course_boot : on_course network invoke g (boot g).
Proof.
  repeat split; cbn; try discriminate.
  - destruct i; discriminate.
  - destruct i; discriminate.
Qed.

(** A turn of a called invocation that was on course leaves all of them on
    course. *)
Lemma on_course_resumed (s : State) (i : nat) (st : Status R) (task : Task R) :
  on_course network invoke g s ->
  stopped s = false ->
  nth_error (invocations s) i = Some st ->
  quiet task ->
  (forall t, finish network task g t = complete network st g t) ->
  on_course network invoke g
    (after_turn halts (fun st' => replace i st' (invocations s))
       (turn i task (globals s) (log s))).
Proof.
  intros (Hg & Hinv & Hnone & Hstop) Hrun Hnth Hquiet Hsame.
  destruct (turn_spec network i task (globals s) (log s) Hquiet)
    as (st' & evs & Hturn & Hst' & Hrest & _).
  rewrite Hturn, Hg in *. cbn [after_turn].
  assert (Hlt : i < length (invocations s)) by (apply nth_error_Some; congruence).
  assert (Hmine : complete network st' g (events i (log s) ++ evs)%list
                  = alone network invoke g).
  { rewrite Hrest, Hsame. now apply Hinv. }
  split; [reflexivity|]. cbn [globals log invocations stopped]. split; [|split].
  - intros j stj. rewrite nth_error_replace, events_app, events_tagged.
    rewrite (Nat.eqb_sym i j).
    destruct (Nat.eqb_spec j i) as [->|Hne].
    + apply Nat.ltb_lt in Hlt. rewrite Hlt. intro H. injection H as <-.
      split; assumption.
    + rewrite app_nil_r. apply Hinv.
  - intros j Hj. rewrite length_replace in Hj.
    rewrite events_app, events_tagged, (Hnone j Hj).
    destruct (Nat.eqb_spec i j) as [->|Hne]; [lia|reflexivity].
  - intro H. apply andb_true_iff in H. destruct H as [_ H].
    destruct st' as [[a|e]| |]; try discriminate.
    exists e. cbn [complete] in Hmine. now rewrite <- Hmine.
Qed.

Lemma on_course_step (s : State) (a : Action) :
  on_course network invoke g s -> on_course network invoke g (step network halts invoke s a).
Proof.
  intro Hs. unfold step. destruct (stopped s) eqn:Hrun; [exact Hs|].
  destruct a as [|i].
  - destruct Hs as (Hg & Hinv & Hnone & Hstop).
    destruct (turn_spec network (length (invocations s)) invoke (globals s) (log s)
                invoke_quiet) as (st' & evs & Hturn & Hst' & Hrest & _).
    rewrite Hturn, Hg in *. cbn [after_turn].
    assert (Hmine : complete network st' g evs = alone network invoke g)
      by apply (Hrest []).
    split; [reflexivity|]. cbn [globals log invocations stopped]. split; [|split].
    + intros j stj Hj. rewrite events_app, events_tagged.
      destruct (Nat.eqb_spec (length (invocations s)) j) as [<-|Hne].
      * rewrite nth_error_app2, Nat.sub_diag in Hj by lia. injection Hj as <-.
        rewrite (Hnone _ (le_n _)). split; assumption.
      * assert (Hlt : j < length (invocations s)).
        { assert (Hj' : j < length (invocations s ++ [st'])%list)
            by (apply nth_error_Some; congruence).
          rewrite length_app in Hj'. cbn in Hj'. lia. }
        rewrite nth_error_app1 in Hj by exact Hlt. rewrite app_nil_r. now apply Hinv.
    + intros j Hj. rewrite length_app in Hj. cbn in Hj.
      rewrite events_app, events_tagged, (Hnone j) by lia.
      destruct (Nat.eqb_spec (length (invocations s)) j); [lia|reflexivity].
    + intro H. apply andb_true_iff in H. destruct H as [_ H].
      destruct st' as [[a|e]| |]; try discriminate.
      exists e. cbn [complete] in Hmine. now rewrite <- Hmine.
  - destruct (nth_error (invocations s) i) as [[c|url k|next]|] eqn:Hnth; try exact Hs.
    + apply (on_course_resumed s i (Waiting url k)); try assumption; [|reflexivity].
      destruct Hs as (_ & Hinv & _). apply (Hinv i _ Hnth).
    + apply (on_course_resumed s i (Queued next)); try assumption; [|reflexivity].
      destruct Hs as (_ & Hinv & _). apply (Hinv i _ Hnth).
Qed.

(** A turn of an invocation that has not finished leaves it with fewer
    turns to take. *)
Lemma resume_takes_a_turn (s : State) (i : nat) (st : Status R) :
  on_course network invoke g s ->
  stopped s = false ->
  nth_error (invocations s) i = Some st ->
  0 < turns_left network st g ->
  exists st',
    nth_error (invocations (step network halts invoke s (Resume i))) i = Some st'
    /\ S (turns_left network st' g) = turns_left network st g
    /\ stopped (step network halts invoke s (Resume i)) = halts && ends_in_exception st'.
Proof.
  intros (Hg & Hinv & _) Hrun Hnth Hleft.
  assert (Hlt : (i <? length (invocations s))%nat = true)
    by (apply Nat.ltb_lt, nth_error_Some; congruence).
  destruct (Hinv i st Hnth) as (Hquiet & _).
  unfold step. rewrite Hrun, Hnth, Hg.
  destruct st as [c|url k|next]; cbn [turns_left quiet_status] in *; [lia| |].
  - destruct (turn_spec network i (k (network url)) g (log s) (Hquiet _))
      as (st' & evs & -> & _ & _ & Hturns).
    exists st'. cbn [after_turn invocations stopped].
    rewrite nth_error_replace, Nat.eqb_refl, Hlt, Hturns. repeat split.
  - destruct (turn_spec network i next g (log s) Hquiet)
      as (st' & evs & -> & _ & _ & Hturns).
    exists st'. cbn [after_turn invocations stopped].
    rewrite nth_error_replace, Nat.eqb_refl, Hlt, Hturns. repeat split.
Qed.

Lemma finished_as_alone (s : State) (i : nat) (c : Completion R) :
  on_course network invoke g s ->
  nth_error (invocations s) i = Some (Finished c) ->
  c = outcome (alone network invoke g)
  /\ events i (log s) = trace (alone network invoke g).
Proof.
  intros (_ & Hinv & _) Hnth. destruct (Hinv i _ Hnth) as (_ & <-). now split.
Qed.

(** Resumed again and again, an invocation comes to its end. *)
Lemma resumed_to_the_end (n : nat) :
  forall (s : State) (i : nat) (st : Status R),
    on_course network invoke g s ->
    stopped s = false ->
    nth_error (invocations s) i = Some st ->
    turns_left network st g <= n ->
    exists m,
      nth_error (invocations (run network halts invoke (repeat (Resume i) m) s)) i
      = Some (Finished (outcome (alone network invoke g))).
Proof.
  induction n as [|n IH]; intros s i st Hs Hrun Hnth Hleft.
  - exists 0. cbn [repeat run fold_left].
    destruct st as [c|url k|next]; cbn [turns_left] in Hleft; try lia.
    destruct (finished_as_alone s i c Hs Hnth) as (<- & _). exact Hnth.
  - destruct (turns_left network st g) as [|left] eqn:Hturns.
    + apply (IH s i st Hs Hrun Hnth). lia.
    + destruct (resume_takes_a_turn s i st Hs Hrun Hnth) as (st' & Hnth' & Hless & Hstop);
        [lia|].
      pose proof (on_course_step s (Resume i) Hs) as Hs'.
      destruct st' as [c|url k|next].
      * exists 1. cbn [repeat run fold_left].
        destruct (finished_as_alone _ i c Hs' Hnth') as (<- & _). exact Hnth'.
      * rewrite andb_false_r in Hstop.
        destruct (IH _ i _ Hs' Hstop Hnth') as (m & Hm); [lia|].
        now exists (S m).
      * rewrite andb_false_r in Hstop.
        destruct (IH _ i _ Hs' Hstop Hnth') as (m & Hm); [lia|].
        now exists (S m).
Qed.

Lemma on_course_run (schedule : list Action) (s : State) :
  on_course network invoke g s -> on_course network invoke g (run network halts invoke schedule s).
Proof.
  revert s. induction schedule as [|a schedule IH]; intros s Hs; [exact Hs|].
  apply IH, on_course_step, Hs.
Qed.

Lemma schedules_undisturbed (schedule : list Action) :
  undisturbed network halts invoke g schedule.
Proof.
  unfold undisturbed. cbv zeta.
  pose proof (on_course_run schedule (boot g) on_course_boot) as Hs.
  set (s := run network halts invoke schedule (boot g)) in *.
  split; [apply Hs|]. split; [|split; [|split; [|split]]].
  - intros i c. now apply finished_as_alone.
  - intros i j c c' Hi Hj.
    destruct (finished_as_alone s i c Hs Hi) as (-> & _).
    destruct (finished_as_alone s j c' Hs Hj) as (-> & _). reflexivity.
  - intros i Hi. destruct (nth_error (invocations s) i) as [st|] eqn:Hnth;
      [|apply nth_error_None in Hnth; lia].
    destruct Hs as (_ & Hinv & _). destruct (Hinv i st Hnth) as (_ & <-).
    destruct st as [c|url k|next]; cbn [complete trace snd].
    + exists []. now rewrite app_nil_r.
    + rewrite finish_frame. now eexists.
    + rewrite finish_frame. now eexists.
  - intros i Hi Hrun. destruct (nth_error (invocations s) i) as [st|] eqn:Hnth;
      [|apply nth_error_None in Hnth; lia].
    now apply (resumed_to_the_end (turns_left network st g) s i st).
  - apply Hs.
Qed.
End Schedules.

(** iss.js and iss_promised.js assign to no global. *)

Ltac quiet_step :=
  first
    [ apply quiet_and_then; [exact I | intro]
    | match goal with |- quiet (match ?x with _ => _ end) => destruct x end
    | match goal with |- quiet (if ?b then _ else _) => destruct b end
    | match goal with H : forall e v, quiet (_ e v) |- _ => apply H end
    | exact I ].

Section Quiet.
Context {R : Type}.

Lemma quiet_fetchMyIP (callback : Loop.Iss.Callback (R := R)) :
  (forall e v, quiet (callback e v)) -> quiet (Loop.Iss.fetchMyIP callback).
Proof. intros Hk reply. repeat quiet_step. Qed.

Lemma quiet_fetchCoordsByIP (ip : Value) (callback : Loop.Iss.Callback (R := R)) :
  (forall e v, quiet (callback e v)) -> quiet (Loop.Iss.fetchCoordsByIP ip callback).
Proof. intros Hk reply. repeat quiet_step. Qed.

Lemma quiet_fetchISSFlyOverTimes (coords : Value) (callback : Loop.Iss.Callback (R := R)) :
  (forall e v, quiet (callback e v)) -> quiet (Loop.Iss.fetchISSFlyOverTimes coords callback).
Proof.
  intro Hk. unfold Loop.Iss.fetchISSFlyOverTimes. cbn [quiet].
  do 2 (apply quiet_and_then; [exact I | intro]). cbv zeta.
  intro reply. repeat quiet_step.
Qed.

Lemma quiet_report (callback : Any -> Value -> Task R) :
  (forall e v, quiet (callback e v)) -> quiet (Loop.Iss.report callback).
Proof. intros Hk [v|]; [apply Hk | exact I]. Qed.

Lemma quiet_nextISSTimesForMyLocation (callback : Any -> Value -> Task R) :
  (forall e v, quiet (callback e v)) ->
  quiet (Loop.Iss.nextISSTimesForMyLocation callback).
Proof.
  intro Hk. unfold Loop.Iss.nextISSTimesForMyLocation.
  apply quiet_fetchMyIP. intros [e|] ip; [now apply quiet_report|].
  apply quiet_fetchCoordsByIP. intros [e|] coords; [now apply quiet_report|].
  apply quiet_fetchISSFlyOverTimes. intros [e|] issTimes; [now apply quiet_report|].
  apply Hk.
Qed.
End Quiet.

Lemma quiet_promised_request (url : string) : quiet (Loop.IssPromised.request url).
Proof. intro reply. repeat quiet_step. Qed.

Lemma quiet_promised_fetchMyIP : quiet Loop.IssPromised.fetchMyIP.
Proof. unfold Loop.IssPromised.fetchMyIP. cbn [quiet]. apply quiet_promised_request. Qed.

Lemma quiet_then {A B : Type} (p : Task A) (f : A -> Task B) :
  quiet p -> (forall a, quiet (f a)) -> quiet (Loop.IssPromised.then_ p f).
Proof. intros Hp Hf. apply quiet_and_then; [exact Hp|]. intro a. apply Hf. Qed.

Lemma quiet_promised_fetchCoordsByIP (body : string) :
  quiet (Loop.IssPromised.fetchCoordsByIP body).
Proof.
  unfold Loop.IssPromised.fetchCoordsByIP. cbn [quiet].
  do 2 (apply quiet_and_then; [exact I | intro]). apply quiet_promised_request.
Qed.

Lemma quiet_promised_fetchISSFlyOverTimes (body : string) :
  quiet (Loop.IssPromised.fetchISSFlyOverTimes body).
Proof.
  unfold Loop.IssPromised.fetchISSFlyOverTimes. cbn [quiet].
  do 3 (apply quiet_and_then; [exact I | intro]). apply quiet_promised_request.
Qed.

Lemma quiet_promised_nextISSTimesForMyLocation :
  quiet Loop.IssPromised.nextISSTimesForMyLocation.
Proof.
  unfold Loop.IssPromised.nextISSTimesForMyLocation.
  apply quiet_then; [apply quiet_then; [apply quiet_then|]|].
  - apply quiet_promised_fetchMyIP.
  - apply quiet_promised_fetchCoordsByIP.
  - apply quiet_promised_fetchISSFlyOverTimes.
  - intro data. do 2 (apply quiet_and_then; [exact I | intro]). exact I.
Qed.

(** On its own, an invocation on the loop is the run of the embedding of
    iss.js and iss_promised.js. *)
Section Agreement.
Variable network : string -> Reply.
Variable g : Globals.

Ltac unfold_turns :=
  unfold Loop.Iss.fetchMyIP, Loop.Iss.fetchCoordsByIP, Loop.Iss.fetchISSFlyOverTimes,
    Loop.Iss.request, Loop.IssPromised.request, Loop.IssPromised.fetchMyIP,
    Loop.IssPromised.fetchCoordsByIP, Loop.IssPromised.fetchISSFlyOverTimes;
  cbn [finish and_then].

Ltac same_leaf :=
  match goal with
  | H : forall e v t, finish _ _ _ _ = _ |- _ => apply H
  | _ => reflexivity
  end.

Lemma finish_fetchMyIP {R : Type} (k : Loop.Iss.Callback (R := R))
  (k' : Iss.Callback (R := R)) :
  (forall e v t, finish network (k e v) g t = k' e v t) ->
  forall t, finish network (Loop.Iss.fetchMyIP k) g t = Iss.fetchMyIP network k' t.
Proof.
  intros Hk t. unfold_turns. unfold_run.
  destruct (network _) as [err|statusCode body]; [same_leaf|].
  destruct (negb _); [same_leaf|].
  destruct (JSON_parse body) as [data|e]; cbn [and_then finish]; [|reflexivity].
  destruct (get data "ip") as [ip|e]; cbn [and_then finish]; same_leaf.
Qed.

Lemma finish_fetchCoordsByIP {R : Type} (ip : Value) (k : Loop.Iss.Callback (R := R))
  (k' : Iss.Callback (R := R)) :
  (forall e v t, finish network (k e v) g t = k' e v t) ->
  forall t,
    finish network (Loop.Iss.fetchCoordsByIP ip k) g t = Iss.fetchCoordsByIP network ip k' t.
Proof.
  intros Hk t. unfold_turns. unfold_run.
  destruct (network _) as [err|statusCode body]; [same_leaf|].
  destruct (negb _); [same_leaf|].
  destruct (JSON_parse body) as [data|e]; cbn [and_then finish]; [|reflexivity].
  destruct (get data "status") as [status|e]; cbn [and_then finish]; [|reflexivity].
  destruct (strict_equals_string status "fail"); [same_leaf|].
  destruct (get data "lat") as [lat|e]; cbn [and_then finish]; [|reflexivity].
  destruct (get data "lon") as [lon|e]; cbn [and_then finish]; same_leaf.
Qed.

Lemma finish_fetchISSFlyOverTimes {R : Type} (coords : Value)
  (k : Loop.Iss.Callback (R := R)) (k' : Iss.Callback (R := R)) :
  (forall e v t, finish network (k e v) g t = k' e v t) ->
  forall t,
    finish network (Loop.Iss.fetchISSFlyOverTimes coords k) g t
    = Iss.fetchISSFlyOverTimes network coords k' t.
Proof.
  intros Hk t. unfold_turns. unfold_run.
  destruct (get coords "lat") as [lat|e]; cbn [and_then finish]; [|reflexivity].
  destruct (get coords "lon") as [lon|e]; cbn [and_then finish]; [|reflexivity].
  destruct (network _) as [err|statusCode body]; [same_leaf|].
  destruct (negb _); [same_leaf|].
  destruct (JSON_parse body) as [data|e]; cbn [and_then finish]; [|reflexivity].
  destruct (get data "message") as [message|e]; cbn [and_then finish]; [|reflexivity].
  destruct (strict_equals_string message "failure"); [same_leaf|].
  destruct (get data "response") as [response|e]; cbn [and_then finish]; same_leaf.
Qed.

(** While the global object has no [err], the failure branches throw, as in
    the embedding of iss.js. *)
Lemma loop_runs_iss {R : Type} (callback : Any -> Value -> Task R)
  (callback' : Iss.Callback (R := R)) :
  g "err" = None ->
  (forall v t, finish network (callback (Val Null) v) g t = callback' None v t) ->
  forall t,
    finish network (Loop.Iss.nextISSTimesForMyLocation callback) g t
    = Iss.nextISSTimesForMyLocation network callback' t.
Proof.
  intros Herr Hk.
  assert (Hreport : forall t, finish network (Loop.Iss.report callback) g t
                              = throw (ReferenceError "err is not defined") t).
  { intro t. unfold Loop.Iss.report. cbn [finish]. now rewrite Herr. }
  unfold Loop.Iss.nextISSTimesForMyLocation, Iss.nextISSTimesForMyLocation.
  apply finish_fetchMyIP. intros [e|] ip; [apply Hreport|].
  apply finish_fetchCoordsByIP. intros [e|] coords; [apply Hreport|].
  apply finish_fetchISSFlyOverTimes. intros [e|] issTimes; [apply Hreport|].
  apply Hk.
Qed.

Lemma finish_promised_request (url : string) (t : Trace) :
  finish network (Loop.IssPromised.request url) g t = IssPromised.request network url t.
Proof.
  unfold_turns. unfold IssPromised.request, bind, emit, ret, throw.
  destruct (network url) as [err|statusCode body]; [reflexivity|].
  destruct (IssPromised.is2xx statusCode); reflexivity.
Qed.

Lemma finish_promised_fetchMyIP (t : Trace) :
  finish network Loop.IssPromised.fetchMyIP g t = IssPromised.fetchMyIP network t.
Proof.
  unfold Loop.IssPromised.fetchMyIP, IssPromised.fetchMyIP. cbn [finish].
  rewrite finish_promised_request. reflexivity.
Qed.

Lemma finish_promised_fetchCoordsByIP (body : string) (t : Trace) :
  finish network (Loop.IssPromised.fetchCoordsByIP body) g t
  = IssPromised.fetchCoordsByIP network body t.
Proof.
  unfold Loop.IssPromised.fetchCoordsByIP, IssPromised.fetchCoordsByIP. cbn [finish].
  unfold bind at 1 2 3, emit, lift.
  destruct (JSON_parse body) as [data|e]; cbn [and_then finish]; [|reflexivity].
  destruct (get data "ip") as [ip|e]; cbn [and_then finish]; [|reflexivity].
  apply finish_promised_request.
Qed.

Lemma finish_promised_fetchISSFlyOverTimes (body : string) (t : Trace) :
  finish network (Loop.IssPromised.fetchISSFlyOverTimes body) g t
  = IssPromised.fetchISSFlyOverTimes network body t.
Proof.
  unfold Loop.IssPromised.fetchISSFlyOverTimes, IssPromised.fetchISSFlyOverTimes.
  cbn [finish]. unfold bind at 1 2 3 4, emit, lift.
  destruct (JSON_parse body) as [data|e]; cbn [and_then finish]; [|reflexivity].
  destruct (get data "lat") as [lat|e]; cbn [and_then finish]; [|reflexivity].
  destruct (get data "lon") as [lon|e]; cbn [and_then finish]; [|reflexivity].
  apply finish_promised_request.
Qed.

Lemma finish_then {A B : Type} (p : Task A) (f : A -> Task B) (m : M A) (k : A -> M B) :
  quiet p ->
  (forall t, finish network p g t = m t) ->
  (forall a t, finish network (f a) g t = k a t) ->
  forall t, finish network (Loop.IssPromised.then_ p f) g t = IssPromised.then_ m k t.
Proof.
  intros Hquiet Hp Hf t. unfold Loop.IssPromised.then_, IssPromised.then_, bind.
  rewrite (finish_and_then network p _ g t Hquiet), Hp.
  destruct (m t) as [[a|e] t']; [|reflexivity]. cbn [finish]. apply Hf.
Qed.

Lemma loop_runs_iss_promised (t : Trace) :
  finish network Loop.IssPromised.nextISSTimesForMyLocation g t
  = IssPromised.nextISSTimesForMyLocation network t.
Proof.
  unfold Loop.IssPromised.nextISSTimesForMyLocation,
    IssPromised.nextISSTimesForMyLocation.
  apply finish_then; [|apply finish_then; [|apply finish_then|]|].
  - apply quiet_then; [apply quiet_then|].
    + apply quiet_promised_fetchMyIP.
    + apply quiet_promised_fetchCoordsByIP.
    + apply quiet_promised_fetchISSFlyOverTimes.
  - apply quiet_then; [apply quiet_promised_fetchMyIP|apply quiet_promised_fetchCoordsByIP].
  - apply quiet_promised_fetchMyIP.
  - apply finish_promised_fetchMyIP.
  - apply finish_promised_fetchCoordsByIP.
  - apply finish_promised_fetchISSFlyOverTimes.
  - intros data t'. unfold bind, lift, ret.
    destruct (JSON_parse data) as [parsed|e]; cbn [and_then finish]; [|reflexivity].
    destruct (get parsed "response") as [response|e]; cbn [and_then finish]; reflexivity.
Qed.
End Agreement.

(** Two invocations of iss.js whose turns interleave: each issues its three
    requests and ends with the passes. *)
Example interleaved_invocations :
  let s := run sample_network true (Loop.Iss.nextISSTimesForMyLocation watch)
             sample_schedule (boot no_globals) in
  map fst (log s) = [0; 0; 1; 1; 1; 1; 0; 0; 0; 0; 1; 1]
  /\ events 0 (log s) = sample_events
  /\ events 1 (log s) = sample_events
  /\ invocations s
     = [Finished (Normal (Val Null, sample_passes));
        Finished (Normal (Val Null, sample_passes))]
  /\ stopped s = false.
Proof. vm_compute. repeat split. Qed.

(** With a host that ends the program on an uncaught exception, the first
    invocation of iss.js that meets a failure leaves the others where they
    are. *)
Example uncaught_exception_stops_the_program :
  let s := run offline_network true (Loop.Iss.nextISSTimesForMyLocation watch)
             sample_schedule (boot no_globals) in
  map settled (invocations s)
  = [None; Some (Throw (ReferenceError "err is not defined"))]
  /\ stopped s = true.
Proof. vm_compute. repeat split. Qed.

(** What the theorem below asks of the callbacks cannot be dropped.  A
    caller that keeps a global [err] and a callback that assigns to it make
    the failure branches of iss.js hand each invocation what the one before
    left there. *)
Example assigning_callback_is_seen :
  let s := run offline_network false (Loop.Iss.nextISSTimesForMyLocation counting)
             [Call; Resume 0; Call; Resume 1]
             (boot (assign "err" (Val (Int 0)) no_globals)) in
  map settled (invocations s)
  = [Some (Normal (Val (Int 0), Null)); Some (Normal (Val (Int 1), Null))]
  /\ globals s "err" = Some (Val (Int 2)).
Proof. vm_compute. repeat split. Qed.



(** * Further properties *)

(** ** Shapes of traces *)

Lemma request_count_app (t u : Trace) :
  request_count (t ++ u)%list = request_count t + request_count u.
Proof.
  induction t as [|[s|url] t IH]; simpl; [reflexivity|assumption|now rewrite IH].
Qed.

Lemma only_endpoints_app (t u : Trace) :
  only_endpoints t -> only_endpoints u -> only_endpoints (t ++ u)%list.
Proof.
  intros Ht Hu url Hin. apply in_app_or in Hin. destruct Hin; auto.
Qed.

Lemma only_endpoints_stage (stage : Stage) (evs : Trace) :
  stage_events stage evs -> only_endpoints evs.
Proof.
  intros [-> | (url & Hurl & ->)] url' Hin; simpl in Hin.
  - destruct Hin as [H|[]]; discriminate.
  - destruct Hin as [H|[H|[]]]; [discriminate|]. injection H as <-. now exists stage.
Qed.

Lemma stage_events_requested (stage : Stage) (url : string) :
  stage_url stage url -> stage_events stage [Invoked stage; Requested url].
Proof. intro H. right. now exists url. Qed.

Section Shapes.
Variable network : string -> Reply.

Lemma trace_fetchISSFlyOverTimes (coords : Value) (t : Trace) :
  exists evs, stage_events FetchISSFlyOverTimes evs
              /\ trace (Iss.fetchISSFlyOverTimes network coords observe t) = (t ++ evs)%list.
Proof.
  unfold_run.
  destruct (get coords "lat") as [lat|e];
    [|exists [Invoked FetchISSFlyOverTimes]; split; [now left|reflexivity]].
  destruct (get coords "lon") as [lon|e];
    [|exists [Invoked FetchISSFlyOverTimes]; split; [now left|reflexivity]].
  cbv zeta. eexists. split; [right; eexists; split; [|reflexivity]; now exists lat, lon|].
  destruct (network _) as [err|statusCode body]; [trace_norm; reflexivity|].
  destruct (negb _); [trace_norm; reflexivity|].
  destruct (JSON_parse body) as [data|e]; [|trace_norm; reflexivity].
  destruct (get data "message") as [message|e]; [|trace_norm; reflexivity].
  destruct (strict_equals_string message "failure"); [trace_norm; reflexivity|].
  destruct (get data "response"); trace_norm; reflexivity.
Qed.

Lemma trace_promised_request (url : string) (t : Trace) :
  trace (IssPromised.request network url t) = (t ++ [Requested url])%list.
Proof.
  unfold IssPromised.request, bind, emit, ret, throw.
  destruct (network url) as [err|statusCode body]; [reflexivity|].
  destruct (IssPromised.is2xx statusCode); reflexivity.
Qed.

Lemma trace_promised_fetchCoordsByIP (body : string) (t : Trace) :
  exists evs, stage_events FetchCoordsByIP evs
              /\ trace (IssPromised.fetchCoordsByIP network body t) = (t ++ evs)%list.
Proof.
  unfold IssPromised.fetchCoordsByIP, bind, emit, lift.
  destruct (JSON_parse body) as [data|e];
    [|exists [Invoked FetchCoordsByIP]; split; [now left|reflexivity]].
  destruct (get data "ip") as [ip|e];
    [|exists [Invoked FetchCoordsByIP]; split; [now left|reflexivity]].
  eexists. split; [right; eexists; split; [|reflexivity]; now exists ip|].
  rewrite (outcome_trace (IssPromised.request _ _ _)), trace_promised_request.
  destruct (outcome _); trace_norm; reflexivity.
Qed.

Lemma trace_promised_fetchISSFlyOverTimes (body : string) (t : Trace) :
  exists evs, stage_events FetchISSFlyOverTimes evs
              /\ trace (IssPromised.fetchISSFlyOverTimes network body t) = (t ++ evs)%list.
Proof.
  unfold IssPromised.fetchISSFlyOverTimes, bind, emit, lift.
  destruct (JSON_parse body) as [data|e];
    [|exists [Invoked FetchISSFlyOverTimes]; split; [now left|reflexivity]].
  destruct (get data "lat") as [lat|e];
    [|exists [Invoked FetchISSFlyOverTimes]; split; [now left|reflexivity]].
  destruct (get data "lon") as [lon|e];
    [|exists [Invoked FetchISSFlyOverTimes]; split; [now left|reflexivity]].
  cbv zeta. eexists. split; [right; eexists; split; [|reflexivity]; now exists lat, lon|].
  rewrite (outcome_trace (IssPromised.request _ _ _)), trace_promised_request.
  destruct (outcome _); trace_norm; reflexivity.
Qed.
End Shapes.

(** ** No stage is retried *)

Lemma stage_events_count (stage : Stage) (evs : Trace) :
  stage_events stage evs ->
  call_count stage evs = 1
  /\ (forall other, stage_eqb stage other = false -> call_count other evs = 0)
  /\ request_count evs <= 1.
Proof.
  intros [-> | (url & _ & ->)]; cbn [call_count request_count];
    (split; [destruct stage; reflexivity|]);
    (split; [intros other ->; reflexivity | lia]).
Qed.

Lemma pipeline_events_no_retry (evs : Trace) :
  pipeline_events evs -> no_retry evs /\ only_endpoints evs.
Proof.
  assert (S1 : stage_events FetchMyIP [Invoked FetchMyIP; Requested ip_url])
    by now apply stage_events_requested.
  pose proof (only_endpoints_stage _ _ S1) as E1.
  unfold pipeline_events. cbv zeta. intros [-> | (e2 & S2 & H)].
  { split; [unfold no_retry; cbn; lia | exact E1]. }
  destruct (stage_events_count _ _ S2) as (C2 & O2 & R2).
  pose proof (only_endpoints_stage _ _ S2) as E2.
  pose proof (O2 FetchMyIP eq_refl) as O21.
  pose proof (O2 FetchISSFlyOverTimes eq_refl) as O23.
  destruct H as [-> | (e3 & S3 & ->)].
  { split; [|now apply only_endpoints_app].
    unfold no_retry. rewrite !call_count_app, !request_count_app. cbn. lia. }
  destruct (stage_events_count _ _ S3) as (C3 & O3 & R3).
  pose proof (only_endpoints_stage _ _ S3) as E3.
  pose proof (O3 FetchMyIP eq_refl) as O31.
  pose proof (O3 FetchCoordsByIP eq_refl) as O32.
  split; [|now repeat apply only_endpoints_app].
  unfold no_retry. rewrite !call_count_app, !request_count_app. cbn. lia.
Qed.

Section PipelineEvents.
Variable network : string -> Reply.

Lemma pipeline_events_callback :
  pipeline_events (trace (Iss.nextISSTimesForMyLocation network observe [])).
Proof.
  unfold pipeline_events. cbv zeta.
  unfold Iss.nextISSTimesForMyLocation.
  rewrite fetchMyIP_resume, fetchMyIP_observe_run.
  destruct (outcome (Iss.fetchMyIP network observe [])) as [[[e|] ip]|e];
    cbn [resume throw trace snd app]; try (now left).
  right. exists [Invoked FetchCoordsByIP; Requested (geo_url ip)].
  split; [apply stage_events_requested; now exists ip|].
  rewrite fetchCoordsByIP_resume, fetchCoordsByIP_observe_run.
  destruct (outcome (Iss.fetchCoordsByIP network ip observe _)) as [[[e|] coords]|e];
    cbn [resume throw trace snd app]; try (now left).
  right. rewrite fetchISSFlyOverTimes_resume.
  destruct (trace_fetchISSFlyOverTimes network coords
              [Invoked FetchMyIP; Requested ip_url;
               Invoked FetchCoordsByIP; Requested (geo_url ip)])
    as (e3 & S3 & Htrace).
  exists e3. split; [exact S3|].
  destruct (Iss.fetchISSFlyOverTimes network coords observe _)
    as [[[[e|] issTimes]|e] t3];
    cbn [resume throw observe ret trace snd] in *; exact Htrace.
Qed.

Lemma pipeline_events_promised :
  pipeline_events (trace (IssPromised.nextISSTimesForMyLocation network [])).
Proof.
  unfold pipeline_events. cbv zeta.
  unfold IssPromised.nextISSTimesForMyLocation, IssPromised.then_, bind.
  rewrite promised_fetchMyIP_run.
  destruct (outcome (IssPromised.fetchMyIP network [])) as [body|e];
    cbn [trace snd app]; [|now left].
  right.
  destruct (trace_promised_fetchCoordsByIP network body
              [Invoked FetchMyIP; Requested ip_url]) as (e2 & S2 & Htrace2).
  exists e2. split; [exact S2|].
  destruct (IssPromised.fetchCoordsByIP network body _) as [[geo|e] t2];
    cbn [trace snd] in *; subst t2; [|now left].
  right.
  destruct (trace_promised_fetchISSFlyOverTimes network geo
              ([Invoked FetchMyIP; Requested ip_url] ++ e2)%list)
    as (e3 & S3 & Htrace3).
  exists e3. split; [exact S3|].
  destruct (IssPromised.fetchISSFlyOverTimes network geo _) as [[pass|e] t3];
    cbn [trace snd] in *; subst t3; [|now rewrite <- app_assoc].
  unfold lift, ret.
  destruct (JSON_parse pass) as [data|e]; [|now rewrite <- app_assoc].
  destruct (get data "response"); now rewrite <- app_assoc.
Qed.
End PipelineEvents.

(** X1. A run of nextISSTimesForMyLocation, in iss.js and in
    iss_promised.js, adds the same events whatever the trace it starts from,
    and these events are, in this order and with nothing else among them:
    the entry of fetchMyIP and its request to the IP-echo address; then, if
    the run goes on, the entry of fetchCoordsByIP and at most one request, to
    a geolocation address; then, if it goes on again, the entry of
    fetchISSFlyOverTimes and at most one request, to a pass-time address.  So
    a stage is entered only after the stage before it, none is entered twice,
    there are no more requests than stages entered (at most three), and every
    request goes to one of the three addresses of the program. *)
Theorem pipelines_never_retry (network : string -> Reply) :
  (exists evs : Trace,
      pipeline_events evs /\ no_retry evs /\ only_endpoints evs
      /\ forall t, trace (Iss.nextISSTimesForMyLocation network observe t)
                   = (t ++ evs)%list)
  /\ (exists evs : Trace,
         pipeline_events evs /\ no_retry evs /\ only_endpoints evs
         /\ forall t, trace (IssPromised.nextISSTimesForMyLocation network t)
                      = (t ++ evs)%list).
Proof.
  split.
  - exists (trace (Iss.nextISSTimesForMyLocation network observe [])).
    pose proof (pipeline_events_callback network) as Hp.
    destruct (pipeline_events_no_retry _ Hp) as (Hn & He).
    repeat (split; [assumption|]). intro t.
    now rewrite (framed_nextISSTimesForMyLocation network observe framed_observe t).
  - exists (trace (IssPromised.nextISSTimesForMyLocation network [])).
    pose proof (pipeline_events_promised network) as Hp.
    destruct (pipeline_events_no_retry _ Hp) as (Hn & He).
    repeat (split; [assumption|]). intro t.
    now rewrite (framed_promised_nextISSTimesForMyLocation network t).
Qed.

(** ** The resolvers of iss.js: what the callback gets *)

(** X2. The error-first contract of the three resolvers of iss.js.  Whatever
    the network answers, a resolver that has issued its request either
    throws out of the request callback without applying the caller's
    callback, or applies it exactly once: to an error and a null value, or
    to a null error and a value.  An error never comes with a value. *)
Theorem resolvers_are_error_first
  (network : string -> Reply) (R : Type) (callback : Iss.Callback (R := R)) (t : Trace) :
  error_first callback (t ++ [Invoked FetchMyIP; Requested ip_url])%list
    (Iss.fetchMyIP network callback t)
  /\ (forall ip : Value,
         error_first callback
           (t ++ [Invoked FetchCoordsByIP; Requested (geo_url ip)])%list
           (Iss.fetchCoordsByIP network ip callback t))
  /\ (forall coords lat lon : Value,
         get coords "lat" = Normal lat ->
         get coords "lon" = Normal lon ->
         error_first callback
           (t ++ [Invoked FetchISSFlyOverTimes; Requested (pass_url lat lon)])%list
           (Iss.fetchISSFlyOverTimes network coords callback t)).
Proof.
  unfold error_first. split; [|split].
  - unfold_run. trace_norm.
    destruct (network _) as [err|statusCode body]; [right; left; eauto|].
    destruct (negb _); [right; left; eauto|].
    destruct (JSON_parse body) as [data|e]; [|left; eauto].
    destruct (get data "ip") as [ip|e]; [right; right; eauto|left; eauto].
  - intro ip. unfold_run. trace_norm.
    destruct (network _) as [err|statusCode body]; [right; left; eauto|].
    destruct (negb _); [right; left; eauto|].
    destruct (JSON_parse body) as [data|e]; [|left; eauto].
    destruct (get data "status") as [status|e]; [|left; eauto].
    destruct (strict_equals_string status "fail"); [right; left; eauto|].
    destruct (get data "lat") as [lat|e]; [|left; eauto].
    destruct (get data "lon") as [lon|e]; [right; right; eauto|left; eauto].
  - intros coords lat lon Hlat Hlon. unfold_run. rewrite Hlat, Hlon. cbv zeta.
    trace_norm.
    destruct (network _) as [err|statusCode body]; [right; left; eauto|].
    destruct (negb _); [right; left; eauto|].
    destruct (JSON_parse body) as [data|e]; [|left; eauto].
    destruct (get data "message") as [message|e]; [|left; eauto].
    destruct (strict_equals_string message "failure"); [right; left; eauto|].
    destruct (get data "response") as [response|e]; [right; right; eauto|left; eauto].
Qed.

(** X3. A transport failure is handed over as it is.  When the request of
    a resolver fails with [err], the resolver of iss.js applies its callback
    to that very [err] and null; the stage of iss_promised.js that issued the
    request is rejected with the RequestError that wraps [err]. *)
Theorem transport_error_is_passed_on
  (network : string -> Reply) (err : Exception) (t : Trace) :
  (network ip_url = Failed err ->
   (forall (R : Type) (callback : Iss.Callback (R := R)),
       Iss.fetchMyIP network callback t
       = callback (Some err) Null (t ++ [Invoked FetchMyIP; Requested ip_url])%list)
   /\ IssPromised.fetchMyIP network t
      = (Throw (RequestError err), (t ++ [Invoked FetchMyIP; Requested ip_url])%list))
  /\ (forall ip : Value,
         network (geo_url ip) = Failed err ->
         (forall (R : Type) (callback : Iss.Callback (R := R)),
             Iss.fetchCoordsByIP network ip callback t
             = callback (Some err) Null
                 (t ++ [Invoked FetchCoordsByIP; Requested (geo_url ip)])%list)
         /\ (forall (body : string) (data : Value),
                JSON_parse body = Normal data ->
                get data "ip" = Normal ip ->
                IssPromised.fetchCoordsByIP network body t
                = (Throw (RequestError err),
                   (t ++ [Invoked FetchCoordsByIP; Requested (geo_url ip)])%list)))
  /\ (forall lat lon : Value,
         network (pass_url lat lon) = Failed err ->
         (forall (R : Type) (callback : Iss.Callback (R := R)) (coords : Value),
             get coords "lat" = Normal lat ->
             get coords "lon" = Normal lon ->
             Iss.fetchISSFlyOverTimes network coords callback t
             = callback (Some err) Null
                 (t ++ [Invoked FetchISSFlyOverTimes; Requested (pass_url lat lon)])%list)
         /\ (forall (body : string) (data : Value),
                JSON_parse body = Normal data ->
                get data "lat" = Normal lat ->
                get data "lon" = Normal lon ->
                IssPromised.fetchISSFlyOverTimes network body t
                = (Throw (RequestError err),
                   (t ++ [Invoked FetchISSFlyOverTimes;
                          Requested (pass_url lat lon)])%list))).
Proof.
  split; [|split].
  - intro Hnet. split; [intros R callback|];
      unfold_run; rewrite Hnet; trace_norm; reflexivity.
  - intros ip Hnet. split.
    + intros R callback. unfold_run. rewrite Hnet. trace_norm. reflexivity.
    + intros body data Hparse Hip. unfold_run. rewrite Hparse, Hip, Hnet.
      trace_norm. reflexivity.
  - intros lat lon Hnet. split.
    + intros R callback coords Hlat Hlon. unfold_run. rewrite Hlat, Hlon. cbv zeta.
      rewrite Hnet. trace_norm. reflexivity.
    + intros body data Hparse Hlat Hlon. unfold_run. rewrite Hparse, Hlat, Hlon.
      cbv zeta. rewrite Hnet. trace_norm. reflexivity.
Qed.

(** ** Reading a success backwards *)

Section Inversion.
Variable network : string -> Reply.

Lemma fetchMyIP_success_inv (ip : Value) :
  outcome (Iss.fetchMyIP network observe []) = Normal (None, ip) ->
  exists body data,
    network ip_url = Answered 200 body
    /\ JSON_parse body = Normal data
    /\ get data "ip" = Normal ip.
Proof.
  unfold_run. destruct (network _) as [err|statusCode body]; [discriminate|].
  destruct (N.eqb_spec statusCode 200) as [->|Hne]; [|discriminate].
  cbn [negb]. destruct (JSON_parse body) as [data|e] eqn:Hparse; [|discriminate].
  destruct (get data "ip") as [ip'|e] eqn:Hip; [|discriminate].
  intro H. injection H as <-. now exists body, data.
Qed.

Lemma fetchCoordsByIP_success_inv (ip coords : Value) :
  outcome (Iss.fetchCoordsByIP network ip observe []) = Normal (None, coords) ->
  exists body data status lat lon,
    network (geo_url ip) = Answered 200 body
    /\ JSON_parse body = Normal data
    /\ get data "status" = Normal status
    /\ strict_equals_string status "fail" = false
    /\ get data "lat" = Normal lat
    /\ get data "lon" = Normal lon
    /\ coords = Obj [("lat", lat); ("lon", lon)].
Proof.
  unfold_run. destruct (network _) as [err|statusCode body]; [discriminate|].
  destruct (N.eqb_spec statusCode 200) as [->|Hne]; [|discriminate].
  cbn [negb]. destruct (JSON_parse body) as [data|e] eqn:Hparse; [|discriminate].
  destruct (get data "status") as [status|e] eqn:Hstatus; [|discriminate].
  destruct (strict_equals_string status "fail") eqn:Hfail; [discriminate|].
  destruct (get data "lat") as [lat|e] eqn:Hlat; [|discriminate].
  destruct (get data "lon") as [lon|e] eqn:Hlon; [|discriminate].
  intro H. injection H as <-. exists body, data, status, lat, lon. repeat split; assumption.
Qed.

Lemma fetchISSFlyOverTimes_success_inv (coords response : Value) :
  outcome (Iss.fetchISSFlyOverTimes network coords observe []) = Normal (None, response) ->
  exists lat lon body data message,
    get coords "lat" = Normal lat
    /\ get coords "lon" = Normal lon
    /\ network (pass_url lat lon) = Answered 200 body
    /\ JSON_parse body = Normal data
    /\ get data "message" = Normal message
    /\ strict_equals_string message "failure" = false
    /\ get data "response" = Normal response.
Proof.
  unfold_run. destruct (get coords "lat") as [lat|e] eqn:Hlat; [|discriminate].
  destruct (get coords "lon") as [lon|e] eqn:Hlon; [|discriminate]. cbv zeta.
  destruct (network _) as [err|statusCode body] eqn:Hnet; [discriminate|].
  destruct (N.eqb_spec statusCode 200) as [->|Hne]; [|discriminate].
  cbn [negb]. destruct (JSON_parse body) as [data|e] eqn:Hparse; [|discriminate].
  destruct (get data "message") as [message|e] eqn:Hmessage; [|discriminate].
  destruct (strict_equals_string message "failure") eqn:Hfail; [discriminate|].
  destruct (get data "response") as [response'|e] eqn:Hresponse; [|discriminate].
  intro H. injection H as <-.
  exists lat, lon, body, data, message. repeat split; assumption.
Qed.

(** The three stages, each fed with the result of the one before. *)
Lemma pipelines_succeed (ipBody geoBody passBody : string)
  (ipData geoData passData ip status lat lon message response : Value) :
  network ip_url = Answered 200 ipBody ->
  JSON_parse ipBody = Normal ipData ->
  get ipData "ip" = Normal ip ->
  network (geo_url ip) = Answered 200 geoBody ->
  JSON_parse geoBody = Normal geoData ->
  get geoData "status" = Normal status ->
  strict_equals_string status "fail" = false ->
  get geoData "lat" = Normal lat ->
  get geoData "lon" = Normal lon ->
  network (pass_url lat lon) = Answered 200 passBody ->
  JSON_parse passBody = Normal passData ->
  get passData "message" = Normal message ->
  strict_equals_string message "failure" = false ->
  get passData "response" = Normal response ->
  let events := [Invoked FetchMyIP; Requested ip_url;
                 Invoked FetchCoordsByIP; Requested (geo_url ip);
                 Invoked FetchISSFlyOverTimes; Requested (pass_url lat lon)] in
  (forall (R : Type) (callback : Iss.Callback (R := R)) (t : Trace),
      Iss.nextISSTimesForMyLocation network callback t
      = callback None response (t ++ events)%list)
  /\ (forall t : Trace,
         IssPromised.nextISSTimesForMyLocation network t
         = (Normal response, (t ++ events)%list)).
Proof.
  intros Hip Pip Gip Hgeo Pgeo Gstatus Hok Glat Glon Hpass Ppass Gmessage Hok' Gresponse
    events.
  split.
  - intros R callback t. unfold Iss.nextISSTimesForMyLocation.
    rewrite (fetchMyIP_success network _ t ipBody ipData ip Hip Pip Gip).
    rewrite (fetchCoordsByIP_success network _ _ ip geoBody geoData status lat lon
               Hgeo Pgeo Gstatus Hok Glat Glon).
    rewrite (fetchISSFlyOverTimes_success network _ _ (Obj [("lat", lat); ("lon", lon)])
               lat lon passBody passData message response eq_refl eq_refl Hpass Ppass
               Gmessage Hok' Gresponse).
    trace_norm. reflexivity.
  - intro t.
    unfold IssPromised.nextISSTimesForMyLocation, IssPromised.then_, bind.
    rewrite (promised_fetchMyIP_success network t ipBody Hip).
    rewrite (promised_fetchCoordsByIP_success network _ ipBody ipData ip geoBody
               Pip Gip Hgeo).
    rewrite (promised_fetchISSFlyOverTimes_success network _ geoBody geoData lat lon
               passBody Pgeo Glat Glon Hpass).
    unfold lift, ret. rewrite Ppass, Gresponse. trace_norm. reflexivity.
Qed.
End Inversion.

(** ** How the stages compose *)

(** X4. Data flows from stage to stage.  When the IP-echo service answers
    200 with an [ip], the geolocation service, asked for that [ip], answers
    200 with a status other than fail, and the pass-time service, asked for
    the [lat] and [lon] of that answer, answers 200 with a message other
    than failure, both pipelines end with the [response] of the last body,
    after exactly these three requests.  This is stated for the bodies the
    model reads as the engine does: [ip], [lat] and [lon] are values that
    ToString prints as they were written (no object with a [toString] of
    its own, no number binary64 would print differently), and every number
    in [response] is one binary64 holds without rounding. *)
Theorem stages_feed_each_other (network : string -> Reply)
  (ipBody geoBody passBody : string)
  (ipData geoData passData ip status lat lon message response : Value) :
  network ip_url = Answered 200 ipBody ->
  JSON_parse ipBody = Normal ipData ->
  get ipData "ip" = Normal ip ->
  network (geo_url ip) = Answered 200 geoBody ->
  JSON_parse geoBody = Normal geoData ->
  get geoData "status" = Normal status ->
  status <> Str "fail" ->
  get geoData "lat" = Normal lat ->
  get geoData "lon" = Normal lon ->
  network (pass_url lat lon) = Answered 200 passBody ->
  JSON_parse passBody = Normal passData ->
  get passData "message" = Normal message ->
  message <> Str "failure" ->
  get passData "response" = Normal response ->
  printable ip = true ->
  printable lat = true ->
  printable lon = true ->
  exact response = true ->
  let events := [Invoked FetchMyIP; Requested ip_url;
                 Invoked FetchCoordsByIP; Requested (geo_url ip);
                 Invoked FetchISSFlyOverTimes; Requested (pass_url lat lon)] in
  (forall (R : Type) (callback : Iss.Callback (R := R)) (t : Trace),
      Iss.nextISSTimesForMyLocation network callback t
      = callback None response (t ++ events)%list)
  /\ (forall t : Trace,
         IssPromised.nextISSTimesForMyLocation network t
         = (Normal response, (t ++ events)%list)).
Proof.
  intros Hip Pip Gip Hgeo Pgeo Gstatus Hok Glat Glon Hpass Ppass Gmessage Hok' Gresponse
    _ _ _ _.
  apply (pipelines_succeed network ipBody geoBody passBody ipData geoData passData
           ip status lat lon message response); try assumption.
  - now apply strict_equals_string_neq.
  - now apply strict_equals_string_neq.
Qed.

Lemma stages_feed_each_other_witness :
  let ipData := Obj [("ip", Str "1.2.3.4")] in
  let geoData := Obj [("status", Str "success"); ("lat", Int 37); ("lon", Int (-122))] in
  let passData := Obj [("message", Str "success"); ("response", sample_passes)] in
  (sample_network ip_url = Answered 200 ip_body
   /\ JSON_parse ip_body = Normal ipData
   /\ get ipData "ip" = Normal (Str "1.2.3.4")
   /\ sample_network (geo_url (Str "1.2.3.4")) = Answered 200 geo_body
   /\ JSON_parse geo_body = Normal geoData
   /\ get geoData "status" = Normal (Str "success")
   /\ Str "success" <> Str "fail")
  /\ (get geoData "lat" = Normal (Int 37)
      /\ get geoData "lon" = Normal (Int (-122))
      /\ sample_network (pass_url (Int 37) (Int (-122))) = Answered 200 pass_body
      /\ JSON_parse pass_body = Normal passData
      /\ get passData "message" = Normal (Str "success")
      /\ Str "success" <> Str "failure"
      /\ get passData "response" = Normal sample_passes)
  /\ (printable (Str "1.2.3.4") = true
      /\ printable (Int 37) = true
      /\ printable (Int (-122)) = true
      /\ exact sample_passes = true)
  /\ Iss.nextISSTimesForMyLocation sample_network observe []
     = (Normal (None, sample_passes), sample_events)
  /\ IssPromised.nextISSTimesForMyLocation sample_network []
     = (Normal sample_passes, sample_events).
Proof.
  intros ipData geoData passData.
  assert (H1 : sample_network ip_url = Answered 200 ip_body) by reflexivity.
  assert (H2 : JSON_parse ip_body = Normal ipData) by (vm_compute; reflexivity).
  assert (H3 : get ipData "ip" = Normal (Str "1.2.3.4")) by reflexivity.
  assert (H4 : sample_network (geo_url (Str "1.2.3.4")) = Answered 200 geo_body)
    by reflexivity.
  assert (H5 : JSON_parse geo_body = Normal geoData) by (vm_compute; reflexivity).
  assert (H6 : get geoData "status" = Normal (Str "success")) by reflexivity.
  assert (H7 : Str "success" <> Str "fail") by discriminate.
  assert (H8 : get geoData "lat" = Normal (Int 37)) by reflexivity.
  assert (H9 : get geoData "lon" = Normal (Int (-122))) by reflexivity.
  assert (H10 : sample_network (pass_url (Int 37) (Int (-122))) = Answered 200 pass_body)
    by (vm_compute; reflexivity).
  assert (H11 : JSON_parse pass_body = Normal passData) by (vm_compute; reflexivity).
  assert (H12 : get passData "message" = Normal (Str "success")) by reflexivity.
  assert (H13 : Str "success" <> Str "failure") by discriminate.
  assert (H14 : get passData "response" = Normal sample_passes) by reflexivity.
  destruct (stages_feed_each_other sample_network ip_body geo_body pass_body
              ipData geoData passData (Str "1.2.3.4") (Str "success") (Int 37)
              (Int (-122)) (Str "success") sample_passes
              H1 H2 H3 H4 H5 H6 H7 H8 H9 H10 H11 H12 H13 H14 eq_refl eq_refl eq_refl
              eq_refl) as (Hcb & Hpromise).
  split; [repeat (split; [assumption|]); assumption|].
  split; [repeat (split; [assumption|]); assumption|].
  split; [repeat split|].
  split.
  - rewrite (Hcb _ observe []). vm_compute. reflexivity.
  - rewrite (Hpromise []). vm_compute. reflexivity.
Defined.

(** X5. Whatever succeeds in iss.js succeeds in iss_promised.js.  When
    nextISSTimesForMyLocation of iss.js applies its callback to a null error
    and a value, nextISSTimesForMyLocation of iss_promised.js, on the same
    network, is fulfilled with the same value after the same requests. *)
Theorem callback_success_is_promise_success
  (network : string -> Reply) (issTimes : Value) :
  outcome (Iss.nextISSTimesForMyLocation network observe []) = Normal (None, issTimes) ->
  forall t : Trace,
    IssPromised.nextISSTimesForMyLocation network t
    = (Normal issTimes,
       (t ++ trace (Iss.nextISSTimesForMyLocation network observe []))%list).
Proof.
  intros Hrun t. revert Hrun.
  unfold Iss.nextISSTimesForMyLocation at 1.
  rewrite fetchMyIP_resume, fetchMyIP_observe_run.
  destruct (outcome (Iss.fetchMyIP network observe [])) as [[[e|] ip]|e] eqn:H1;
    cbn [resume]; try discriminate.
  rewrite fetchCoordsByIP_resume, fetchCoordsByIP_observe_run.
  destruct (outcome (Iss.fetchCoordsByIP network ip observe [])) as [[[e|] coords]|e] eqn:H2;
    cbn [resume]; try discriminate.
  rewrite fetchISSFlyOverTimes_resume.
  rewrite (framed_fetchISSFlyOverTimes network coords observe framed_observe).
  destruct (outcome (Iss.fetchISSFlyOverTimes network coords observe []))
    as [[[e|] response]|e] eqn:H3;
    cbn [resume outcome fst observe ret]; try discriminate.
  intro H. injection H as <-.
  destruct (fetchMyIP_success_inv network ip H1) as (ipBody & ipData & Hip & Pip & Gip).
  destruct (fetchCoordsByIP_success_inv network ip coords H2)
    as (geoBody & geoData & status & lat & lon & Hgeo & Pgeo & Gstatus & Hok & Glat
        & Glon & ->).
  destruct (fetchISSFlyOverTimes_success_inv network _ response H3)
    as (lat' & lon' & passBody & passData & message & Glat' & Glon' & Hpass & Ppass
        & Gmessage & Hok' & Gresponse).
  injection Glat' as <-. injection Glon' as <-.
  destruct (pipelines_succeed network ipBody geoBody passBody ipData geoData passData
              ip status lat lon message response
              Hip Pip Gip Hgeo Pgeo Gstatus Hok Glat Glon Hpass Ppass Gmessage Hok' Gresponse)
    as (Hcb & Hpromise).
  rewrite (Hpromise t), (Hcb _ observe []). reflexivity.
Qed.

Lemma callback_success_is_promise_success_witness :
  outcome (Iss.nextISSTimesForMyLocation sample_network observe [])
  = Normal (None, sample_passes)
  /\ IssPromised.nextISSTimesForMyLocation sample_network []
     = (Normal sample_passes, sample_events).
Proof.
  assert (H : outcome (Iss.nextISSTimesForMyLocation sample_network observe [])
              = Normal (None, sample_passes)) by (vm_compute; reflexivity).
  split; [exact H|].
  rewrite (callback_success_is_promise_success sample_network sample_passes H []).
  vm_compute. reflexivity.
Defined.

(** ** How failures travel *)

(** X6. In iss.js the callback of nextISSTimesForMyLocation is applied at
    most once and only ever to a null error: a run either throws without
    applying it, or applies it to null and the passes.  Whenever a stage
    hands the orchestrator an error, whatever that error is, the run throws
    the ReferenceError for [err] instead of passing the error on. *)
Theorem nextISSTimesForMyLocation_callback_sees_no_error
  (network : string -> Reply) (R : Type) (callback : Iss.Callback (R := R)) (t : Trace) :
  let run := Iss.nextISSTimesForMyLocation network callback t in
  let lost := Throw (ReferenceError "err is not defined") in
  (exists evs : Trace,
      (exists e, run = (Throw e, (t ++ evs)%list))
      \/ (exists issTimes, run = callback None issTimes (t ++ evs)%list))
  /\ (forall e v,
         outcome (Iss.fetchMyIP network observe []) = Normal (Some e, v) ->
         run = (lost, (t ++ [Invoked FetchMyIP; Requested ip_url])%list))
  /\ (forall ip e v,
         outcome (Iss.fetchMyIP network observe []) = Normal (None, ip) ->
         outcome (Iss.fetchCoordsByIP network ip observe []) = Normal (Some e, v) ->
         run = (lost, (t ++ [Invoked FetchMyIP; Requested ip_url;
                             Invoked FetchCoordsByIP; Requested (geo_url ip)])%list))
  /\ (forall ip coords e v,
         outcome (Iss.fetchMyIP network observe []) = Normal (None, ip) ->
         outcome (Iss.fetchCoordsByIP network ip observe []) = Normal (None, coords) ->
         outcome (Iss.fetchISSFlyOverTimes network coords observe []) = Normal (Some e, v) ->
         outcome run = lost).
Proof.
  intros run lost. subst run lost. split; [|split; [|split]].
  - rewrite nextISSTimesForMyLocation_resume.
    rewrite (framed_nextISSTimesForMyLocation network observe framed_observe t).
    exists (trace (Iss.nextISSTimesForMyLocation network observe [])).
    assert (Hno : forall e v,
               outcome (Iss.nextISSTimesForMyLocation network observe [])
               <> Normal (Some e, v)).
    { intros e v. unfold Iss.nextISSTimesForMyLocation.
      rewrite fetchMyIP_resume.
      destruct (Iss.fetchMyIP network observe []) as [[[[e1|] ip]|e1] t1];
        cbn [resume]; try discriminate.
      rewrite fetchCoordsByIP_resume.
      destruct (Iss.fetchCoordsByIP network ip observe t1) as [[[[e2|] coords]|e2] t2];
        cbn [resume]; try discriminate.
      rewrite fetchISSFlyOverTimes_resume.
      destruct (Iss.fetchISSFlyOverTimes network coords observe t2)
        as [[[[e3|] issTimes]|e3] t3]; cbn [resume]; discriminate. }
    destruct (outcome (Iss.nextISSTimesForMyLocation network observe []))
      as [[[e|] issTimes]|e]; cbn [resume].
    + now destruct (Hno e issTimes).
    + right. now exists issTimes.
    + left. now exists e.
  - intros e v H1. unfold Iss.nextISSTimesForMyLocation.
    rewrite fetchMyIP_resume, fetchMyIP_observe_run, H1. reflexivity.
  - intros ip e v H1 H2. unfold Iss.nextISSTimesForMyLocation.
    rewrite fetchMyIP_resume, fetchMyIP_observe_run, H1. cbn [resume].
    rewrite fetchCoordsByIP_resume, fetchCoordsByIP_observe_run, H2. cbn [resume throw].
    trace_norm. reflexivity.
  - intros ip coords e v H1 H2 H3. unfold Iss.nextISSTimesForMyLocation.
    rewrite fetchMyIP_resume, fetchMyIP_observe_run, H1. cbn [resume].
    rewrite fetchCoordsByIP_resume, fetchCoordsByIP_observe_run, H2. cbn [resume].
    rewrite fetchISSFlyOverTimes_resume.
    rewrite (framed_fetchISSFlyOverTimes network coords observe framed_observe), H3.
    reflexivity.
Qed.

(** X7. In iss_promised.js the first rejection is the rejection of the
    pipeline, reason unchanged: whichever of the three stages is rejected
    first, and also when the body of the last one cannot be read,
    nextISSTimesForMyLocation is rejected with that same reason. *)
Theorem promised_pipeline_rejects_with_first_reason
  (network : string -> Reply) (t : Trace) (e : Exception) :
  let run := IssPromised.nextISSTimesForMyLocation network t in
  (outcome (IssPromised.fetchMyIP network []) = Throw e ->
   run = (Throw e, (t ++ [Invoked FetchMyIP; Requested ip_url])%list))
  /\ (forall ipBody,
         outcome (IssPromised.fetchMyIP network []) = Normal ipBody ->
         (outcome (IssPromised.fetchCoordsByIP network ipBody []) = Throw e ->
          outcome run = Throw e)
         /\ (forall geoBody,
                outcome (IssPromised.fetchCoordsByIP network ipBody []) = Normal geoBody ->
                (outcome (IssPromised.fetchISSFlyOverTimes network geoBody []) = Throw e ->
                 outcome run = Throw e)
                /\ (forall passBody,
                       outcome (IssPromised.fetchISSFlyOverTimes network geoBody [])
                       = Normal passBody ->
                       (JSON_parse passBody = Throw e -> outcome run = Throw e)
                       /\ (forall data,
                              JSON_parse passBody = Normal data ->
                              get data "response" = Throw e ->
                              outcome run = Throw e)))).
Proof.
  intro run. subst run.
  split; [intro H1|intros ipBody H1; split;
    [intro H2|intros geoBody H2; split;
      [intro H3|intros passBody H3; split; [intro H4|intros data H4 H5]]]];
    unfold IssPromised.nextISSTimesForMyLocation, IssPromised.then_, bind;
    rewrite (promised_fetchMyIP_run network t), H1; try reflexivity;
    rewrite (framed_promised_fetchCoordsByIP network ipBody _), H2; try reflexivity;
    rewrite (framed_promised_fetchISSFlyOverTimes network geoBody _), H3;
    try reflexivity;
    unfold lift, ret; rewrite H4; try reflexivity;
    rewrite H5; reflexivity.
Qed.

(** ** Bodies the next stage cannot use *)

Section Requested.
Variable network : string -> Reply.

Lemma trace_fetchISSFlyOverTimes_requested (coords lat lon : Value) (t : Trace) :
  get coords "lat" = Normal lat ->
  get coords "lon" = Normal lon ->
  trace (Iss.fetchISSFlyOverTimes network coords observe t)
  = (t ++ [Invoked FetchISSFlyOverTimes; Requested (pass_url lat lon)])%list.
Proof.
  intros Hlat Hlon. unfold_run. rewrite Hlat, Hlon. cbv zeta.
  destruct (network _) as [err|statusCode body]; [trace_norm; reflexivity|].
  destruct (negb _); [trace_norm; reflexivity|].
  destruct (JSON_parse body) as [data|e]; [|trace_norm; reflexivity].
  destruct (get data "message") as [message|e]; [|trace_norm; reflexivity].
  destruct (strict_equals_string message "failure"); [trace_norm; reflexivity|].
  destruct (get data "response"); trace_norm; reflexivity.
Qed.

Lemma trace_promised_fetchISSFlyOverTimes_requested (body : string) (data lat lon : Value)
  (t : Trace) :
  JSON_parse body = Normal data ->
  get data "lat" = Normal lat ->
  get data "lon" = Normal lon ->
  trace (IssPromised.fetchISSFlyOverTimes network body t)
  = (t ++ [Invoked FetchISSFlyOverTimes; Requested (pass_url lat lon)])%list.
Proof.
  intros Hparse Hlat Hlon.
  unfold IssPromised.fetchISSFlyOverTimes, bind, emit, lift.
  rewrite Hparse, Hlat, Hlon. cbv zeta.
  rewrite (outcome_trace (IssPromised.request _ _ _)), trace_promised_request.
  unfold pass_url. destruct (outcome _); trace_norm; reflexivity.
Qed.
End Requested.

(** X8. Coordinates that are missing are asked for as the text undefined.
    When the geolocation service answers 200 with a JSON body other than
    null that has neither [lat] nor [lon], no stage stops: both pipelines go
    on to the pass-time service and request the passes for [lat=undefined]
    and [lon=undefined] (iss.js: unless the status of that body is fail).
    The [ip] the first body gave is a value ToString prints as it was
    written (no object with a [toString] of its own, no number binary64
    would print differently); the hypothesis that [status] can be read is
    what says that the body is not null. *)
Theorem missing_coordinates_are_requested_as_undefined
  (network : string -> Reply) (ipBody geoBody : string) (ipData ip geoData status : Value) :
  network ip_url = Answered 200 ipBody ->
  JSON_parse ipBody = Normal ipData ->
  get ipData "ip" = Normal ip ->
  printable ip = true ->
  network (geo_url ip) = Answered 200 geoBody ->
  JSON_parse geoBody = Normal geoData ->
  get geoData "status" = Normal status ->
  has_own_property geoData "lat" = false ->
  has_own_property geoData "lon" = false ->
  let events :=
    [Invoked FetchMyIP; Requested ip_url;
     Invoked FetchCoordsByIP; Requested (geo_url ip);
     Invoked FetchISSFlyOverTimes;
     Requested "http://api.open-notify.org/iss-pass.json?lat=undefined&lon=undefined&n=5"]
  in
  (status <> Str "fail" ->
   forall t, trace (Iss.nextISSTimesForMyLocation network observe t) = (t ++ events)%list)
  /\ (forall t, trace (IssPromised.nextISSTimesForMyLocation network t)
                = (t ++ events)%list).
Proof.
  intros Hip Pip Gip _ Hgeo Pgeo Gstatus Nlat Nlon events. subst events.
  destruct (get_defined _ _ _ Gstatus "lat") as [lat Glat].
  destruct (get_defined _ _ _ Gstatus "lon") as [lon Glon].
  pose proof (get_absent _ _ _ Glat Nlat) as ->.
  pose proof (get_absent _ _ _ Glon Nlon) as ->.
  split.
  - intros Hok t. unfold Iss.nextISSTimesForMyLocation.
    rewrite (fetchMyIP_success network _ t ipBody ipData ip Hip Pip Gip).
    rewrite (fetchCoordsByIP_success network _ _ ip geoBody geoData status
               Undefined Undefined Hgeo Pgeo Gstatus
               (strict_equals_string_neq _ _ Hok) Glat Glon).
    rewrite fetchISSFlyOverTimes_resume.
    pose proof (trace_fetchISSFlyOverTimes_requested network
                  (Obj [("lat", Undefined); ("lon", Undefined)]) Undefined Undefined
                  ((t ++ [Invoked FetchMyIP; Requested ip_url])
                   ++ [Invoked FetchCoordsByIP; Requested (geo_url ip)])%list
                  eq_refl eq_refl) as Htrace.
    destruct (Iss.fetchISSFlyOverTimes network _ observe _)
      as [[[[e|] issTimes]|e] t3];
      cbn [resume throw observe ret trace snd] in *; subst t3;
      trace_norm; reflexivity.
  - intro t. unfold IssPromised.nextISSTimesForMyLocation, IssPromised.then_, bind.
    rewrite (promised_fetchMyIP_success network t ipBody Hip).
    rewrite (promised_fetchCoordsByIP_success network _ ipBody ipData ip geoBody
               Pip Gip Hgeo).
    pose proof (trace_promised_fetchISSFlyOverTimes_requested network geoBody geoData
                  Undefined Undefined
                  ((t ++ [Invoked FetchMyIP; Requested ip_url])
                   ++ [Invoked FetchCoordsByIP; Requested (geo_url ip)])%list
                  Pgeo Glat Glon) as Htrace.
    destruct (IssPromised.fetchISSFlyOverTimes network geoBody _) as [[passBody|e] t3];
      cbn [trace snd] in *; subst t3; [|trace_norm; reflexivity].
    unfold lift, ret.
    destruct (JSON_parse passBody) as [data|e]; [|trace_norm; reflexivity].
    destruct (get data "response"); trace_norm; reflexivity.
Qed.

Lemma missing_coordinates_are_requested_as_undefined_witness :
  let network := serve (Answered 200 ip_body) (Answered 200 geo_body_without_coordinates)
                   (Answered 200 pass_fail_body) in
  let ipData := Obj [("ip", Str "1.2.3.4")] in
  let geoData := Obj [("status", Str "success")] in
  let events :=
    [Invoked FetchMyIP; Requested ip_url;
     Invoked FetchCoordsByIP; Requested "http://ip-api.com/json/1.2.3.4";
     Invoked FetchISSFlyOverTimes;
     Requested "http://api.open-notify.org/iss-pass.json?lat=undefined&lon=undefined&n=5"]
  in
  (network ip_url = Answered 200 ip_body
   /\ JSON_parse ip_body = Normal ipData
   /\ get ipData "ip" = Normal (Str "1.2.3.4")
   /\ printable (Str "1.2.3.4") = true
   /\ network (geo_url (Str "1.2.3.4")) = Answered 200 geo_body_without_coordinates)
  /\ (JSON_parse geo_body_without_coordinates = Normal geoData
      /\ get geoData "status" = Normal (Str "success")
      /\ has_own_property geoData "lat" = false
      /\ has_own_property geoData "lon" = false
      /\ Str "success" <> Str "fail")
  /\ trace (Iss.nextISSTimesForMyLocation network observe []) = events
  /\ trace (IssPromised.nextISSTimesForMyLocation network []) = events.
Proof.
  intros network ipData geoData events.
  assert (H1 : network ip_url = Answered 200 ip_body) by reflexivity.
  assert (H2 : JSON_parse ip_body = Normal ipData) by (vm_compute; reflexivity).
  assert (H3 : get ipData "ip" = Normal (Str "1.2.3.4")) by reflexivity.
  assert (H4 : network (geo_url (Str "1.2.3.4"))
               = Answered 200 geo_body_without_coordinates) by reflexivity.
  assert (H5 : JSON_parse geo_body_without_coordinates = Normal geoData)
    by (vm_compute; reflexivity).
  assert (H6 : get geoData "status" = Normal (Str "success")) by reflexivity.
  assert (H7 : has_own_property geoData "lat" = false) by reflexivity.
  assert (H8 : has_own_property geoData "lon" = false) by reflexivity.
  assert (H9 : Str "success" <> Str "fail") by discriminate.
  destruct (missing_coordinates_are_requested_as_undefined network ip_body
              geo_body_without_coordinates ipData (Str "1.2.3.4") geoData (Str "success")
              H1 H2 H3 eq_refl H4 H5 H6 H7 H8) as (Hcb & Hpromise).
  split; [exact (conj H1 (conj H2 (conj H3 (conj eq_refl H4))))|].
  split; [repeat (split; [assumption|]); assumption|].
  split; [exact (Hcb H9 [])|exact (Hpromise [])].
Defined.

(** X9. A body of the IP-echo service that is not JSON stops both pipelines
    with the exception of JSON.parse, and the geolocation service is not
    contacted.  In iss.js it is thrown out of the request callback of
    fetchMyIP, and the caller's callback is not applied; in iss_promised.js
    fetchMyIP is fulfilled all the same, fetchCoordsByIP throws before it
    requests anything, and the pipeline is rejected with that exception. *)
Theorem unreadable_ip_body_stops_the_pipelines
  (network : string -> Reply) (body : string) (e : Exception) :
  network ip_url = Answered 200 body ->
  JSON_parse body = Throw e ->
  (forall (R : Type) (callback : Iss.Callback (R := R)) (t : Trace),
      Iss.nextISSTimesForMyLocation network callback t
      = (Throw e, (t ++ [Invoked FetchMyIP; Requested ip_url])%list))
  /\ (forall t : Trace,
         IssPromised.nextISSTimesForMyLocation network t
         = (Throw e, (t ++ [Invoked FetchMyIP; Requested ip_url;
                            Invoked FetchCoordsByIP])%list)).
Proof.
  intros Hnet Hparse. split.
  - intros R callback t. unfold Iss.nextISSTimesForMyLocation.
    unfold_run. rewrite Hnet. cbn [N.eqb Pos.eqb negb]. rewrite Hparse.
    trace_norm. reflexivity.
  - intro t. unfold IssPromised.nextISSTimesForMyLocation, IssPromised.then_, bind.
    rewrite (promised_fetchMyIP_success network t body Hnet).
    unfold IssPromised.fetchCoordsByIP, bind, emit, lift. rewrite Hparse.
    trace_norm. reflexivity.
Qed.

Lemma unreadable_ip_body_stops_the_pipelines_witness :
  let network :=
    serve (Answered 200 "<html>") (Answered 200 geo_body) (Answered 200 pass_body) in
  let e := SyntaxError "Unexpected token in JSON" in
  network ip_url = Answered 200 "<html>"
  /\ JSON_parse "<html>" = Throw e
  /\ Iss.nextISSTimesForMyLocation network observe []
     = (Throw e, [Invoked FetchMyIP; Requested ip_url])
  /\ IssPromised.nextISSTimesForMyLocation network []
     = (Throw e, [Invoked FetchMyIP; Requested ip_url; Invoked FetchCoordsByIP]).
Proof.
  intros network e.
  assert (H1 : network ip_url = Answered 200 "<html>") by reflexivity.
  assert (H2 : JSON_parse "<html>" = Throw e) by (vm_compute; reflexivity).
  destruct (unreadable_ip_body_stops_the_pipelines network "<html>" e H1 H2)
    as (Hcb & Hpromise).
  split; [exact H1|]. split; [exact H2|].
  split; [exact (Hcb _ observe [])|exact (Hpromise [])].
Defined.

Lemma transport_error_is_passed_on_witness :
  let err := TransportError "ENOTFOUND" in
  let down := serve (Failed err) (Failed err) (Failed err) in
  down ip_url = Failed err
  /\ Iss.fetchMyIP down observe []
     = (Normal (Some err, Null), [Invoked FetchMyIP; Requested ip_url])
  /\ IssPromised.fetchMyIP down []
     = (Throw (RequestError err), [Invoked FetchMyIP; Requested ip_url])
  /\ Iss.fetchCoordsByIP down (Str "1.2.3.4") observe []
     = (Normal (Some err, Null),
        [Invoked FetchCoordsByIP; Requested "http://ip-api.com/json/1.2.3.4"])
  /\ IssPromised.fetchISSFlyOverTimes down geo_body []
     = (Throw (RequestError err),
        [Invoked FetchISSFlyOverTimes;
         Requested "http://api.open-notify.org/iss-pass.json?lat=37&lon=-122&n=5"]).
Proof.
  intros err down.
  destruct (transport_error_is_passed_on down err []) as (Hip & Hgeo & Hpass).
  split; [reflexivity|].
  destruct (Hip eq_refl) as (Hcb & Hpromise).
  split; [exact (Hcb _ observe)|]. split; [exact Hpromise|].
  split.
  - exact (proj1 (Hgeo (Str "1.2.3.4") eq_refl) _ observe).
  - apply (proj2 (Hpass (Int 37) (Int (-122)) eq_refl) geo_body
             (Obj [("status", Str "success"); ("lat", Int 37); ("lon", Int (-122))]));
      vm_compute; reflexivity.
Defined.

Lemma nextISSTimesForMyLocation_callback_sees_no_error_witness :
  let lost := Throw (ReferenceError "err is not defined") in
  let geo_fail :=
    serve (Answered 200 ip_body) (Answered 200 geo_fail_body) (Answered 200 pass_body) in
  let reported :=
    Error ("Coordinates api returned status fail. Response: " ++ geo_fail_body) in
  outcome (Iss.fetchMyIP geo_fail observe []) = Normal (None, Str "1.2.3.4")
  /\ outcome (Iss.fetchCoordsByIP geo_fail (Str "1.2.3.4") observe [])
     = Normal (Some reported, Null)
  /\ Iss.nextISSTimesForMyLocation geo_fail observe []
     = (lost, [Invoked FetchMyIP; Requested ip_url;
               Invoked FetchCoordsByIP; Requested "http://ip-api.com/json/1.2.3.4"]).
Proof.
  intros lost geo_fail reported.
  assert (H1 : outcome (Iss.fetchMyIP geo_fail observe []) = Normal (None, Str "1.2.3.4"))
    by (vm_compute; reflexivity).
  assert (H2 : outcome (Iss.fetchCoordsByIP geo_fail (Str "1.2.3.4") observe [])
               = Normal (Some reported, Null)) by (vm_compute; reflexivity).
  split; [exact H1|]. split; [exact H2|].
  exact (proj1 (proj2 (proj2
           (nextISSTimesForMyLocation_callback_sees_no_error geo_fail _ observe [])))
           (Str "1.2.3.4") reported Null H1 H2).
Defined.

Lemma promised_pipeline_rejects_with_first_reason_witness :
  let geo_down :=
    serve (Answered 200 ip_body) (Answered 503 "busy") (Answered 200 pass_body) in
  let reason := StatusCodeError 503 "busy" in
  outcome (IssPromised.fetchMyIP geo_down []) = Normal ip_body
  /\ outcome (IssPromised.fetchCoordsByIP geo_down ip_body []) = Throw reason
  /\ outcome (IssPromised.nextISSTimesForMyLocation geo_down []) = Throw reason.
Proof.
  intros geo_down reason.
  assert (H1 : outcome (IssPromised.fetchMyIP geo_down []) = Normal ip_body)
    by reflexivity.
  assert (H2 : outcome (IssPromised.fetchCoordsByIP geo_down ip_body []) = Throw reason)
    by (vm_compute; reflexivity).
  split; [exact H1|]. split; [exact H2|].
  exact (proj1 (proj2 (promised_pipeline_rejects_with_first_reason geo_down [] reason)
                  ip_body H1) H2).
Defined.

(** ** index2.js *)

(** X10. The program of index2.js deals with every outcome of the pipeline
    and never ends rejected.  When the pipeline is rejected, printPassTimes
    is not run and console.log is called once, with the text of the program
    and the message of the reason; when it is fulfilled, printPassTimes is
    run on the passes, before anything is logged, and an exception it throws
    is logged in the same way. *)
Theorem main_reports_every_failure
  (network : string -> Reply) (printPassTimes : Value -> Index2.IO unit)
  (message : Exception -> Value) (w : Index2.World) :
  let pipeline := IssPromised.nextISSTimesForMyLocation network (Index2.requests w) in
  let main := Index2.main network printPassTimes message in
  let log (e : Exception) := [Str "It didn't work: "; message e] in
  (forall e,
      outcome pipeline = Throw e ->
      main w = (Normal tt,
                Index2.mkWorld (trace pipeline) (Index2.console w ++ [log e])%list))
  /\ (forall passTimes,
         outcome pipeline = Normal passTimes ->
         let w1 := Index2.mkWorld (trace pipeline) (Index2.console w) in
         (forall w2, printPassTimes passTimes w1 = (Normal tt, w2) ->
                     main w = (Normal tt, w2))
         /\ (forall e w2, printPassTimes passTimes w1 = (Throw e, w2) ->
                          main w = (Normal tt,
                                    Index2.mkWorld (Index2.requests w2)
                                      (Index2.console w2 ++ [log e])%list)))
  /\ (exists w', main w = (Normal tt, w')).
Proof.
  intros pipeline main log. subst main log.
  unfold Index2.main, Index2.catch_, Index2.then_, Index2.promise, Index2.console_log.
  fold pipeline. rewrite (outcome_trace pipeline).
  cbn [outcome trace fst snd].
  split; [|split].
  - intros e ->. reflexivity.
  - intros passTimes ->. split.
    + intros w2 ->. reflexivity.
    + intros e w2 ->. reflexivity.
  - destruct (outcome pipeline) as [passTimes|e]; [|eauto].
    match goal with
    | |- context [printPassTimes passTimes ?w1] =>
        destruct (printPassTimes passTimes w1) as [[[]|e] w2]; eauto
    end.
Qed.

Lemma main_reports_every_failure_witness :
  let ip_down :=
    serve (Answered 500 "oops") (Answered 200 geo_body) (Answered 200 pass_body) in
  let printPassTimes (passTimes : Value) : Index2.IO unit :=
    Index2.console_log [passTimes] in
  let message (e : Exception) :=
    match e with
    | StatusCodeError statusCode body => Str (decimal_of_N statusCode ++ " - " ++ body)
    | _ => Undefined
    end in
  let start := Index2.mkWorld [] [] in
  outcome (IssPromised.nextISSTimesForMyLocation ip_down []) = Throw (StatusCodeError 500 "oops")
  /\ Index2.main ip_down printPassTimes message start
     = (Normal tt,
        Index2.mkWorld [Invoked FetchMyIP; Requested ip_url]
          [[Str "It didn't work: "; Str "500 - oops"]])
  /\ outcome (IssPromised.nextISSTimesForMyLocation sample_network []) = Normal sample_passes
  /\ Index2.main sample_network printPassTimes message start
     = (Normal tt, Index2.mkWorld sample_events [[sample_passes]]).
Proof.
  intros ip_down printPassTimes message start.
  assert (H1 : outcome (IssPromised.nextISSTimesForMyLocation ip_down [])
               = Throw (StatusCodeError 500 "oops")) by reflexivity.
  assert (H2 : outcome (IssPromised.nextISSTimesForMyLocation sample_network [])
               = Normal sample_passes) by (vm_compute; reflexivity).
  split; [exact H1|]. split; [|split; [exact H2|]].
  - rewrite (proj1 (main_reports_every_failure ip_down printPassTimes message start)
               (StatusCodeError 500 "oops") H1).
    reflexivity.
  - apply (proj1 (proj1 (proj2 (main_reports_every_failure sample_network printPassTimes
                                  message start)) sample_passes H2)).
    vm_compute. reflexivity.
Defined.
